(** * Asset-transfer chaincode: a shallow embedding and its properties

    The repository holds two versions of one Hyperledger Fabric (v0.6 shim)
    chaincode:

    - [Gated]  : chaincode-assettransfer.go, the role-gated contract.  A
      participant is a JSON record [{id, role, assetBalance}] stored under
      the key ["_joinedUsers_" + id]; the list of joined ids is stored
      under ["_joinedUsersIndex"].
    - [Simple] : the earlier role-less contract.  A participant is a
      decimal balance stored under the key [id]; the list of joined ids is
      stored under ["_joinedUsers"].

    Both are translated function by function.  Go values are modelled as
    follows.

    - [int] is a 64-bit two's complement integer: a [Z] with the
      wrap-around of [+] and [-] written out ([wrap]).
    - [string] and [[]byte] are [string]; a nil byte slice is the empty
      string (the code never tells the two apart).
    - [error] is [option string]: [None] is nil, [Some m] an error whose
      [Error()] text is [m].
    - a call either returns or panics ([outcome]); the value of a panic is
      a string or a runtime error ([panicval]).
    - the shim's [ChaincodeStubInterface] is a record [ChaincodeStub]: the
      world state (a [gmap] from keys to bytes), the attributes of the
      invoker's certificate, a schedule of the faults the coming state
      accesses will report, and the chronological trace of the accesses
      made.  Every chaincode function is a state-passing computation
      [Exec A].

    The shim and the Go library are not part of the repository.  What the
    model takes from them: [GetState] of a key that was never written
    returns no bytes and a nil error; a [PutState] or [DelState] that
    reports an error leaves the world state as it was; [json.Unmarshal] of
    an empty input reports an error; [json.Marshal] of a [user] and of a
    [[]string] reports none, and writes a string as the module [Json]
    below describes: the arguments of a call are byte strings that need
    not be valid UTF-8, and the codec does not keep those that are
    not.

    The world state of a stub is the state as the running invocation sees
    it, its own writes applied.  The host commits the writes of an
    invocation that returns without an error and drops the others; that
    step is outside the contract and outside the model.  Writes to
    standard output ([fmt.Println]) are not modelled. *)

From stdpp Require Import gmap strings list fin_maps.
From Stdlib Require Import ZArith Ascii String DecimalString DecimalZ DecimalPos.

Open Scope string_scope.
Open Scope Z_scope.

(** ** Go integers *)

Module GoInt.

(** Width of [int] on the platforms Fabric runs on (amd64). *)
Definition intSize : Z := 64.
Definition minInt : Z := - 2 ^ (intSize - 1).
Definition maxInt : Z := 2 ^ (intSize - 1) - 1.

Definition in_range (z : Z) : bool := (minInt <=? z) && (z <=? maxInt).

(** Two's complement reduction of a mathematical integer to [int]. *)
Definition wrap (z : Z) : Z :=
  (z + 2 ^ (intSize - 1)) mod 2 ^ intSize - 2 ^ (intSize - 1).

Definition add (a b : Z) : Z := wrap (a + b).
Definition sub (a b : Z) : Z := wrap (a - b).

(** [strconv.Itoa]. *)
Definition Itoa (z : Z) : string := NilZero.string_of_int (Z.to_int z).

(** [strconv.Atoi]: an optional sign, then one or more decimal digits;
    a value outside [int] is an error ([None]). *)
Definition Atoi (s : string) : option Z :=
  let parsed :=
    match s with
    | String "+"%char digits => option_map Decimal.Pos (NilZero.uint_of_string digits)
    | _ => NilZero.int_of_string s
    end in
  match parsed with
  | Some d => if in_range (Z.of_int d) then Some (Z.of_int d) else None
  | None => None
  end.

(** The text of the error [Atoi] reports on [s] (Go tells a syntax error
    from a value out of range; one text stands for both here). *)
Definition Atoi_error (s : string) : string :=
  "strconv.ParseInt: parsing " +:+ String "034"%char (s +:+ String "034"%char ": invalid syntax").

(** The conversion [string(i)] of an integer [i]: the UTF-8 encoding of
    the code point [i], or of U+FFFD when [i] is not a code point. *)
Definition byte (z : Z) : ascii := ascii_of_N (Z.to_N z).

Definition bytes (l : list Z) : string :=
  fold_right (fun z s => String (byte z) s) EmptyString l.

Definition string_of_rune (r : Z) : string :=
  if (r <? 0) || (1114111 <? r) || ((55296 <=? r) && (r <=? 57343)) then
    bytes [239; 191; 189]
  else if r <? 128 then
    bytes [r]
  else if r <? 2048 then
    bytes [Z.lor 192 (Z.shiftr r 6); Z.lor 128 (Z.land r 63)]
  else if r <? 65536 then
    bytes [Z.lor 224 (Z.shiftr r 12);
           Z.lor 128 (Z.land (Z.shiftr r 6) 63);
           Z.lor 128 (Z.land r 63)]
  else
    bytes [Z.lor 240 (Z.shiftr r 18);
           Z.lor 128 (Z.land (Z.shiftr r 12) 63);
           Z.lor 128 (Z.land (Z.shiftr r 6) 63);
           Z.lor 128 (Z.land r 63)].

(** [strings.Index(s, substr)]: the index of the first occurrence, or -1. *)
Definition Index (s substr : string) : Z :=
  match String.index 0 substr s with
  | Some n => Z.of_nat n
  | None => -1
  end.

(** The text [needle] occurs in the text [hay]. *)
Definition mentions (hay needle : string) : Prop :=
  ∃ before after : string, hay = before +:+ needle +:+ after.

End GoInt.

Export GoInt.

(** ** unicode/utf8: which bytes encode a code point *)

Module Utf8.

(** The value of a byte. *)
Definition code (c : ascii) : Z := Z.of_N (N_of_ascii c).

Definition within (lo hi : Z) (c : ascii) : bool := (lo <=? code c) && (code c <=? hi).

(** A continuation byte, and the encodings of two, three and four bytes
    that [utf8.DecodeRuneInString] accepts (the table [acceptRanges] of the
    package: no overlong form, no surrogate half, nothing above
    U+10FFFF). *)
Definition cont (c : ascii) : bool := within 128 191 c.

Definition two (c0 c1 : ascii) : bool := within 194 223 c0 && cont c1.

Definition three (c0 c1 c2 : ascii) : bool :=
  within 224 239 c0
  && within (if code c0 =? 224 then 160 else 128) (if code c0 =? 237 then 159 else 191) c1
  && cont c2.

Definition four (c0 c1 c2 c3 : ascii) : bool :=
  within 240 244 c0
  && within (if code c0 =? 240 then 144 else 128) (if code c0 =? 244 then 143 else 191) c1
  && cont c2 && cont c3.

(** The encoding of U+FFFD, the replacement character. *)
Definition RuneError : Z := 65533.
Definition replacement : string := string_of_rune RuneError.

(** [utf8.ValidString]. *)
Fixpoint ValidString (s : string) : bool :=
  match s with
  | EmptyString => true
  | String c0 r0 =>
    if code c0 <? 128 then ValidString r0
    else
      match r0 with
      | String c1 r1 =>
        if two c0 c1 then ValidString r1
        else
          match r1 with
          | String c2 r2 =>
            if three c0 c1 c2 then ValidString r2
            else
              match r2 with
              | String c3 r3 => if four c0 c1 c2 c3 then ValidString r3 else false
              | EmptyString => false
              end
          | EmptyString => false
          end
      | EmptyString => false
      end
  end.

(** The argument lists whose texts are all valid UTF-8. *)
Definition valid_arguments (args : list string) : Prop :=
  Forall (fun a => ValidString a = true) args.

(** The text with every byte that does not begin a valid encoding
    replaced by U+FFFD: what a Go string becomes when it is ranged over
    rune by rune and written back, and so what [encoding/json] makes of
    it. *)
Fixpoint coerce (s : string) : string :=
  match s with
  | EmptyString => EmptyString
  | String c0 r0 =>
    if code c0 <? 128 then String c0 (coerce r0)
    else
      match r0 with
      | String c1 r1 =>
        if two c0 c1 then String c0 (String c1 (coerce r1))
        else
          match r1 with
          | String c2 r2 =>
            if three c0 c1 c2 then String c0 (String c1 (String c2 (coerce r2)))
            else
              match r2 with
              | String c3 r3 =>
                if four c0 c1 c2 c3 then
                  String c0 (String c1 (String c2 (String c3 (coerce r3))))
                else replacement +:+ coerce r0
              | EmptyString => replacement +:+ coerce r0
              end
          | EmptyString => replacement +:+ coerce r0
          end
      | EmptyString => replacement +:+ coerce r0
      end
  end.

End Utf8.

(** ** encoding/json, for the two Go types the chaincode stores

    [escape] is the encoder's writer of the inside of a string literal
    ([encodeState.string], with the escaping of HTML that [json.Marshal]
    turns on), [lits] the decoder's reader of it.

    The encoder writes the quote and the backslash behind a backslash;
    the line feed, the carriage return and the tab as [\n], [\r] and
    [\t]; every other control character and [<], [>], [&] as [\u00] and
    two hexadecimal digits; U+2028 and U+2029 as [\u202] and the digit 8
    or 9; a byte that begins no valid UTF-8 encoding as the escape of
    U+FFFD; everything else as it is.  So a text that is not valid UTF-8
    does not come back as it was.  (The spelling of two control
    characters has changed with Go 1.22, which writes [\b] and [\f]; the
    decoder reads both spellings, and nothing below depends on it.)

    The decoder reads every escape of JSON, surrogate pairs included,
    refuses a raw control character and replaces a byte that begins no
    valid encoding by U+FFFD.

    At the level of documents the decoder accepts the compact ones the
    encoder emits, [null] and the empty array for a slice, and nothing
    else: no white space, no other order or spelling of the keys of a
    record, no element of a slice that is not a string.  These are
    documents the chaincode never writes.  An empty input, which is what a
    missing key reads as, is always an error. *)

Module Json.
Import Utf8.

Definition dq : ascii := "034"%char.
Definition bs : ascii := "092"%char.
Definition nl : string := String "010"%char EmptyString.

(** The digit of [n] in the encoder's table ["0123456789abcdef"]. *)
Definition hex (n : Z) : ascii :=
  default "0"%char (String.get (Z.to_nat n) "0123456789abcdef").

(** What the encoder writes for a byte below 128. *)
Definition escape_ascii (c : ascii) : string :=
  if Ascii.eqb c dq || Ascii.eqb c bs then String bs (String c EmptyString)
  else if Ascii.eqb c "010" then "\n"
  else if Ascii.eqb c "013" then "\r"
  else if Ascii.eqb c "009" then "\t"
  else if (code c <? 32) || Ascii.eqb c "<" || Ascii.eqb c ">" || Ascii.eqb c "&" then
    "\u00" +:+ String (hex (code c / 16)) (String (hex (code c mod 16)) EmptyString)
  else String c EmptyString.

(** The escape the encoder writes for a byte that begins no valid
    encoding: that of U+FFFD. *)
Definition ufffd : string := "\u" +:+ "fffd".

(** U+2028 and U+2029, as encoded. *)
Definition separator (c0 c1 c2 : ascii) : bool :=
  (code c0 =? 226) && (code c1 =? 128) && ((code c2 =? 168) || (code c2 =? 169)).

Fixpoint escape (s : string) : string :=
  match s with
  | EmptyString => EmptyString
  | String c0 r0 =>
    if code c0 <? 128 then escape_ascii c0 +:+ escape r0
    else
      match r0 with
      | String c1 r1 =>
        if two c0 c1 then String c0 (String c1 (escape r1))
        else
          match r1 with
          | String c2 r2 =>
            if three c0 c1 c2 then
              if separator c0 c1 c2 then
                "\u202" +:+ String (hex (code c2 - 160)) (escape r2)
              else String c0 (String c1 (String c2 (escape r2)))
            else
              match r2 with
              | String c3 r3 =>
                if four c0 c1 c2 c3 then
                  String c0 (String c1 (String c2 (String c3 (escape r3))))
                else ufffd +:+ escape r0
              | EmptyString => ufffd +:+ escape r0
              end
          | EmptyString => ufffd +:+ escape r0
          end
      | EmptyString => ufffd +:+ escape r0
      end
  end.

(** The literal for [s], followed by [rest]. *)
Definition lit (s rest : string) : string :=
  String dq (escape s +:+ String dq rest).

(** The value of a hexadecimal digit, and of four of them ([getu4]). *)
Definition hexval (c : ascii) : option Z :=
  if within 48 57 c then Some (code c - 48)
  else if within 97 102 c then Some (code c - 87)
  else if within 65 70 c then Some (code c - 55)
  else None.

Definition getu4 (h1 h2 h3 h4 : ascii) : option Z :=
  d1 ← hexval h1; d2 ← hexval h2; d3 ← hexval h3; d4 ← hexval h4;
  Some (((d1 * 16 + d2) * 16 + d3) * 16 + d4).

(** [utf16.IsSurrogate] and [utf16.DecodeRune]. *)
Definition IsSurrogate (r : Z) : bool := (55296 <=? r) && (r <? 57344).

Definition DecodeRune16 (r1 r2 : Z) : Z :=
  if (55296 <=? r1) && (r1 <? 56320) && (56320 <=? r2) && (r2 <? 57344) then
    (r1 - 55296) * 1024 + (r2 - 56320) + 65536
  else RuneError.

(** The byte an escape of one letter stands for. *)
Definition unescape (e : ascii) : option ascii :=
  if Ascii.eqb e dq || Ascii.eqb e bs || Ascii.eqb e "/" then Some e
  else if Ascii.eqb e "b" then Some "008"%char
  else if Ascii.eqb e "f" then Some "012"%char
  else if Ascii.eqb e "n" then Some "010"%char
  else if Ascii.eqb e "r" then Some "013"%char
  else if Ascii.eqb e "t" then Some "009"%char
  else None.

(** What has been read: the literal at hand, the literals after it, and
    what follows the last of them. *)
Definition reading : Type := string * list string * string.

Definition push (chunk : string) (res : option reading) : option reading :=
  match res with
  | Some (x, l, rest) => Some (chunk +:+ x, l, rest)
  | None => None
  end.

Definition shift (res : option reading) : option reading :=
  match res with
  | Some (x, l, rest) => Some (EmptyString, x :: l, rest)
  | None => None
  end.

(** Reads a literal whose opening quote has been consumed.  With [array]
    set, a literal that is followed by a comma and a quote is followed by
    the next element of the array, which is read as well. *)
Fixpoint lits (array : bool) (s : string) : option reading :=
  match s with
  | EmptyString => None
  | String c0 r0 =>
    if Ascii.eqb c0 dq then
      if array then
        match r0 with
        | String c (String q r) =>
            if Ascii.eqb c "," && Ascii.eqb q dq then shift (lits array r)
            else Some (EmptyString, [], r0)
        | _ => Some (EmptyString, [], r0)
        end
      else Some (EmptyString, [], r0)
    else if Ascii.eqb c0 bs then
      match r0 with
      | String e r1 =>
        if Ascii.eqb e "u" then
          match r1 with
          | String h1 (String h2 (String h3 (String h4 r5))) =>
            match getu4 h1 h2 h3 h4 with
            | Some rr =>
              if IsSurrogate rr then
                match r5 with
                | String b (String u (String k1 (String k2 (String k3 (String k4 r11))))) =>
                  match (if Ascii.eqb b bs && Ascii.eqb u "u" then getu4 k1 k2 k3 k4 else None) with
                  | Some rr1 =>
                    if DecodeRune16 rr rr1 =? RuneError then push replacement (lits array r5)
                    else push (string_of_rune (DecodeRune16 rr rr1)) (lits array r11)
                  | None => push replacement (lits array r5)
                  end
                | _ => push replacement (lits array r5)
                end
              else push (string_of_rune rr) (lits array r5)
            | None => None
            end
          | _ => None
          end
        else
          match unescape e with
          | Some c => push (String c EmptyString) (lits array r1)
          | None => None
          end
      | EmptyString => None
      end
    else if code c0 <? 32 then None
    else if code c0 <? 128 then push (String c0 EmptyString) (lits array r0)
    else
      match r0 with
      | String c1 r1 =>
        if two c0 c1 then push (String c0 (String c1 EmptyString)) (lits array r1)
        else
          match r1 with
          | String c2 r2 =>
            if three c0 c1 c2 then
              push (String c0 (String c1 (String c2 EmptyString))) (lits array r2)
            else
              match r2 with
              | String c3 r3 =>
                if four c0 c1 c2 c3 then
                  push (String c0 (String c1 (String c2 (String c3 EmptyString))))
                    (lits array r3)
                else push replacement (lits array r0)
              | EmptyString => push replacement (lits array r0)
              end
          | EmptyString => push replacement (lits array r0)
          end
      | EmptyString => push replacement (lits array r0)
      end
  end.

(** One literal: the decoded text and what follows the closing quote. *)
Definition read_lit (s : string) : option (string * string) :=
  match lits false s with
  | Some (x, _, rest) => Some (x, rest)
  | None => None
  end.

(** Strips the prefix [p]. *)
Fixpoint expect (p s : string) : option string :=
  match p, s with
  | EmptyString, _ => Some s
  | String a p', String b s' => if Ascii.eqb a b then expect p' s' else None
  | String _ _, EmptyString => None
  end.

(** Splits off the last character. *)
Fixpoint split_last (s : string) : option (string * ascii) :=
  match s with
  | EmptyString => None
  | String c EmptyString => Some (EmptyString, c)
  | String c r =>
      match split_last r with
      | Some (front, z) => Some (String c front, z)
      | None => None
      end
  end.

(** A JSON number read into a Go [int]: the canonical decimal form (or
    [-0]), within the range of [int]. *)
Definition int_of_number (s : string) : option Z :=
  match Atoi s with
  | Some z => if String.eqb (Itoa z) s || String.eqb s "-0" then Some z else None
  | None => None
  end.

(** [json.Marshal] of a [[]string].  The only empty slice the chaincode
    marshals is the nil slice of [Init], which encodes as [null]. *)
Definition Marshal_strings (l : list string) : string :=
  match l with
  | [] => "null"
  | x :: r =>
      String "[" (lit x (fold_right (fun y acc => String "," (lit y acc)) "]" r))
  end.

(** [json.Unmarshal] into a [[]string]; [None] when it reports an error. *)
Definition Unmarshal_strings (data : string) : option (list string) :=
  if String.eqb data "null" then Some []
  else
    match data with
    | String "[" (String "]" EmptyString) => Some []
    | String "[" (String c r) =>
        if Ascii.eqb c dq then
          match lits true r with
          | Some (x, l, rest) => if String.eqb rest "]" then Some (x :: l) else None
          | None => None
          end
        else None
    | _ => None
    end.

(** The text of the error [json.Unmarshal] reports on [data]; the text
    for an empty input is Go's, the other one stands for the several
    syntax and type errors of the library. *)
Definition Unmarshal_error (data : string) : string :=
  match data with
  | EmptyString => "unexpected end of JSON input"
  | _ => "invalid JSON input"
  end.

End Json.

(** ** The shim: world state, faults, and computations over them *)

Module Shim.

(** One access to the world state, and whether it went through. *)
Inductive event : Type :=
| EvGetState (key : string) (ok : bool)
| EvPutState (key value : string) (ok : bool)
| EvDelState (key : string) (ok : bool).

Record ChaincodeStub : Type := mkStub {
  world : gmap string string;          (* key -> bytes *)
  certAttributes : gmap string string; (* attributes of the invoker's eCert *)
  faults : list (option string);       (* [Some e]: the next access fails with [e] *)
  trace : list event                   (* accesses so far, oldest first *)
}.

Inductive panicval : Type :=
| PString (msg : string)         (* panic("...") *)
| PRuntimeError (msg : string).  (* a runtime.Error *)

Inductive outcome (A : Type) : Type :=
| Done (a : A)
| Panic (p : panicval).
Arguments Done {A} a.
Arguments Panic {A} p.

Definition Exec (A : Type) : Type := ChaincodeStub → outcome A * ChaincodeStub.

Definition ret {A} (a : A) : Exec A := fun stub => (Done a, stub).

Definition panic {A} (msg : string) : Exec A :=
  fun stub => (Panic (PString msg), stub).

Definition bind {A B} (m : Exec A) (k : A → Exec B) : Exec B :=
  fun stub =>
    match m stub with
    | (Done a, stub') => k a stub'
    | (Panic p, stub') => (Panic p, stub')
    end.

Definition next_fault (stub : ChaincodeStub) : option string :=
  match faults stub with
  | f :: _ => f
  | [] => None
  end.

(** The fault scheduled for the access that comes after [n] others. *)
Definition fault_at (n : nat) (stub : ChaincodeStub) : option string :=
  default None (faults stub !! n).

(** The stub after one access that left the world state as [w]. *)
Definition advance (stub : ChaincodeStub) (w : gmap string string) (ev : event)
  : ChaincodeStub :=
  {| world := w;
     certAttributes := certAttributes stub;
     faults := tail (faults stub);
     trace := (trace stub ++ [ev])%list |}.

(** The bytes under [key]: none when the key was never written. *)
Definition read (w : gmap string string) (key : string) : string :=
  default EmptyString (w !! key).

(** [stub.GetState]: a key that was never written reads as no bytes and
    no error. *)
Definition GetState (key : string) : Exec (string * option string) :=
  fun stub =>
    match next_fault stub with
    | Some e =>
        (Done (EmptyString, Some e), advance stub (world stub) (EvGetState key false))
    | None =>
        (Done (read (world stub) key, None),
         advance stub (world stub) (EvGetState key true))
    end.

Definition PutState (key value : string) : Exec (option string) :=
  fun stub =>
    match next_fault stub with
    | Some e => (Done (Some e), advance stub (world stub) (EvPutState key value false))
    | None =>
        (Done None, advance stub (<[key := value]> (world stub)) (EvPutState key value true))
    end.

Definition DelState (key : string) : Exec (option string) :=
  fun stub =>
    match next_fault stub with
    | Some e => (Done (Some e), advance stub (world stub) (EvDelState key false))
    | None => (Done None, advance stub (delete key (world stub)) (EvDelState key true))
    end.

Definition ReadCertAttribute (name : string) : Exec (string * option string) :=
  fun stub =>
    match certAttributes stub !! name with
    | Some v => (Done (v, None), stub)
    | None => (Done (EmptyString, Some "attribute not found"), stub)
    end.

(** What a chaincode function returns: [([]byte, error)]. *)
Definition reply : Type := string * option string.
Definition nilBytes : string := EmptyString.

(** [recover()] in a deferred function: the value of the panic under
    way, or nil. *)
Definition recover {A} (o : outcome A) : option panicval :=
  match o with
  | Panic p => Some p
  | Done _ => None
  end.

(** The type assertion [v.(string)] in its one-result form: the string,
    or the run-time panic of a failed assertion. *)
Definition assert_string (v : option panicval) : string + panicval :=
  match v with
  | Some (PString s) => inl s
  | Some (PRuntimeError _) =>
      inr (PRuntimeError "interface conversion: interface is runtime.Error, not string")
  | None => inr (PRuntimeError "interface conversion: interface is nil, not string")
  end.

(** A reply with a nil error is a success; an error or a panic is a
    failure. *)
Definition succeeded (o : outcome reply) : bool :=
  match o with
  | Done (_, None) => true
  | _ => false
  end.

(** The writes among the events of a trace. *)
Definition is_write (ev : event) : bool :=
  match ev with
  | EvGetState _ _ => false
  | _ => true
  end.

Definition writes (t : list event) : list event := List.filter is_write t.

(** A computation whose panics all carry a string. *)
Definition panics_with_string {A} (m : Exec A) : Prop :=
  ∀ (stub stub' : ChaincodeStub) (p : panicval),
    m stub = (Panic p, stub') → ∃ msg : string, p = PString msg.

(** A stub over the world state [w], with no fault scheduled. *)
Definition stub_of (w : gmap string string) (username : string) : ChaincodeStub :=
  {| world := w;
     certAttributes := {[ "username" := username ]};
     faults := [];
     trace := [] |}.

(** The same stub in the hands of an invoker whose certificate carries
    the attributes [cert]. *)
Definition as_invoker (cert : gmap string string) (stub : ChaincodeStub) : ChaincodeStub :=
  {| world := world stub;
     certAttributes := cert;
     faults := faults stub;
     trace := trace stub |}.

(** The same stub with a fresh schedule of faults and an empty trace:
    the start of the next invocation. *)
Definition next_call (fs : list (option string)) (stub : ChaincodeStub) : ChaincodeStub :=
  {| world := world stub;
     certAttributes := certAttributes stub;
     faults := fs;
     trace := [] |}.

End Shim.

Export Shim.

Notation "'do' x <- m ;; k" := (bind m (fun x => k))
  (at level 100, x name, m at next level, right associativity, only parsing).
Notation "'do' ' p <- m ;; k" := (bind m (fun x => match x with p => k end))
  (at level 100, p pattern, m at next level, right associativity, only parsing).

(** ** The role-gated contract (chaincode-assettransfer.go) *)

Module Gated.
Import Json.

Record user : Type := mkUser {
  Id : string;
  Role : string;
  AssetBalance : Z
}.

Definition with_balance (u : user) (b : Z) : user :=
  {| Id := Id u; Role := Role u; AssetBalance := b |}.

Definition varJoinedUsersIndex : string := "_joinedUsersIndex".
Definition varJoinedUsers : string := "_joinedUsers_".
Definition initialAssetBalance : Z := 100.
Definition roleAdmin : string := "admin".
Definition roleUser : string := "user".

(** [json.Marshal] of a [user]; it has no error case for this type, so
    the branches of the source on its error are not reachable. *)
Definition Marshal_user (u : user) : string :=
  String "{"
    (lit "id" (String ":"
    (lit (Id u) (String ","
    (lit "role" (String ":"
    (lit (Role u) (String ","
    (lit "assetBalance" (String ":"
    (Itoa (AssetBalance u) +:+ "}"))))))))))).

(** [json.Unmarshal] into a [user]; [None] when it reports an error. *)
Definition Unmarshal_user (data : string) : option user :=
  r ← expect (String "{" (lit "id" (String ":" (String dq EmptyString)))) data;
  '(id, r) ← read_lit r;
  r ← expect (String "," (lit "role" (String ":" (String dq EmptyString)))) r;
  '(role, r) ← read_lit r;
  r ← expect (String "," (lit "assetBalance" ":")) r;
  '(number, close) ← split_last r;
  if Ascii.eqb close "}" then
    balance ← int_of_number number;
    Some {| Id := id; Role := role; AssetBalance := balance |}
  else None.

(** getUsernameFromEcert *)
Definition getUsernameFromEcert : Exec (string * option string) :=
  do '(userName, err) <- ReadCertAttribute "username" ;;
  match err with
  | Some e =>
      panic ("ERROR: Failed to get attribute 'username' from eCert of chaincode invoker. Source: getUsernameFromEcert. Details: " +:+ e)
  | None => ret (userName, None)
  end.

(** getUserDetails *)
Definition getUserDetails (userId : string) : Exec (user * option string) :=
  do '(userDetailsAsBytes, err) <- GetState (varJoinedUsers +:+ userId) ;;
  match err with
  | Some e =>
      ret (mkUser EmptyString EmptyString 0,
           Some ("ERROR: Failure while getting User Details for User ID '" +:+ userId
                 +:+ "'. Source: getUserDetails. Details: " +:+ e))
  | None =>
      match Unmarshal_user userDetailsAsBytes with
      | None =>
          panic ("ERROR: Failed to unmarshal User Information. Source: getUserDetails. Details: "
                 +:+ Unmarshal_error userDetailsAsBytes)
      | Some userDetails => ret (userDetails, None)
      end
  end.

(** The loop of [join] over the index: has [joineeId] joined before? *)
Fixpoint previously_joined (joineeId : string) (joinedUsersIndex : list string) : bool :=
  match joinedUsersIndex with
  | [] => false
  | val :: rest =>
      if String.eqb val joineeId then true else previously_joined joineeId rest
  end.

Definition join_errorHeader : string := "ERROR: Source: join. ".

(** join.  [args] of any other length than 2 is the first panic. *)
Definition join (userId userRole : string) (args : list string) : Exec reply :=
  let errorHeader := join_errorHeader in
  match args with
  | [joineeId; joineeRole] =>
    if negb (String.eqb userId "admin") && negb (String.eqb userRole roleAdmin) then
      panic (errorHeader +:+ "Permission denied - executing User must be 'admin' or assigned an Administrator User Role.")
    else if Index joineeId "_" =? 0 then
      panic (errorHeader +:+ "Source: First input parameter. User ID of new joinee must not begin with an underscore.")
    else if negb (String.eqb joineeRole roleAdmin) && negb (String.eqb joineeRole roleUser) then
      panic (errorHeader +:+ "Source: Second input parameter. Invalid Role for new joinee.")
    else
      do '(joinedUsersIndexAsBytes, errGetJoinedUsersIndex) <- GetState varJoinedUsersIndex ;;
      match errGetJoinedUsersIndex with
      | Some _ => panic (errorHeader +:+ "Failed to get Index of Joined Users.")
      | None =>
      match Unmarshal_strings joinedUsersIndexAsBytes with
      | None => panic (errorHeader +:+ "Failed to unmarshal Index of Joined Users.")
      | Some joinedUsersIndex =>
        if previously_joined joineeId joinedUsersIndex then
          panic (errorHeader +:+ "A User has previously joined with the same User ID.")
        else
          let joineeKey := varJoinedUsers +:+ joineeId in
          let joineeDetails :=
            {| Id := joineeId; Role := joineeRole; AssetBalance := initialAssetBalance |} in
          let joineeDetailsAsBytes := Marshal_user joineeDetails in
          do errSaveJoineeDetails <- PutState joineeKey joineeDetailsAsBytes ;;
          match errSaveJoineeDetails with
          | Some e =>
              panic (errorHeader +:+ "Failure while storing User Details for Joinee ID '"
                     +:+ joineeId +:+ "'. Details: " +:+ e)
          | None =>
            let newJoinedUsersIndex := (joinedUsersIndex ++ [joineeId])%list in
            let newJoinedUsersIndexAsBytes := Marshal_strings newJoinedUsersIndex in
            do errSaveJoinedUsersIndex <- PutState varJoinedUsersIndex newJoinedUsersIndexAsBytes ;;
            match errSaveJoinedUsersIndex with
            | Some e =>
                let errMsg :=
                  errorHeader +:+ "Failure while adding Joinee ID '" +:+ joineeId
                  +:+ "'. to the Index of Joined Users. Details: " +:+ e in
                let errMsg := errMsg +:+ nl +:+ "Rolling back addition of new User Details... " in
                do errDeleteJoineeDetails <- DelState joineeKey ;;
                match errDeleteJoineeDetails with
                | None =>
                    panic (errMsg +:+ "rollback succeeded for new Joinee ID '" +:+ joineeId +:+ "'.")
                | Some e' =>
                    panic (errMsg +:+ "ERROR: ROLLBACK FAILED FOR NEW JOINEE ID '" +:+ joineeId
                           +:+ "'. A SYSTEM ADMINISTRATOR SHOULD IDEALLY PERFORM MANUALLY ROLLBACK BY DELETING STATE FOR THE FOLLOWING KEY FROM WORLD STATE: "
                           +:+ joineeKey +:+ nl +:+ "Error Details: " +:+ e')
                end
            | None => ret (nilBytes, None)
            end
          end
      end
      end
  | _ =>
      panic (errorHeader +:+ "Incorrect number of arguments - expecting 2 (Joinee User ID, Joinee User Role).")
  end.

(** The loop of [transfer] over the index: the two membership flags. *)
Definition scan_members (senderId receiverId : string) (joinedUsersIndex : list string)
  : bool * bool :=
  fold_left
    (fun '(validSenderId, validReceiverId) val =>
       (if String.eqb val senderId then true else validSenderId,
        if String.eqb val receiverId then true else validReceiverId))
    joinedUsersIndex (false, false).

Definition transfer_errorHeader : string := "ERROR: Source: transfer. ".

(** transfer *)
Definition transfer (userId userRole : string) (args : list string) : Exec reply :=
  let errorHeader := transfer_errorHeader in
  match args with
  | [senderId; receiverId; quantity] =>
    if (Index senderId "_" =? 0) || (Index receiverId "_" =? 0) then
      panic (errorHeader +:+ "User IDs of Sender and Receiver must not begin with an underscore.")
    else if String.eqb senderId receiverId then
      panic (errorHeader +:+ "Sender and Receiver must not be the same User.")
    else if negb (String.eqb userId senderId) then
      panic (errorHeader +:+ "Permission denied - the executing User must match the Sender ID for a successful transfer.")
    else
    match Atoi quantity with
    | None => panic (errorHeader +:+ "Expecting integer value for quantity of Asset to be trasferred.")
    | Some assetQuantity =>
      do '(joinedUsersIndexAsBytes, errGetJoinedUsersIndex) <- GetState varJoinedUsersIndex ;;
      match errGetJoinedUsersIndex with
      | Some _ => panic (errorHeader +:+ "Failed to get Index of Joined Users.")
      | None =>
      match Unmarshal_strings joinedUsersIndexAsBytes with
      | None => panic (errorHeader +:+ "Failed to unmarshal Index of Joined Users.")
      | Some joinedUsersIndex =>
        let '(validSenderId, validReceiverId) :=
          scan_members senderId receiverId joinedUsersIndex in
        if negb validSenderId then
          panic (errorHeader +:+ "Sender is not a member and will have to join the network before attempting this Asset Transfer.")
        else if negb validReceiverId then
          panic (errorHeader +:+ "Receiver is not a member and will have to join the network before attempting this Asset Transfer.")
        else
          do '(senderDetails, errGetSenderDetails) <- getUserDetails senderId ;;
          match errGetSenderDetails with
          | Some e =>
              panic (errorHeader +:+ "Failed to get User Information for Sender '" +:+ senderId
                     +:+ "'. Details: " +:+ e)
          | None =>
            let senderAssetBalance := AssetBalance senderDetails in
            let newSenderAssetBalance := sub senderAssetBalance assetQuantity in
            if newSenderAssetBalance <? 0 then
              panic (errorHeader +:+ "Sender does not possess sufficient assets to complete the transaction. senderAssetBalance: "
                     +:+ string_of_rune (AssetBalance senderDetails))
            else
              do '(receiverDetails, errGetReceiverDetails) <- getUserDetails receiverId ;;
              match errGetReceiverDetails with
              | Some e =>
                  panic (errorHeader +:+ "Failed to get User Information for Receiver '"
                         +:+ receiverId +:+ "'. Details: " +:+ e)
              | None =>
                let receiverAssetBalance := AssetBalance receiverDetails in
                let senderDetails := with_balance senderDetails newSenderAssetBalance in
                let receiverDetails :=
                  with_balance receiverDetails (add receiverAssetBalance assetQuantity) in
                let newSenderDetailsAsBytes := Marshal_user senderDetails in
                let newReceiverDetailsAsBytes := Marshal_user receiverDetails in
                do errSaveSenderDetails <-
                  PutState (varJoinedUsers +:+ senderId) newSenderDetailsAsBytes ;;
                match errSaveSenderDetails with
                | Some e =>
                    panic (errorHeader +:+ "Transaction failed - unable to update Asset Balance for Sender ID '"
                           +:+ senderId +:+ "'. Details: " +:+ e)
                | None =>
                  do errSaveRecieverDetails <-
                    PutState (varJoinedUsers +:+ receiverId) newReceiverDetailsAsBytes ;;
                  match errSaveRecieverDetails with
                  | Some e =>
                      let errMsg :=
                        errorHeader +:+ "Transaction failed - unable to update Asset Balance for Receiver ID '"
                        +:+ receiverId +:+ "'. Details: " +:+ e +:+ nl
                        +:+ "Attempting to roll back deduction from Sender account... " in
                      let senderDetails := with_balance senderDetails senderAssetBalance in
                      let senderDetailsAsBytes := Marshal_user senderDetails in
                      do errRollback <- PutState senderId senderDetailsAsBytes ;;
                      match errRollback with
                      | None =>
                          panic (errMsg +:+ "successfully rolled back asset deduction of '"
                                 +:+ string_of_rune assetQuantity +:+ "' from Sender ID '"
                                 +:+ senderId +:+ "'.")
                      | Some e' =>
                          panic (errMsg +:+ "CRITICAL ERROR: UNABLE TO ROLL BACK ASSET DEDUCTION OF '"
                                 +:+ string_of_rune assetQuantity +:+ "' FROM SENDER ID '" +:+ senderId
                                 +:+ "'. WORLD STATE IS INCONSISTENT - TRANSACTION MUST BE MANUALLY REVERSED BY AN ADMINISTRATOR! Correct value: "
                                 +:+ Itoa senderAssetBalance +:+ nl +:+ "Error details: " +:+ e')
                      end
                  | None => ret (nilBytes, None)
                  end
                end
              end
          end
      end
      end
    end
  | _ =>
      ret (nilBytes, Some (errorHeader +:+ "Incorrect number of arguments - expecting 3 (Sender ID, Receiver ID, Asset Quantity)."))
  end.

(** Init *)
Definition Init (function : string) (args : list string) : Exec reply :=
  match args with
  | [] =>
      let emptyAsBytes := Marshal_strings [] in
      do err <- PutState varJoinedUsersIndex emptyAsBytes ;;
      match err with
      | Some e => ret (nilBytes, Some e)
      | None => ret (nilBytes, None)
      end
  | _ => ret (nilBytes, Some "Incorrect number of arguments for Init invocation - expecting none.")
  end.

Definition Invoke_errorHeader : string := "ERROR: Source: Invoke. ".

(** The body of Invoke, up to its return statements. *)
Definition Invoke_body (function : string) (args : list string) : Exec reply :=
  let errorHeader := Invoke_errorHeader in
  do '(userId, _) <- getUsernameFromEcert ;;
  do '(userDetails, errGetUserDetails) <- getUserDetails userId ;;
  match errGetUserDetails with
  | Some e => ret (nilBytes, Some (errorHeader +:+ "Details: " +:+ e))
  | None =>
      if String.eqb function "init" then Init "init" args
      else if String.eqb function "join" then join userId (Role userDetails) args
      else if String.eqb function "transfer" then transfer userId (Role userDetails) args
      else ret (nilBytes, Some (errorHeader +:+ "Invoke() called with unknown function name: " +:+ function))
  end.

(** The deferred function of Invoke.  It runs when the body returns and
    when it panics, sets [retBytes] to nil, asserts that [recover()] is a
    string and stores the error made from it in [retErr]. *)
Definition Invoke_deferred (o : outcome reply) : outcome reply :=
  match assert_string (recover o) with
  | inl fatalErrorMsg =>
      Done (nilBytes, Some (Invoke_errorHeader +:+ "Details: " +:+ fatalErrorMsg))
  | inr failed_assertion => Panic failed_assertion
  end.

(** Invoke *)
Definition Invoke (function : string) (args : list string) : Exec reply :=
  fun stub =>
    let '(o, stub') := Invoke_body function args stub in
    (Invoke_deferred o, stub').

(** Query *)
Definition Query (function : string) (args : list string) : Exec reply :=
  if String.eqb function "getassetbalance" then
    match args with
    | [id] =>
        do '(userDetails, errGetUserDetails) <- getUserDetails id ;;
        match errGetUserDetails with
        | Some e =>
            ret (nilBytes, Some ("Failed to get Asset Balance for User ID '" +:+ id
                                 +:+ "'. Details: " +:+ e))
        | None =>
            let userAssetBalanceAsString := Itoa (AssetBalance userDetails) in
            ret (userAssetBalanceAsString, None)
        end
    | _ => ret (nilBytes, Some "Incorrect number of arguments - expecting 1 (User ID).")
    end
  else if String.eqb function "getalljoinedusers" then
    let errorHeader := "ERROR: Source: Query - getalljoinedusers. " in
    do '(joinedUsersIndexAsBytes, errGetJoinedUsersIndex) <- GetState varJoinedUsersIndex ;;
    match errGetJoinedUsersIndex with
    | Some _ => panic (errorHeader +:+ "Failed to get Index of Joined Users.")
    | None =>
        match Unmarshal_strings joinedUsersIndexAsBytes with
        | None => panic (errorHeader +:+ "Failed to unmarshal Index of Joined Users.")
        | Some _ => ret (joinedUsersIndexAsBytes, None)
        end
    end
  else ret (nilBytes, Some ("Query() received unknown function: " +:+ function)).

(** One call of [join]: who makes it, with which arguments, and the faults
    the world state will report during it. *)
Record join_call : Type := mkJoinCall {
  caller : string;
  callerRole : string;
  arguments : list string;
  schedule : list (option string)
}.

(** A sequence of calls of [join], each on the state the one before left. *)
Definition run_joins (calls : list join_call) (stub : ChaincodeStub) : ChaincodeStub :=
  fold_left
    (fun stub c => snd (join (caller c) (callerRole c) (arguments c) (next_call (schedule c) stub)))
    calls stub.

(** The calls by which the identity admin lets [ids] join as standard
    users, one after the other, with no fault scheduled. *)
Definition joins_by_admin (ids : list string) : list join_call :=
  map (fun id => mkJoinCall "admin" EmptyString [id; roleUser] []) ids.

(** What the world state holds, as the contract reads it back: the
    index of joined ids, the record of a participant and its balance. *)
Definition index_of (w : gmap string string) : option (list string) :=
  Unmarshal_strings (read w varJoinedUsersIndex).

Definition record_of (w : gmap string string) (id : string) : option user :=
  Unmarshal_user (read w (varJoinedUsers +:+ id)).

Definition balance_of (w : gmap string string) (id : string) : option Z :=
  AssetBalance <$> record_of w id.


End Gated.

(** ** The role-less contract (the earlier version of the chaincode) *)

Module Simple.
Import Json.

Definition joinedUsersStr : string := "_joinedUsers".
Definition initialAssetBalance : string := "100".

(** The loop of [join] over the index. *)
Fixpoint previously_joined (joineeId : string) (joinedUsersIndex : list string) : bool :=
  match joinedUsersIndex with
  | [] => false
  | val :: rest =>
      if String.eqb val joineeId then true else previously_joined joineeId rest
  end.

(** [json.Unmarshal(data, &joinedUsersIndex)] with its error dropped: on
    an error the slice keeps its initial value, nil.  (For an array with
    an element that is not a string, which the chaincode never writes, Go
    reports an error too but leaves in the slice what it has decoded; the
    model has the empty list there.) *)
Definition Unmarshal_strings_unchecked (data : string) : list string :=
  default [] (Unmarshal_strings data).

(** join.  What follows the [return] in the branch of a failed write of
    the balance is not reachable, and is not part of the function. *)
Definition join (args : list string) : Exec reply :=
  match args with
  | [joineeId] =>
    if Index joineeId "_" =? 0 then
      ret (nilBytes, Some "User ID of new joinee must not begin with an underscore.")
    else
      do '(joinedUsersAsBytes, err) <- GetState joinedUsersStr ;;
      match err with
      | Some _ => ret (nilBytes, Some "Failed to get Index of Joined Users.")
      | None =>
        let joinedUsersIndex := Unmarshal_strings_unchecked joinedUsersAsBytes in
        if previously_joined joineeId joinedUsersIndex then
          ret (nilBytes, Some "A User has previously joined with the same User ID.")
        else
          let newJoinedUsersIndex := (joinedUsersIndex ++ [joineeId])%list in
          let newJoinedUsersIndexAsBytes := Marshal_strings newJoinedUsersIndex in
          do err <- PutState joinedUsersStr newJoinedUsersIndexAsBytes ;;
          match err with
          | Some _ => ret (nilBytes, Some "Unable to add joinee to the Index of Joined Users.")
          | None =>
            do err <- PutState joineeId initialAssetBalance ;;
            match err with
            | Some _ =>
                ret (nilBytes, Some "Unable to initialize Asset Balance entry for the joinee User ID. Rolling back addition of User...")
            | None => ret (nilBytes, None)
            end
          end
      end
  | _ => ret (nilBytes, Some "Incorrect number of arguments for 'join' function - expecting 1.")
  end.

(** The loop of [transfer] over the index: the two membership flags. *)
Definition scan_members (senderId receiverId : string) (joinedUsersIndex : list string)
  : bool * bool :=
  fold_left
    (fun '(validSenderId, validReceiverId) val =>
       (if String.eqb val senderId then true else validSenderId,
        if String.eqb val receiverId then true else validReceiverId))
    joinedUsersIndex (false, false).

(** transfer.  The id check compares the position of the underscore with
    1, as the source does.  What follows the [return] in the branch of a
    failed write of the receiver's balance is not reachable. *)
Definition transfer (args : list string) : Exec reply :=
  match args with
  | [senderId; receiverId; quantity] =>
    match Atoi quantity with
    | None => ret (nilBytes, Some "Expecting integer value for quantity of Asset to be trasferred.")
    | Some assetQuantity =>
      if (Index senderId "_" =? 1) || (Index receiverId "_" =? 1) then
        ret (nilBytes, Some "User IDs of Sender and Receiver must not begin with an underscore.")
      else if String.eqb senderId receiverId then
        ret (nilBytes, Some "Sender and Receiver must not be the same User.")
      else
        do '(joinedUsersAsBytes, err) <- GetState joinedUsersStr ;;
        match err with
        | Some _ => ret (nilBytes, Some "Failed to get Index of Joined Users.")
        | None =>
          let joinedUsersIndex := Unmarshal_strings_unchecked joinedUsersAsBytes in
          let '(validSenderId, validReceiverId) :=
            scan_members senderId receiverId joinedUsersIndex in
          if negb validSenderId then
            ret (nilBytes, Some "Sender is not a member and will have to join the network before attempting this Asset Transfer.")
          else if negb validReceiverId then
            ret (nilBytes, Some "Receiver is not a member and will have to join the network before attempting this Asset Transfer.")
          else
            do '(senderAssetBalanceAsBytes, err) <- GetState senderId ;;
            match err with
            | Some e =>
                ret (nilBytes, Some ("Failed to get Asset Balance for sender '" +:+ senderId
                                     +:+ "'. Details: " +:+ e))
            | None =>
              do '(receiverAssetBalanceAsBytes, err) <- GetState receiverId ;;
              match err with
              | Some e =>
                  ret (nilBytes, Some ("Failed to get Asset Balance for receiver '" +:+ receiverId
                                       +:+ "'. Details: " +:+ e))
              | None =>
                match Atoi senderAssetBalanceAsBytes with
                | None =>
                    ret (nilBytes, Some ("Transaction failed - failed to retrieve Asset Balance for Sender ID '"
                                         +:+ senderId +:+ "'. Error details: "
                                         +:+ Atoi_error senderAssetBalanceAsBytes))
                | Some senderAssetBalance =>
                  let newSenderAssetBalance := sub senderAssetBalance assetQuantity in
                  if newSenderAssetBalance <? 0 then
                    ret (nilBytes, Some ("Sender does not possess sufficient assets to complete the transaction. senderAssetBalance: "
                                         +:+ senderAssetBalanceAsBytes))
                  else
                    match Atoi receiverAssetBalanceAsBytes with
                    | None =>
                        ret (nilBytes, Some ("Transaction failed - failed to retrieve Asset Balance for Receiver ID '"
                                             +:+ receiverId +:+ "'. Error details: "
                                             +:+ Atoi_error receiverAssetBalanceAsBytes))
                    | Some receiverAssetBalance =>
                      let newReceiverAssetBalance := add receiverAssetBalance assetQuantity in
                      do err <- PutState senderId (Itoa newSenderAssetBalance) ;;
                      match err with
                      | Some e =>
                          ret (nilBytes, Some ("Transaction failed - unable to update Asset Balance for Sender ID '"
                                               +:+ senderId +:+ "' . Error details: " +:+ e))
                      | None =>
                        do err <- PutState receiverId (Itoa newReceiverAssetBalance) ;;
                        match err with
                        | Some e =>
                            ret (nilBytes, Some ("Transaction failed - unable to update Asset Balance for Receiver ID '"
                                                 +:+ receiverId +:+ "' . Error details: " +:+ e))
                        | None => ret (nilBytes, None)
                        end
                      end
                    end
                end
              end
            end
        end
    end
  | _ => ret (nilBytes, Some "Incorrect number of arguments for Init invocation - expecting none.")
  end.

(** Init *)
Definition Init (function : string) (args : list string) : Exec reply :=
  match args with
  | [] =>
      let emptyAsBytes := Marshal_strings [] in
      do err <- PutState joinedUsersStr emptyAsBytes ;;
      match err with
      | Some e => ret (nilBytes, Some e)
      | None => ret (nilBytes, None)
      end
  | _ => ret (nilBytes, Some "Incorrect number of arguments for Init invocation - expecting none.")
  end.

(** Invoke *)
Definition Invoke (function : string) (args : list string) : Exec reply :=
  if String.eqb function "init" then Init "init" args
  else if String.eqb function "join" then join args
  else if String.eqb function "transfer" then transfer args
  else ret (nilBytes, Some ("Invoke() called with unknown function name: " +:+ function)).

(** Query.  The branch for "summary" is empty and falls through. *)
Definition Query (function : string) (args : list string) : Exec reply :=
  if String.eqb function "getassetbalance" then
    match args with
    | [id] =>
        do '(valAsBytes, err) <- GetState id ;;
        match err with
        | Some e =>
            ret (nilBytes, Some ("Failed to get Asset Balance for User ID '" +:+ id
                                 +:+ "'. Details: " +:+ e))
        | None => ret (valAsBytes, None)
        end
    | _ => ret (nilBytes, Some "Incorrect number of arguments to Query() - expecting 1.")
    end
  else ret (nilBytes, Some ("Query() received unknown function: " +:+ function)).

(** One call of [join]: its arguments, and the faults the world state
    will report during it. *)
Record join_call : Type := mkJoinCall {
  arguments : list string;
  schedule : list (option string)
}.

(** A sequence of calls of [join], each on the state the one before left. *)
Definition run_joins (calls : list join_call) (stub : ChaincodeStub) : ChaincodeStub :=
  fold_left (fun stub c => snd (join (arguments c) (next_call (schedule c) stub))) calls stub.

(** What the world state holds, as the contract reads it back. *)
Definition index_of (w : gmap string string) : list string :=
  Unmarshal_strings_unchecked (read w joinedUsersStr).

Definition balance_of (w : gmap string string) (id : string) : option Z :=
  Atoi (read w id).

End Simple.

(** ** States and calls used as examples

    Each state below is reached from an empty world state by calls of the
    contract's own functions; [then_call] runs the next call with no fault
    scheduled, [then_call_faulty] with the given faults. *)

Module Scenario.
Import Json.

Definition then_call_faulty (stub : ChaincodeStub) (fs : list (option string))
    (call : Exec reply) : ChaincodeStub :=
  snd (call (next_call fs stub)).

Definition then_call (stub : ChaincodeStub) (call : Exec reply) : ChaincodeStub :=
  then_call_faulty stub [] call.

(** The role-gated contract: deployed, then joined by alice, bob and carol
    (each join made by the bootstrap identity). *)
Definition deployed : ChaincodeStub :=
  then_call (stub_of ∅ "admin") (Gated.Init "init" []).

Definition alice_joined : ChaincodeStub :=
  then_call deployed (Gated.join "admin" EmptyString ["alice"; "user"]).

Definition two_joined : ChaincodeStub :=
  then_call alice_joined (Gated.join "admin" EmptyString ["bob"; "user"]).

Definition three_joined : ChaincodeStub :=
  then_call two_joined (Gated.join "admin" EmptyString ["carol"; "user"]).

(** alice transfers the negative quantity -(2^63 - 101) to carol. *)
Definition carol_drained : ChaincodeStub :=
  then_call three_joined
    (Gated.transfer "alice" "user" ["alice"; "carol"; "-9223372036854775707"]).

(** The deployed contract, with the second and the third access to come
    failing. *)
Definition stub_two_faults : ChaincodeStub :=
  next_call [None; None; Some "store unavailable"; Some "store unavailable"] deployed.

(** The same states for the role-less contract. *)
Definition simple_deployed : ChaincodeStub :=
  then_call (stub_of ∅ "admin") (Simple.Init "init" []).

Definition simple_alice_joined : ChaincodeStub :=
  then_call simple_deployed (Simple.join ["alice"]).

Definition simple_two_joined : ChaincodeStub :=
  then_call simple_alice_joined (Simple.join ["bob"]).

Definition simple_three_joined : ChaincodeStub :=
  then_call simple_two_joined (Simple.join ["carol"]).

Definition simple_carol_drained : ChaincodeStub :=
  then_call simple_three_joined
    (Simple.transfer ["alice"; "carol"; "-9223372036854775707"]).

End Scenario.

(** * Properties *)

(** ** Go integers and decimal text *)

Lemma wrap_in_range (z : Z) : in_range (wrap z) = true.
Proof.
  unfold in_range, wrap, minInt, maxInt, intSize.
  pose proof (Z.mod_pos_bound (z + 2 ^ (64 - 1)) (2 ^ 64) ltac:(lia)) as Hm.
  change (2 ^ 64) with (2 * 2 ^ (64 - 1)) in *.
  apply andb_true_intro; split; [apply Z.leb_le | apply Z.leb_le]; lia.
Qed.

Lemma wrap_id (z : Z) : in_range z = true → wrap z = z.
Proof.
  unfold in_range, wrap, minInt, maxInt, intSize.
  intros [H1%Z.leb_le H2%Z.leb_le]%andb_prop.
  change (2 ^ 64) with (2 * 2 ^ (64 - 1)) in *.
  rewrite Z.mod_small; lia.
Qed.

(** [wrap] changes a value by a multiple of [2 ^ 64]. *)
Lemma wrap_congruent (z : Z) : ∃ k : Z, wrap z = z + k * 2 ^ intSize.
Proof.
  unfold wrap, intSize.
  exists (- ((z + 2 ^ (64 - 1)) / 2 ^ 64)).
  pose proof (Z.div_mod (z + 2 ^ (64 - 1)) (2 ^ 64) ltac:(lia)). lia.
Qed.

Lemma append_assoc (a b c : string) : (a +:+ b) +:+ c = a +:+ (b +:+ c).
Proof.
  induction a as [|x a IH]; [reflexivity|].
  change (String x ((a +:+ b) +:+ c) = String x (a +:+ (b +:+ c))). by rewrite IH.
Qed.

Lemma mentions_here (needle after : string) : mentions (needle +:+ after) needle.
Proof. by exists EmptyString, after. Qed.

Lemma mentions_skip (a hay needle : string) : mentions hay needle → mentions (a +:+ hay) needle.
Proof. intros (b & c & ->). exists (a +:+ b), c. by rewrite append_assoc. Qed.

Lemma mentions_two (n1 n2 after : string) : mentions (n1 +:+ n2 +:+ after) (n1 +:+ n2).
Proof. exists EmptyString, after. by rewrite append_assoc. Qed.

Lemma Itoa_not_plus (z : Z) (r : string) : Itoa z ≠ String "+" r.
Proof.
  unfold Itoa. destruct z as [|p|p]; simpl; [discriminate| |discriminate].
  destruct (Pos.to_uint p); simpl; discriminate.
Qed.

Lemma to_int_not_nil (z : Z) : Z.to_int z ≠ Decimal.Pos Decimal.Nil ∧ Z.to_int z ≠ Decimal.Neg Decimal.Nil.
Proof.
  destruct z as [|p|p]; simpl; split; try discriminate;
    intros [= H]; by apply (Unsigned.to_uint_nonnil p).
Qed.

(** [Atoi] reads back what [Itoa] wrote. *)
Lemma Atoi_Itoa (z : Z) : in_range z = true → Atoi (Itoa z) = Some z.
Proof.
  intros Hr. unfold Atoi.
  assert (NilZero.int_of_string (Itoa z) = Some (Z.to_int z)) as Hp.
  { unfold Itoa. destruct (to_int_not_nil z). by apply NilZero.isi. }
  pose proof (Itoa_not_plus z) as Hplus.
  destruct (Itoa z) as [|c r] eqn:E.
  - rewrite Hp. by rewrite DecimalZ.of_to, Hr.
  - destruct (Ascii.eqb_spec c "+") as [->|Hc].
    + by destruct (Hplus r).
    + assert (match c with
              | "+"%char => option_map Decimal.Pos (NilZero.uint_of_string r)
              | _ => NilZero.int_of_string (String c r)
              end = NilZero.int_of_string (String c r)) as ->.
      { destruct c as [[] [] [] [] [] [] [] []]; try reflexivity. by destruct Hc. }
      rewrite Hp. by rewrite DecimalZ.of_to, Hr.
Qed.

Lemma Atoi_in_range (s : string) (z : Z) : Atoi s = Some z → in_range z = true.
Proof.
  unfold Atoi. intros H.
  destruct (match s with
            | String "+"%char digits => option_map Decimal.Pos (NilZero.uint_of_string digits)
            | _ => NilZero.int_of_string s
            end) as [d|]; [|discriminate].
  destruct (in_range (Z.of_int d)) eqn:E; [|discriminate].
  by injection H as <-.
Qed.

(** ** Bytes, and the encodings of code points *)

Section Utf8Facts.
Import Utf8.

Lemma code_range (c : ascii) : 0 ≤ code c < 256.
Proof. unfold code. pose proof (N_ascii_bounded c). lia. Qed.

Lemma code_inj (c c' : ascii) : code c = code c' → c = c'.
Proof.
  unfold code. intros H%(inj Z.of_N).
  by rewrite <- (ascii_N_embedding c), <- (ascii_N_embedding c'), H.
Qed.

Lemma code_byte (z : Z) : 0 ≤ z < 256 → code (byte z) = z.
Proof. intros H. unfold code, byte. rewrite N_ascii_embedding by lia. lia. Qed.

(** A property of the strings shorter than [s] may be used for [s]. *)
Lemma string_suffix_ind (P : string → Prop) :
  (∀ s, (∀ s', (String.length s' < String.length s)%nat → P s') → P s) → ∀ s, P s.
Proof.
  intros H s. remember (String.length s) as n eqn:E. revert s E.
  induction n as [n IH] using lt_wf_ind. intros s ->. apply H.
  intros s' Hs'. by apply (IH (String.length s')).
Qed.

(** A check of the first [n] integers settles them all. *)
Lemma small_cases (P : Z → bool) (n : Z) :
  forallb P (seqZ 0 n) = true → ∀ x, 0 ≤ x < n → P x = true.
Proof.
  intros H x Hx. rewrite forallb_forall in H. apply H.
  apply list_elem_of_In, elem_of_seqZ. lia.
Qed.

Lemma lor_128 (x : Z) : 0 ≤ x < 64 → Z.lor 128 x = 128 + x.
Proof.
  intros H. apply Z.eqb_eq.
  by apply (small_cases (fun x => Z.lor 128 x =? 128 + x) 64).
Qed.

Lemma lor_192 (x : Z) : 0 ≤ x < 32 → Z.lor 192 x = 192 + x.
Proof.
  intros H. apply Z.eqb_eq.
  by apply (small_cases (fun x => Z.lor 192 x =? 192 + x) 32).
Qed.

Lemma lor_224 (x : Z) : 0 ≤ x < 16 → Z.lor 224 x = 224 + x.
Proof.
  intros H. apply Z.eqb_eq.
  by apply (small_cases (fun x => Z.lor 224 x =? 224 + x) 16).
Qed.

Lemma lor_240 (x : Z) : 0 ≤ x < 8 → Z.lor 240 x = 240 + x.
Proof.
  intros H. apply Z.eqb_eq.
  by apply (small_cases (fun x => Z.lor 240 x =? 240 + x) 8).
Qed.

Lemma shiftr_6 (r : Z) : Z.shiftr r 6 = r / 64.
Proof. by rewrite Z.shiftr_div_pow2. Qed.

Lemma shiftr_12 (r : Z) : Z.shiftr r 12 = r / 4096.
Proof. by rewrite Z.shiftr_div_pow2. Qed.

Lemma shiftr_18 (r : Z) : Z.shiftr r 18 = r / 262144.
Proof. by rewrite Z.shiftr_div_pow2. Qed.

Lemma land_63 (r : Z) : Z.land r 63 = r mod 64.
Proof. change 63 with (Z.ones 6). by rewrite Z.land_ones. Qed.

(** A byte of 128 or more is no quote, no backslash and no control
    character. *)
Lemma high_byte (c : ascii) :
  (code c <? 128) = false →
  Ascii.eqb c Json.dq = false ∧ Ascii.eqb c Json.bs = false ∧ (code c <? 32) = false.
Proof.
  intros H%Z.ltb_ge. split_and!.
  - apply Ascii.eqb_neq. intros ->. vm_compute in H. by apply H.
  - apply Ascii.eqb_neq. intros ->. vm_compute in H. by apply H.
  - apply Z.ltb_ge. lia.
Qed.

Lemma two_high (c0 c1 : ascii) : two c0 c1 = true → (code c0 <? 128) = false.
Proof. unfold two, within. intros H. apply Z.ltb_ge. lia. Qed.

Lemma three_high (c0 c1 c2 : ascii) :
  three c0 c1 c2 = true → (code c0 <? 128) = false ∧ two c0 c1 = false.
Proof.
  unfold three, two, within. intros H. split; [apply Z.ltb_ge; lia|].
  apply andb_false_intro1, andb_false_intro2, Z.leb_gt. lia.
Qed.

Lemma four_high (c0 c1 c2 c3 : ascii) :
  four c0 c1 c2 c3 = true →
  (code c0 <? 128) = false ∧ two c0 c1 = false ∧ three c0 c1 c2 = false.
Proof.
  unfold four, three, two, within. intros H. split_and!; [apply Z.ltb_ge; lia| |].
  - apply andb_false_intro1, andb_false_intro2, Z.leb_gt. lia.
  - do 2 apply andb_false_intro1. apply andb_false_intro2, Z.leb_gt. lia.
Qed.

(** A whole encoding in front of a text does not change whether the text
    is valid. *)
Lemma ValidString_one (c : ascii) (x : string) :
  (code c <? 128) = true → ValidString (String c x) = ValidString x.
Proof. intros H. cbn [ValidString]. by rewrite H. Qed.

Lemma ValidString_two (c0 c1 : ascii) (x : string) :
  two c0 c1 = true → ValidString (String c0 (String c1 x)) = ValidString x.
Proof. intros H. cbn [ValidString]. by rewrite (two_high _ _ H), H. Qed.

Lemma ValidString_three (c0 c1 c2 : ascii) (x : string) :
  three c0 c1 c2 = true → ValidString (String c0 (String c1 (String c2 x))) = ValidString x.
Proof.
  intros H. destruct (three_high _ _ _ H) as [H0 H2].
  cbn [ValidString]. by rewrite H0, H2, H.
Qed.

Lemma ValidString_four (c0 c1 c2 c3 : ascii) (x : string) :
  four c0 c1 c2 c3 = true →
  ValidString (String c0 (String c1 (String c2 (String c3 x)))) = ValidString x.
Proof.
  intros H. destruct (four_high _ _ _ _ H) as (H0 & H2 & H3).
  cbn [ValidString]. by rewrite H0, H2, H3, H.
Qed.

Lemma ValidString_replacement (x : string) :
  ValidString (replacement +:+ x) = ValidString x.
Proof. reflexivity. Qed.

(** [string(r)], the encoding Go writes for a code point, is valid for
    every [r]. *)
Lemma ValidString_rune (r : Z) (x : string) :
  ValidString (string_of_rune r +:+ x) = ValidString x.
Proof.
  unfold string_of_rune.
  destruct ((r <? 0) || (1114111 <? r) || ((55296 <=? r) && (r <=? 57343))) eqn:Hbad;
    [reflexivity|].
  apply orb_false_elim in Hbad as [[Hneg%Z.ltb_ge Hmax%Z.ltb_ge]%orb_false_elim Hsur].
  assert (r < 55296 ∨ 57343 < r) as Hsur' by (apply andb_false_iff in Hsur; lia).
  clear Hsur. unfold bytes. cbn [fold_right]. rewrite ?shiftr_6, ?shiftr_12, ?shiftr_18, ?land_63.
  destruct (r <? 128) eqn:H1; [|apply Z.ltb_ge in H1; destruct (r <? 2048) eqn:H2;
    [|apply Z.ltb_ge in H2; destruct (r <? 65536) eqn:H3; [|apply Z.ltb_ge in H3]]].
  - apply Z.ltb_lt in H1. apply ValidString_one. rewrite code_byte by lia. by apply Z.ltb_lt.
  - apply Z.ltb_lt in H2. apply ValidString_two.
    rewrite lor_192, lor_128 by (Z.div_mod_to_equations; lia).
    unfold two, cont, within. rewrite !code_byte by (Z.div_mod_to_equations; lia).
    apply andb_true_intro; split; apply andb_true_intro; split; apply Z.leb_le;
      Z.div_mod_to_equations; lia.
  - apply Z.ltb_lt in H3. apply ValidString_three.
    rewrite lor_224, !lor_128 by (Z.div_mod_to_equations; lia).
    unfold three, cont, within. rewrite !code_byte by (Z.div_mod_to_equations; lia).
    destruct (224 + r / 4096 =? 224) eqn:Ea; destruct (224 + r / 4096 =? 237) eqn:Eb;
      rewrite ?Z.eqb_eq, ?Z.eqb_neq in Ea, Eb;
      repeat (apply andb_true_intro; split); apply Z.leb_le; Z.div_mod_to_equations; lia.
  - apply ValidString_four.
    rewrite lor_240, !lor_128 by (Z.div_mod_to_equations; lia).
    unfold four, cont, within. rewrite !code_byte by (Z.div_mod_to_equations; lia).
    destruct (240 + r / 262144 =? 240) eqn:Ea; destruct (240 + r / 262144 =? 244) eqn:Eb;
      rewrite ?Z.eqb_eq, ?Z.eqb_neq in Ea, Eb;
      repeat (apply andb_true_intro; split); apply Z.leb_le; Z.div_mod_to_equations; lia.
Qed.

(** A valid text is left as it is. *)
Lemma coerce_valid (s : string) : ValidString s = true → coerce s = s.
Proof.
  induction s as [s IH] using string_suffix_ind.
  destruct s as [|c0 r0]; [done|]. cbn [ValidString coerce].
  destruct (code c0 <? 128); [intros H; rewrite IH; [done | simpl; lia | done]|].
  destruct r0 as [|c1 r1]; [done|].
  destruct (two c0 c1); [intros H; rewrite IH; [done | simpl; lia | done]|].
  destruct r1 as [|c2 r2]; [done|].
  destruct (three c0 c1 c2); [intros H; rewrite IH; [done | simpl; lia | done]|].
  destruct r2 as [|c3 r3]; [done|].
  destruct (four c0 c1 c2 c3); [intros H; rewrite IH; [done | simpl; lia | done]|done].
Qed.

(** What [coerce] returns is valid. *)
Lemma ValidString_coerce (s : string) : ValidString (coerce s) = true.
Proof.
  induction s as [s IH] using string_suffix_ind.
  destruct s as [|c0 r0]; [done|]. cbn [coerce].
  destruct (code c0 <? 128) eqn:H0; [rewrite ValidString_one by done; apply IH; simpl; lia|].
  assert (ValidString (replacement +:+ coerce r0) = true) as Hbad.
  { rewrite ValidString_replacement. apply IH. simpl. lia. }
  destruct r0 as [|c1 r1]; [done|].
  destruct (two c0 c1) eqn:H2; [rewrite ValidString_two by done; apply IH; simpl; lia|].
  destruct r1 as [|c2 r2]; [done|].
  destruct (three c0 c1 c2) eqn:H3; [rewrite ValidString_three by done; apply IH; simpl; lia|].
  destruct r2 as [|c3 r3]; [done|].
  destruct (four c0 c1 c2 c3) eqn:H4; [rewrite ValidString_four by done; apply IH; simpl; lia|].
  done.
Qed.

End Utf8Facts.

(** ** The JSON codec reads back what it wrote *)

Section JsonFacts.
Import Utf8 Json.

Lemma append_nil_r (s : string) : s +:+ EmptyString = s.
Proof.
  induction s as [|c s IH]; [done|].
  change (String c (s +:+ EmptyString) = String c s). by rewrite IH.
Qed.

Lemma push_nil (res : option reading) : push EmptyString res = res.
Proof. by destruct res as [[[x l] rest]|]. Qed.

Lemma push_push (a b : string) (res : option reading) :
  push a (push b res) = push (a +:+ b) res.
Proof. destruct res as [[[x l] rest]|]; [|done]. cbn [push]. by rewrite append_assoc. Qed.

Lemma push_inv (chunk : string) (res : option reading) x l rest :
  push chunk res = Some (x, l, rest) →
  ∃ x', res = Some (x', l, rest) ∧ x = chunk +:+ x'.
Proof. destruct res as [[[x' l'] rest']|]; [|done]. intros [= <- <- <-]. by exists x'. Qed.

Lemma shift_inv (res : option reading) x l rest :
  shift res = Some (x, l, rest) →
  ∃ x' l', res = Some (x', l', rest) ∧ x = EmptyString ∧ l = x' :: l'.
Proof. destruct res as [[[x' l'] rest']|]; [|done]. intros [= <- <- <-]. by exists x', l'. Qed.

(** The decoder on a byte of 128 or more. *)
Lemma lits_high (array : bool) (c0 : ascii) (r0 : string) :
  (code c0 <? 128) = false →
  lits array (String c0 r0) =
  match r0 with
  | String c1 r1 =>
    if two c0 c1 then push (String c0 (String c1 EmptyString)) (lits array r1)
    else
      match r1 with
      | String c2 r2 =>
        if three c0 c1 c2 then
          push (String c0 (String c1 (String c2 EmptyString))) (lits array r2)
        else
          match r2 with
          | String c3 r3 =>
            if four c0 c1 c2 c3 then
              push (String c0 (String c1 (String c2 (String c3 EmptyString))))
                (lits array r3)
            else push replacement (lits array r0)
          | EmptyString => push replacement (lits array r0)
          end
      | EmptyString => push replacement (lits array r0)
      end
  | EmptyString => push replacement (lits array r0)
  end.
Proof.
  intros H. destruct (high_byte c0 H) as (Hq & Hb & Hc).
  cbn [lits]. by rewrite Hq, Hb, Hc, H.
Qed.

(** The decoder reads back what the encoder wrote for a byte below
    128. *)
Lemma lits_ascii (array : bool) (c : ascii) (t : string) :
  (code c <? 128) = true →
  lits array (escape_ascii c +:+ t) = push (String c EmptyString) (lits array t).
Proof.
  destruct c as [[] [] [] [] [] [] [] []]; intros H; try reflexivity; by vm_compute in H.
Qed.

Lemma lits_ufffd (array : bool) (t : string) :
  lits array (ufffd +:+ t) = push replacement (lits array t).
Proof. reflexivity. Qed.

Lemma separator_bytes (c0 c1 c2 : ascii) :
  separator c0 c1 c2 = true →
  c0 = "226"%char ∧ c1 = "128"%char ∧ (c2 = "168"%char ∨ c2 = "169"%char).
Proof.
  unfold separator. intros [[H0%Z.eqb_eq H1%Z.eqb_eq]%andb_prop H2%orb_prop]%andb_prop.
  split_and!; [by apply code_inj | by apply code_inj |].
  destruct H2 as [H2%Z.eqb_eq|H2%Z.eqb_eq]; [left | right]; by apply code_inj.
Qed.

(** The decoder reads back what the encoder wrote, with every byte that
    begins no valid encoding replaced by U+FFFD. *)
Lemma lits_escape (array : bool) (s t : string) :
  lits array (escape s +:+ t) = push (coerce s) (lits array t).
Proof.
  revert t. induction s as [s IH] using string_suffix_ind. intros t.
  destruct s as [|c0 r0]; [by rewrite push_nil|].
  assert (∀ r, (String.length r ≤ String.length r0)%nat →
    lits array ((ufffd +:+ escape r) +:+ t) = push (replacement +:+ coerce r) (lits array t))
    as Hbad.
  { intros r Hr. rewrite append_assoc, lits_ufffd, IH by (simpl; lia). apply push_push. }
  cbn [escape coerce]. destruct (code c0 <? 128) eqn:H0.
  { rewrite append_assoc, lits_ascii, IH by (done || simpl; lia). apply push_push. }
  destruct r0 as [|c1 r1]; [by apply Hbad|].
  destruct (two c0 c1) eqn:H2.
  { change (lits array (String c0 (String c1 (escape r1 +:+ t))) =
            push (String c0 (String c1 (coerce r1))) (lits array t)).
    rewrite lits_high by done. cbv match. rewrite H2, IH by (simpl; lia). apply push_push. }
  destruct r1 as [|c2 r2]; [by apply Hbad|].
  destruct (three c0 c1 c2) eqn:H3.
  { destruct (separator c0 c1 c2) eqn:Hsep.
    - apply separator_bytes in Hsep as (-> & -> & [-> | ->]).
      + change (lits array (String "\" (String "u" (String "2" (String "0" (String "2"
                  (String "8" (escape r2 +:+ t)))))))
                = push (String "226" (String "128" (String "168" (coerce r2)))) (lits array t)).
        change (push (string_of_rune 8232) (lits array (escape r2 +:+ t)) =
                push (String "226" (String "128" (String "168" (coerce r2)))) (lits array t)).
        rewrite IH by (simpl; lia). apply push_push.
      + change (push (string_of_rune 8233) (lits array (escape r2 +:+ t)) =
                push (String "226" (String "128" (String "169" (coerce r2)))) (lits array t)).
        rewrite IH by (simpl; lia). apply push_push.
    - change (lits array (String c0 (String c1 (String c2 (escape r2 +:+ t)))) =
              push (String c0 (String c1 (String c2 (coerce r2)))) (lits array t)).
      rewrite lits_high by done. cbv match. rewrite H2, H3, IH by (simpl; lia). apply push_push. }
  destruct r2 as [|c3 r3]; [by apply Hbad|].
  destruct (four c0 c1 c2 c3) eqn:H4; [|by apply Hbad].
  change (lits array (String c0 (String c1 (String c2 (String c3 (escape r3 +:+ t))))) =
          push (String c0 (String c1 (String c2 (String c3 (coerce r3))))) (lits array t)).
  rewrite lits_high by done. cbv match. rewrite H2, H3, H4, IH by (simpl; lia). apply push_push.
Qed.

(** Every text the decoder returns is valid UTF-8. *)
Lemma lits_valid (array : bool) (s : string) x l rest :
  lits array s = Some (x, l, rest) →
  ValidString x = true ∧ Forall (fun y => ValidString y = true) l.
Proof.
  revert x l rest. induction s as [s IH] using string_suffix_ind. intros x l rest.
  assert (∀ chunk r,
    (String.length r < String.length s)%nat →
    (∀ y, ValidString (chunk +:+ y) = ValidString y) →
    push chunk (lits array r) = Some (x, l, rest) →
    ValidString x = true ∧ Forall (fun y => ValidString y = true) l) as Hpush.
  { intros chunk r Hr Hchunk (x' & E & ->)%push_inv.
    rewrite Hchunk. by apply (IH r Hr x' l rest). }
  destruct s as [|c0 r0]; [done|].
  destruct (code c0 <? 128) eqn:H0.
  - cbn [lits]. rewrite H0.
    destruct (Ascii.eqb c0 dq).
    { destruct array; [|by intros [= <- <- <-]].
      destruct r0 as [|c [|q r]]; try by intros [= <- <- <-].
      destruct (Ascii.eqb c "," && Ascii.eqb q dq); [|by intros [= <- <- <-]].
      intros (x' & l' & E & -> & ->)%shift_inv.
      apply (IH r) in E as [? ?]; [|simpl; lia]. split; [done|by constructor]. }
    destruct (Ascii.eqb c0 bs).
    { destruct r0 as [|e r1]; [done|].
      destruct (Ascii.eqb e "u").
      - destruct r1 as [|h1 [|h2 [|h3 [|h4 r5]]]]; try done.
        destruct (getu4 h1 h2 h3 h4) as [rr|]; [|done].
        assert (push replacement (lits array r5) = Some (x, l, rest) →
                ValidString x = true ∧ Forall (fun y => ValidString y = true) l) as Hrep.
        { apply Hpush; [simpl; lia | apply ValidString_replacement]. }
        destruct (IsSurrogate rr);
          [|apply Hpush; [simpl; lia | apply ValidString_rune]].
        destruct r5 as [|b [|u [|k1 [|k2 [|k3 [|k4 r11]]]]]]; try exact Hrep.
        destruct (if Ascii.eqb b bs && Ascii.eqb u "u" then getu4 k1 k2 k3 k4 else None)
          as [rr1|]; [|exact Hrep].
        destruct (DecodeRune16 rr rr1 =? RuneError); [exact Hrep|].
        apply Hpush; [simpl; lia | apply ValidString_rune].
      - destruct (unescape e) as [c|] eqn:Ee; [|done].
        apply Hpush; [simpl; lia|]. intros y. apply ValidString_one.
        unfold unescape in Ee.
        destruct (Ascii.eqb_spec e dq) as [->|_]; [by injection Ee as <-|].
        destruct (Ascii.eqb_spec e bs) as [->|_]; [by injection Ee as <-|].
        destruct (Ascii.eqb_spec e "/") as [->|_]; [by injection Ee as <-|].
        cbn [orb] in Ee.
        repeat match type of Ee with
               | (if ?b then _ else _) = _ => destruct b; [by injection Ee as <-|]
               end.
        done. }
    destruct (code c0 <? 32); [done|].
    apply Hpush; [simpl; lia|]. intros y. by apply ValidString_one.
  - rewrite lits_high by done.
    assert (push replacement (lits array r0) = Some (x, l, rest) →
            ValidString x = true ∧ Forall (fun y => ValidString y = true) l) as Hrep.
    { apply Hpush; [simpl; lia | apply ValidString_replacement]. }
    destruct r0 as [|c1 r1]; [exact Hrep|]. cbv match.
    destruct (two c0 c1) eqn:H2.
    { apply Hpush; [simpl; lia|]. intros y. by apply ValidString_two. }
    destruct r1 as [|c2 r2]; [exact Hrep|]. cbv match.
    destruct (three c0 c1 c2) eqn:H3.
    { apply Hpush; [simpl; lia|]. intros y. by apply ValidString_three. }
    destruct r2 as [|c3 r3]; [exact Hrep|]. cbv match.
    destruct (four c0 c1 c2 c3) eqn:H4; [|exact Hrep].
    apply Hpush; [simpl; lia|]. intros y. by apply ValidString_four.
Qed.

Lemma read_lit_lit (s rest : string) :
  read_lit (escape s +:+ String dq rest) = Some (coerce s, rest).
Proof.
  unfold read_lit. rewrite lits_escape. cbn [lits]. fold dq.
  change (Ascii.eqb dq dq) with true. cbn [push]. by rewrite append_nil_r.
Qed.

Lemma read_lit_valid (s x rest : string) :
  read_lit s = Some (x, rest) → ValidString x = true.
Proof.
  unfold read_lit. destruct (lits false s) as [[[x' l] rest']|] eqn:E; [|done].
  intros [= <- <-]. by apply lits_valid in E as [? _].
Qed.

(** The decoder of a slice reads back what the encoder wrote for it. *)
Lemma lits_elements (x : string) (r : list string) :
  lits true (escape x +:+ String dq (fold_right (fun y acc => String "," (lit y acc)) "]" r)) =
  Some (coerce x, map coerce r, "]").
Proof.
  revert x. induction r as [|y r IH]; intros x; rewrite lits_escape.
  - cbn. by rewrite append_nil_r.
  - cbn [fold_right]. unfold lit at 1.
    change (lits true (String dq (String "," (String dq ?t)))) with (shift (lits true t)).
    rewrite IH. cbn. by rewrite append_nil_r.
Qed.

Lemma Unmarshal_Marshal_strings (l : list string) :
  Unmarshal_strings (Marshal_strings l) = Some (map coerce l).
Proof.
  destruct l as [|x r]; [reflexivity|].
  unfold Marshal_strings, lit, Unmarshal_strings.
  change (String.eqb (String "[" ?t) "null") with false. cbv iota.
  change (Ascii.eqb dq dq) with true. cbv iota.
  by rewrite lits_elements.
Qed.

(** Every id a decoded slice holds is valid UTF-8. *)
Lemma Unmarshal_strings_valid (data : string) (l : list string) :
  Unmarshal_strings data = Some l → Forall (fun y => ValidString y = true) l.
Proof.
  unfold Unmarshal_strings. destruct (String.eqb data "null"); [by intros [= <-]|].
  destruct data as [|c0 r0]; [done|].
  destruct (Ascii.eqb_spec c0 "[") as [->|Hc0]; [|by destruct c0 as [[] [] [] [] [] [] [] []]].
  destruct r0 as [|c1 r]; [done|].
  assert ((r = EmptyString ∧ c1 = "]"%char ∧ l = [])
          ∨ (Ascii.eqb c1 dq = true ∧
             match lits true r with
             | Some (x, l', rest) => if String.eqb rest "]" then Some (x :: l') else None
             | None => None
             end = Some l) → Forall (fun y => ValidString y = true) l) as Hcases.
  { intros [(_ & _ & ->) | [_ H]]; [done|].
    destruct (lits true r) as [[[x l'] rest]|] eqn:E; [|done].
    destruct (String.eqb rest "]"); [|done]. injection H as <-.
    apply lits_valid in E as [? ?]. by constructor. }
  intros H. apply Hcases. clear Hcases.
  destruct (Ascii.eqb_spec c1 "]") as [->|Hc1].
  - destruct r; [left; split_and!; [done|done|by injection H as <-]|].
    right. by vm_compute in H.
  - right. destruct (Ascii.eqb c1 dq) eqn:Eq.
    + split; [done|]. apply Ascii.eqb_eq in Eq as ->. exact H.
    + exfalso. destruct c1 as [[] [] [] [] [] [] [] []]; try discriminate H.
      all: try by destruct Hc1. all: by cbn in Eq.
Qed.

Lemma map_coerce_valid (l : list string) :
  Forall (fun y => ValidString y = true) l → map coerce l = l.
Proof.
  induction 1 as [|y l Hy _ IH]; [done|]. cbn [map]. by rewrite coerce_valid, IH.
Qed.

Lemma split_last_snoc (s : string) (c : ascii) :
  split_last (s +:+ String c EmptyString) = Some (s, c).
Proof.
  induction s as [|a s IH]; [reflexivity|].
  simpl. rewrite IH. by destruct s.
Qed.

Lemma int_of_number_Itoa (z : Z) : in_range z = true → int_of_number (Itoa z) = Some z.
Proof.
  intros Hr. unfold int_of_number. by rewrite (Atoi_Itoa z Hr), String.eqb_refl.
Qed.

Lemma int_of_number_in_range (s : string) (z : Z) :
  int_of_number s = Some z → in_range z = true.
Proof.
  unfold int_of_number. destruct (Atoi s) as [z'|] eqn:E; [|discriminate].
  destruct (_ || _); [|discriminate]. intros [= <-]. by eapply Atoi_in_range.
Qed.

End JsonFacts.

(** ** Running the accesses of the shim *)

Section ShimFacts.

Lemma next_fault_at (stub : ChaincodeStub) : next_fault stub = fault_at 0 stub.
Proof. unfold next_fault, fault_at. by destruct (faults stub). Qed.

Lemma fault_at_advance n stub w ev : fault_at n (advance stub w ev) = fault_at (S n) stub.
Proof. unfold fault_at, advance. simpl. by destruct (faults stub). Qed.

Lemma world_advance stub w ev : world (advance stub w ev) = w.
Proof. reflexivity. Qed.

Lemma trace_advance stub w ev : trace (advance stub w ev) = (trace stub ++ [ev])%list.
Proof. reflexivity. Qed.

Lemma run_bind {A B} (m : Exec A) (k : A → Exec B) stub :
  bind m k stub =
  match m stub with
  | (Done a, stub') => k a stub'
  | (Panic p, stub') => (Panic p, stub')
  end.
Proof. reflexivity. Qed.

Lemma GetState_ok key stub :
  fault_at 0 stub = None →
  GetState key stub =
  (Done (read (world stub) key, None),
   advance stub (world stub) (EvGetState key true)).
Proof. intros H. unfold GetState. by rewrite next_fault_at, H. Qed.

Lemma GetState_fault key stub e :
  fault_at 0 stub = Some e →
  GetState key stub =
  (Done (EmptyString, Some e), advance stub (world stub) (EvGetState key false)).
Proof. intros H. unfold GetState. by rewrite next_fault_at, H. Qed.

Lemma PutState_ok key value stub :
  fault_at 0 stub = None →
  PutState key value stub =
  (Done None, advance stub (<[key := value]> (world stub)) (EvPutState key value true)).
Proof. intros H. unfold PutState. by rewrite next_fault_at, H. Qed.

Lemma PutState_fault key value stub e :
  fault_at 0 stub = Some e →
  PutState key value stub =
  (Done (Some e), advance stub (world stub) (EvPutState key value false)).
Proof. intros H. unfold PutState. by rewrite next_fault_at, H. Qed.

Lemma DelState_ok key stub :
  fault_at 0 stub = None →
  DelState key stub =
  (Done None, advance stub (delete key (world stub)) (EvDelState key true)).
Proof. intros H. unfold DelState. by rewrite next_fault_at, H. Qed.

Lemma DelState_fault key stub e :
  fault_at 0 stub = Some e →
  DelState key stub =
  (Done (Some e), advance stub (world stub) (EvDelState key false)).
Proof. intros H. unfold DelState. by rewrite next_fault_at, H. Qed.

(** Reading never changes the world state. *)
Lemma GetState_world key stub : world (snd (GetState key stub)) = world stub.
Proof. unfold GetState. by destruct (next_fault stub). Qed.

End ShimFacts.

(** Runs the access at the head of a computation, by the fault scheduled
    for it. *)
Ltac fault_known := rewrite ?fault_at_advance; eassumption.
Ltac run_access :=
  rewrite run_bind;
  first [ rewrite GetState_ok by fault_known
        | erewrite GetState_fault by fault_known
        | rewrite PutState_ok by fault_known
        | erewrite PutState_fault by fault_known
        | rewrite DelState_ok by fault_known
        | erewrite DelState_fault by fault_known ];
  cbv beta iota.

(** Inversion of a computation that returned. *)
Lemma bind_inv {A B} (m : Exec A) (k : A → Exec B) stub b stub' :
  bind m k stub = (Done b, stub') →
  ∃ a stub1, m stub = (Done a, stub1) ∧ k a stub1 = (Done b, stub').
Proof.
  unfold bind. destruct (m stub) as [[a|p] stub1]; [|discriminate].
  intros H. by exists a, stub1.
Qed.

Lemma GetState_inv key stub bytes stub1 :
  GetState key stub = (Done (bytes, None), stub1) →
  fault_at 0 stub = None ∧ bytes = read (world stub) key
  ∧ stub1 = advance stub (world stub) (EvGetState key true).
Proof.
  unfold GetState. rewrite next_fault_at. destruct (fault_at 0 stub); [discriminate|].
  intros [= <- <-]. done.
Qed.

Lemma PutState_inv key value stub stub1 :
  PutState key value stub = (Done None, stub1) →
  fault_at 0 stub = None
  ∧ stub1 = advance stub (<[key := value]> (world stub)) (EvPutState key value true).
Proof.
  unfold PutState. rewrite next_fault_at. destruct (fault_at 0 stub); [discriminate|].
  intros [= <-]. done.
Qed.

Ltac inv_exec H :=
  repeat first
    [ discriminate H
    | match type of H with
      | bind _ _ _ = _ => apply bind_inv in H as (? & ? & ? & H)
      | panic _ _ = _ => unfold panic in H
      | ret _ _ = _ => unfold ret in H
      | (match ?x with _ => _ end) _ = _ => destruct x eqn:?
      | match ?x with _ => _ end = _ => destruct x eqn:?
      end ].

(** ** The record codec and the keys of the role-gated contract *)

Section GatedCodec.
Import Utf8 Json Gated.

(** A record is read back as it was written, its id and its role with
    every byte that begins no valid encoding replaced by U+FFFD. *)
Lemma Unmarshal_Marshal_user (u : user) :
  in_range (AssetBalance u) = true →
  Unmarshal_user (Marshal_user u) =
  Some (mkUser (coerce (Id u)) (coerce (Role u)) (AssetBalance u)).
Proof.
  intros Hr. destruct u as [id role bal]. unfold Unmarshal_user, Marshal_user.
  cbn [Id Role AssetBalance] in *.
  change (expect _ (String "{" (lit "id" (String ":" (lit id ?t)))))
    with (Some (escape id +:+ String dq t)).
  cbn [mbind option_bind]. rewrite read_lit_lit. cbn [mbind option_bind].
  change (expect _ (String "," (lit "role" (String ":" (lit role ?t)))))
    with (Some (escape role +:+ String dq t)).
  cbn [mbind option_bind]. rewrite read_lit_lit. cbn [mbind option_bind].
  change (expect _ (String "," (lit "assetBalance" (String ":" ?t)))) with (Some t).
  cbn [mbind option_bind]. rewrite split_last_snoc. cbn [mbind option_bind].
  change (Ascii.eqb "}" "}") with true. cbv iota.
  by rewrite (int_of_number_Itoa bal Hr).
Qed.

Lemma Unmarshal_user_in_range (data : string) (u : user) :
  Unmarshal_user data = Some u → in_range (AssetBalance u) = true.
Proof.
  unfold Unmarshal_user. intros H.
  repeat match type of H with
  | mbind _ ?m = _ =>
      destruct m as [?|] eqn:?; cbn [mbind option_bind] in H; [|discriminate]
  | match ?p with (_, _) => _ end = _ => destruct p
  end.
  destruct (Ascii.eqb _ _); [|discriminate].
  destruct (int_of_number _) as [b|] eqn:E; [|discriminate].
  cbn [mbind option_bind] in H. injection H as <-. by eapply int_of_number_in_range.
Qed.

(** The id and the role of a decoded record are valid UTF-8, so the
    record is read back exactly when it is written again, whatever the
    balance it is given. *)
Lemma Unmarshal_user_valid (data : string) (u : user) :
  Unmarshal_user data = Some u → ValidString (Id u) = true ∧ ValidString (Role u) = true.
Proof.
  unfold Unmarshal_user. intros H.
  destruct (expect _ data) as [r1|]; cbn [mbind option_bind] in H; [|discriminate].
  destruct (read_lit r1) as [[id r2]|] eqn:Eid; cbn [mbind option_bind] in H; [|discriminate].
  destruct (expect _ r2) as [r3|]; cbn [mbind option_bind] in H; [|discriminate].
  destruct (read_lit r3) as [[role r4]|] eqn:Erole; cbn [mbind option_bind] in H;
    [|discriminate].
  destruct (expect _ r4) as [r5|]; cbn [mbind option_bind] in H; [|discriminate].
  destruct (split_last r5) as [[number close]|]; cbn [mbind option_bind] in H; [|discriminate].
  destruct (Ascii.eqb _ _); [|discriminate].
  destruct (int_of_number _) as [b|]; [|discriminate].
  cbn [mbind option_bind] in H. injection H as <-. cbn [Id Role].
  split; by eapply read_lit_valid.
Qed.

Lemma Unmarshal_Marshal_decoded (data : string) (u : user) (b : Z) :
  Unmarshal_user data = Some u → in_range b = true →
  Unmarshal_user (Marshal_user (with_balance u b)) = Some (with_balance u b).
Proof.
  intros [Hid Hrole]%Unmarshal_user_valid Hb.
  rewrite Unmarshal_Marshal_user by done. unfold with_balance. cbn [Id Role AssetBalance].
  by rewrite !coerce_valid.
Qed.

Lemma Unmarshal_user_empty : Unmarshal_user EmptyString = None.
Proof. reflexivity. Qed.

Lemma participant_key_inj (a b : string) :
  varJoinedUsers +:+ a = varJoinedUsers +:+ b → a = b.
Proof. unfold varJoinedUsers. intros H. by simplify_eq. Qed.

Lemma participant_key_not_index (a : string) : varJoinedUsers +:+ a ≠ varJoinedUsersIndex.
Proof. unfold varJoinedUsers, varJoinedUsersIndex. intros H. by simplify_eq. Qed.

End GatedCodec.

(** ** Admission *)

Section GatedJoin.
Import Json Gated Scenario.

Lemma previously_joined_elem (id : string) (l : list string) :
  previously_joined id l = true ↔ id ∈ l.
Proof.
  induction l as [|x l IH]; simpl.
  - split; [discriminate | by intros ?%elem_of_nil].
  - destruct (String.eqb_spec x id) as [->|Hne].
    + split; [intros _; apply list_elem_of_here | done].
    + rewrite IH. split; [apply list_elem_of_further|].
      intros [?|?]%elem_of_cons; [congruence | done].
Qed.

(** C4 (as amended).  In the role-gated contract, a join that passes every
    precondition reads the index, then writes the record of the joinee
    (balance 100 and the given role), and only then writes the index with
    the joinee appended.  When the write of the record fails nothing else
    is attempted.  When the write of the index fails, one delete of the
    record is attempted and nothing after it; when that delete fails too,
    the record stays behind and the panic names its key.  In the role-less
    contract, a join that passes every precondition and meets no fault
    writes the index with the joinee appended first and the balance 100 of
    the joinee second. *)
Theorem join_writes_record_then_index :
  (∀ (stub : ChaincodeStub) (userId userRole joineeId joineeRole : string)
     (joinedUsersIndex : list string),
     userId = "admin" ∨ userRole = roleAdmin →
     Index joineeId "_" ≠ 0 →
     joineeRole = roleAdmin ∨ joineeRole = roleUser →
     fault_at 0 stub = None →
     index_of (world stub) = Some joinedUsersIndex →
     joineeId ∉ joinedUsersIndex →
     let joineeKey := varJoinedUsers +:+ joineeId in
     let record := Marshal_user (mkUser joineeId joineeRole 100) in
     let index := Marshal_strings (joinedUsersIndex ++ [joineeId])%list in
     let '(o, stub') := join userId userRole [joineeId; joineeRole] stub in
     match fault_at 1 stub, fault_at 2 stub, fault_at 3 stub with
     | Some _, _, _ =>
         trace stub' =
           (trace stub ++ [EvGetState varJoinedUsersIndex true;
                           EvPutState joineeKey record false])%list
         ∧ world stub' = world stub
         ∧ succeeded o = false
     | None, None, _ =>
         trace stub' =
           (trace stub ++ [EvGetState varJoinedUsersIndex true;
                           EvPutState joineeKey record true;
                           EvPutState varJoinedUsersIndex index true])%list
         ∧ world stub' = <[varJoinedUsersIndex := index]> (<[joineeKey := record]> (world stub))
         ∧ o = Done (nilBytes, None)
     | None, Some _, None =>
         trace stub' =
           (trace stub ++ [EvGetState varJoinedUsersIndex true;
                           EvPutState joineeKey record true;
                           EvPutState varJoinedUsersIndex index false;
                           EvDelState joineeKey true])%list
         ∧ world stub' = delete joineeKey (<[joineeKey := record]> (world stub))
         ∧ succeeded o = false
     | None, Some _, Some _ =>
         trace stub' =
           (trace stub ++ [EvGetState varJoinedUsersIndex true;
                           EvPutState joineeKey record true;
                           EvPutState varJoinedUsersIndex index false;
                           EvDelState joineeKey false])%list
         ∧ world stub' = <[joineeKey := record]> (world stub)
         ∧ ∃ msg : string,
             o = Panic (PString msg)
             ∧ mentions msg
                 ("'. A SYSTEM ADMINISTRATOR SHOULD IDEALLY PERFORM MANUALLY ROLLBACK BY DELETING STATE FOR THE FOLLOWING KEY FROM WORLD STATE: "
                  +:+ joineeKey)
     end)
  ∧ (∀ (stub : ChaincodeStub) (joineeId : string),
       Index joineeId "_" ≠ 0 →
       joineeId ∉ Simple.index_of (world stub) →
       fault_at 0 stub = None → fault_at 1 stub = None → fault_at 2 stub = None →
       let index := Marshal_strings (Simple.index_of (world stub) ++ [joineeId])%list in
       let '(o, stub') := Simple.join [joineeId] stub in
       trace stub' =
         (trace stub ++ [EvGetState Simple.joinedUsersStr true;
                         EvPutState Simple.joinedUsersStr index true;
                         EvPutState joineeId "100" true])%list
       ∧ world stub' = <[joineeId := "100"]> (<[Simple.joinedUsersStr := index]> (world stub))
       ∧ o = Done (nilBytes, None)).
Proof.
  split.
  - intros stub userId userRole joineeId joineeRole joinedUsersIndex.
    intros Hauth Hid Hrole Hf0 Hidx Hfresh joineeKey record index.
    unfold join.
    assert (negb (String.eqb userId "admin") && negb (String.eqb userRole roleAdmin) = false) as ->.
    { destruct Hauth as [-> | ->]; [done|]. by rewrite andb_comm. }
    assert ((Index joineeId "_" =? 0) = false) as -> by by apply Z.eqb_neq.
    assert (negb (String.eqb joineeRole roleAdmin) && negb (String.eqb joineeRole roleUser) = false) as ->.
    { by destruct Hrole as [-> | ->]. }
    rewrite run_bind, (GetState_ok _ _ Hf0).
    unfold index_of in Hidx. rewrite Hidx.
    assert (previously_joined joineeId joinedUsersIndex = false) as ->.
    { apply not_true_is_false. by rewrite previously_joined_elem. }
    destruct (fault_at 1 stub) as [e1|] eqn:Hf1.
    { run_access. unfold panic. by rewrite !trace_advance, <- !app_assoc. }
    run_access.
    destruct (fault_at 2 stub) as [e2|] eqn:Hf2; [|run_access; unfold ret;
      by rewrite !trace_advance, <- !app_assoc].
    run_access.
    destruct (fault_at 3 stub) as [e3|] eqn:Hf3; run_access; unfold panic;
      rewrite !trace_advance, <- !app_assoc; (split; [done|split; [done|]]); [|done].
    eexists; split; [reflexivity|].
    do 3 apply mentions_skip. apply mentions_two.
  - intros stub joineeId.
    intros Hid Hfresh Hf0 Hf1 Hf2 index. unfold Simple.join.
    assert ((Index joineeId "_" =? 0) = false) as -> by by apply Z.eqb_neq.
    run_access. fold (Simple.index_of (world stub)).
    assert (Simple.previously_joined joineeId (Simple.index_of (world stub)) = false) as ->.
    { apply not_true_is_false. intros H. apply Hfresh. clear -H.
      induction (Simple.index_of (world stub)) as [|x l IH]; [discriminate|].
      simpl in H. destruct (String.eqb_spec x joineeId) as [->|];
        [apply list_elem_of_here | by apply list_elem_of_further, IH]. }
    run_access. run_access. unfold ret.
    by rewrite !trace_advance, <- !app_assoc.
Qed.

Lemma join_writes_record_then_index_witness :
  (let '(o, stub') := join "admin" EmptyString ["alice"; "user"] stub_two_faults in
   writes (trace stub') =
     [EvPutState "_joinedUsers_alice" (Marshal_user (mkUser "alice" "user" 100)) true;
      EvPutState "_joinedUsersIndex" (Marshal_strings ["alice"]) false;
      EvDelState "_joinedUsers_alice" false]
   ∧ record_of (world stub') "alice" = Some (mkUser "alice" "user" 100)
   ∧ ∃ msg : string,
       o = Panic (PString msg)
       ∧ mentions msg
           ("'. A SYSTEM ADMINISTRATOR SHOULD IDEALLY PERFORM MANUALLY ROLLBACK BY DELETING STATE FOR THE FOLLOWING KEY FROM WORLD STATE: "
            +:+ "_joinedUsers_alice"))
  ∧ (let '(o, stub') := Simple.join ["alice"] (next_call [] simple_deployed) in
     writes (trace stub') =
       [EvPutState "_joinedUsers" (Marshal_strings ["alice"]) true;
        EvPutState "alice" "100" true]
     ∧ o = Done (nilBytes, None)).
Proof.
  split.
  - pose proof (proj1 join_writes_record_then_index stub_two_faults "admin" EmptyString
                  "alice" "user" []) as H.
    destruct (join "admin" EmptyString ["alice"; "user"] stub_two_faults) as [o stub'].
    destruct H as (Htrace & Hworld & Hpanic).
    + by left.
    + by vm_compute.
    + by right.
    + reflexivity.
    + reflexivity.
    + apply not_elem_of_nil.
    + split; [by rewrite Htrace|]. split; [by rewrite Hworld|]. exact Hpanic.
  - pose proof (proj2 join_writes_record_then_index (next_call [] simple_deployed) "alice") as H.
    destruct (Simple.join ["alice"] (next_call [] simple_deployed)) as [o stub'].
    destruct H as (Htrace & _ & Ho).
    + by vm_compute.
    + apply not_elem_of_nil.
    + reflexivity.
    + reflexivity.
    + reflexivity.
    + split; [by rewrite Htrace | exact Ho].
Defined.

End GatedJoin.

(** ** Transfer *)

Section GatedTransfer.
Import Json Gated.

Lemma scan_members_elem (senderId receiverId : string) (l : list string) :
  scan_members senderId receiverId l =
  (bool_decide (senderId ∈ l), bool_decide (receiverId ∈ l)).
Proof.
  unfold scan_members.
  assert (∀ a b, fold_left
      (fun '(validSenderId, validReceiverId) val =>
         (if String.eqb val senderId then true else validSenderId,
          if String.eqb val receiverId then true else validReceiverId))
      l (a, b) = (a || bool_decide (senderId ∈ l), b || bool_decide (receiverId ∈ l))) as H.
  { induction l as [|x l IH]; intros a b; simpl.
    - by rewrite !orb_false_r.
    - rewrite IH. f_equal.
      + destruct (String.eqb_spec x senderId) as [->|Hne].
        * rewrite (bool_decide_eq_true_2 (senderId ∈ senderId :: l)) by apply list_elem_of_here.
          by rewrite !orb_true_r.
        * destruct a; [done|]. simpl. apply bool_decide_ext.
          rewrite elem_of_cons. split; [by right | by intros [?|?]].
      + destruct (String.eqb_spec x receiverId) as [->|Hne].
        * rewrite (bool_decide_eq_true_2 (receiverId ∈ receiverId :: l)) by apply list_elem_of_here.
          by rewrite !orb_true_r.
        * destruct b; [done|]. simpl. apply bool_decide_ext.
          rewrite elem_of_cons. split; [by right | by intros [?|?]]. }
  by rewrite H.
Qed.

Lemma getUserDetails_inv (id : string) (stub stub1 : ChaincodeStub) (u : user) :
  getUserDetails id stub = (Done (u, None), stub1) →
  fault_at 0 stub = None ∧ record_of (world stub) id = Some u
  ∧ stub1 = advance stub (world stub) (EvGetState (varJoinedUsers +:+ id) true).
Proof.
  intros H. unfold getUserDetails in H. inv_exec H.
  match goal with E : GetState _ _ = _ |- _ => apply GetState_inv in E as (? & -> & ->) end.
  injection H as <- <-. by unfold record_of.
Qed.

Lemma transfer_success_inv (stub stub' : ChaincodeStub) (userId userRole : string)
    (args : list string) (payload : string) :
  transfer userId userRole args stub = (Done (payload, None), stub') →
  ∃ (receiverId quantity : string) (q : Z) (idx : list string) (s r : user),
    args = [userId; receiverId; quantity]
    ∧ userId ≠ receiverId
    ∧ Atoi quantity = Some q
    ∧ index_of (world stub) = Some idx ∧ userId ∈ idx ∧ receiverId ∈ idx
    ∧ record_of (world stub) userId = Some s
    ∧ record_of (world stub) receiverId = Some r
    ∧ 0 ≤ sub (AssetBalance s) q
    ∧ world stub' =
        <[varJoinedUsers +:+ receiverId :=
            Marshal_user (with_balance r (add (AssetBalance r) q))]>
          (<[varJoinedUsers +:+ userId :=
               Marshal_user (with_balance s (sub (AssetBalance s) q))]> (world stub)).
Proof.
  intros H. unfold transfer in H. inv_exec H.
  repeat match goal with
  | E : GetState _ _ = _ |- _ => apply GetState_inv in E as (? & -> & ->)
  | E : getUserDetails _ _ = _ |- _ => apply getUserDetails_inv in E as (? & ? & ->)
  | E : PutState _ _ _ = _ |- _ => apply PutState_inv in E as (? & ->)
  | E : negb _ = false |- _ => apply negb_false_iff in E
  | E : String.eqb _ _ = true |- _ => apply String.eqb_eq in E
  | E : String.eqb _ _ = false |- _ => apply String.eqb_neq in E
  end.
  injection H as <- <-. subst. cbn [world advance] in *.
  match goal with E : scan_members _ _ _ = _ |- _ =>
    rewrite scan_members_elem in E; injection E as ?%bool_decide_eq_true ?%bool_decide_eq_true
  end.
  match goal with E : (_ <? 0) = false |- _ => apply Z.ltb_ge in E end.
  by eexists _, _, _, _, _, _.
Qed.

(** A transfer that returns success has stored the two new balances
    [sender - q] and [receiver + q], each reduced to an [int]. *)
Lemma transfer_success_balances (stub stub' : ChaincodeStub) (userId userRole : string)
    (args : list string) (payload : string) :
  transfer userId userRole args stub = (Done (payload, None), stub') →
  ∃ (receiverId quantity : string) (q sb rb : Z),
    args = [userId; receiverId; quantity]
    ∧ Atoi quantity = Some q
    ∧ balance_of (world stub) userId = Some sb
    ∧ balance_of (world stub) receiverId = Some rb
    ∧ balance_of (world stub') userId = Some (sub sb q)
    ∧ balance_of (world stub') receiverId = Some (add rb q)
    ∧ 0 ≤ sub sb q.
Proof.
  intros (receiverId & quantity & q & idx & s & r & -> & Hne & Hq & _ & _ & _ & Hs & Hr & Hpos & ->)
    %transfer_success_inv.
  exists receiverId, quantity, q, (AssetBalance s), (AssetBalance r).
  unfold balance_of. rewrite Hs, Hr. unfold record_of, read.
  assert (varJoinedUsers +:+ receiverId ≠ varJoinedUsers +:+ userId) as Hk.
  { intros ?%participant_key_inj. congruence. }
  rewrite lookup_insert_eq, lookup_insert_ne, lookup_insert_eq by done.
  cbn [default from_option id]. rewrite !Unmarshal_Marshal_user by apply wrap_in_range.
  done.
Qed.

(** Conservation holds up to a multiple of [2 ^ 64] ... *)
Lemma transfer_conserves_modulo (stub stub' : ChaincodeStub) (userId userRole : string)
    (receiverId quantity payload : string) :
  transfer userId userRole [userId; receiverId; quantity] stub = (Done (payload, None), stub') →
  ∃ sb rb sb' rb' k : Z,
    balance_of (world stub) userId = Some sb
    ∧ balance_of (world stub) receiverId = Some rb
    ∧ balance_of (world stub') userId = Some sb'
    ∧ balance_of (world stub') receiverId = Some rb'
    ∧ sb' + rb' = sb + rb + k * 2 ^ intSize.
Proof.
  intros (? & ? & q & sb & rb & [= <- <-] & _ & Hs & Hr & Hs' & Hr' & _)%transfer_success_balances.
  destruct (wrap_congruent (sb - q)) as [k1 H1], (wrap_congruent (rb + q)) as [k2 H2].
  exists sb, rb, (sub sb q), (add rb q), (k1 + k2).
  unfold sub, add in *. repeat split; try done. lia.
Qed.

(** ... and exactly when neither new balance leaves the range of [int]. *)
Lemma transfer_conserves_in_range (stub stub' : ChaincodeStub) (userId userRole : string)
    (receiverId quantity payload : string) (q sb rb : Z) :
  transfer userId userRole [userId; receiverId; quantity] stub = (Done (payload, None), stub') →
  Atoi quantity = Some q →
  balance_of (world stub) userId = Some sb →
  balance_of (world stub) receiverId = Some rb →
  in_range (sb - q) = true →
  in_range (rb + q) = true →
  ∃ sb' rb' : Z,
    balance_of (world stub') userId = Some sb'
    ∧ balance_of (world stub') receiverId = Some rb'
    ∧ sb' + rb' = sb + rb.
Proof.
  intros (? & ? & q' & sb0 & rb0 & [= <- <-] & Hq & Hs & Hr & Hs' & Hr' & _)%transfer_success_balances
    Hq' Hsb Hrb Hrs Hrr.
  assert (q' = q) as -> by congruence.
  assert (sb0 = sb) as -> by congruence.
  assert (rb0 = rb) as -> by congruence.
  exists (sb - q), (rb + q). rewrite Hs', Hr'. unfold sub, add.
  rewrite !wrap_id by done. split_and!; [done | done | lia].
Qed.

End GatedTransfer.

(** ** Transfers that break the balance invariants *)

Section GatedTransferRuns.
Import Json Gated Scenario.

(** C1, at a failing input.  After alice has moved -(2^63 - 101) units to
    carol, carol holds 201 - 2^63.  bob then moves -202 units to carol: the
    call returns success, bob holds 302, and carol's new balance
    201 - 2^63 - 202 wraps around to 2^63 - 1.  The two balances summed to
    301 - 2^63 before the call and sum to 301 + 2^63 after it. *)
Theorem transfer_overflow_creates_assets :
  fst (transfer "alice" "user" ["alice"; "carol"; "-9223372036854775707"]
         (next_call [] three_joined)) = Done (nilBytes, None)
  ∧ let '(o, stub') :=
      transfer "bob" "user" ["bob"; "carol"; "-202"] (next_call [] carol_drained) in
    o = Done (nilBytes, None)
    ∧ balance_of (world carol_drained) "bob" = Some 100
    ∧ balance_of (world carol_drained) "carol" = Some (201 - 2 ^ 63)
    ∧ balance_of (world stub') "bob" = Some 302
    ∧ balance_of (world stub') "carol" = Some (2 ^ 63 - 1)
    ∧ 100 + (201 - 2 ^ 63) ≠ 302 + (2 ^ 63 - 1).
Proof. vm_compute. split_and!; try reflexivity. discriminate. Qed.

(** C2, at a failing input.  With alice and bob joined at 100 units each,
    alice transfers the quantity -200 to bob.  The call returns success and
    stores the balance -100 for bob. *)
Theorem transfer_negative_quantity_overdraws_receiver :
  let '(o, stub') :=
    transfer "alice" "user" ["alice"; "bob"; "-200"] (next_call [] two_joined) in
  o = Done (nilBytes, None)
  ∧ balance_of (world two_joined) "alice" = Some 100
  ∧ balance_of (world two_joined) "bob" = Some 100
  ∧ balance_of (world stub') "alice" = Some 300
  ∧ balance_of (world stub') "bob" = Some (-100).
Proof. vm_compute. by split_and!. Qed.

(** C3, at a failing input.  alice transfers 30 units to bob; the write of
    her record goes through and the write of bob's record fails.  One more
    write is made, of alice's record with the balance 100, under the key
    ["alice"] and not under the key of her record, ["_joinedUsers_alice"]:
    her record keeps the balance 70, bob's keeps 100, and the panic reports
    that the deduction was rolled back. *)
Theorem transfer_rollback_misses_the_record :
  let '(o, stub') :=
    transfer "alice" "user" ["alice"; "bob"; "30"]
      (next_call [None; None; None; None; Some "store unavailable"] two_joined) in
  writes (trace stub') =
    [EvPutState "_joinedUsers_alice" (Marshal_user (mkUser "alice" "user" 70)) true;
     EvPutState "_joinedUsers_bob" (Marshal_user (mkUser "bob" "user" 130)) false;
     EvPutState "alice" (Marshal_user (mkUser "alice" "user" 100)) true]
  ∧ balance_of (world stub') "alice" = Some 70
  ∧ balance_of (world stub') "bob" = Some 100
  ∧ o = Panic (PString
          ("ERROR: Source: transfer. Transaction failed - unable to update Asset Balance for Receiver ID 'bob'. Details: store unavailable"
           +:+ nl
           +:+ "Attempting to roll back deduction from Sender account... successfully rolled back asset deduction of '"
           +:+ string_of_rune 30 +:+ "' from Sender ID 'alice'.")).
Proof. vm_compute. by split_and!. Qed.

End GatedTransferRuns.

(** ** The compensating write of a transfer *)

Section GatedCompensation.
Import Json Gated Scenario.

Lemma getUserDetails_ok (id : string) (stub : ChaincodeStub) (u : user) :
  fault_at 0 stub = None →
  record_of (world stub) id = Some u →
  getUserDetails id stub =
  (Done (u, None), advance stub (world stub) (EvGetState (varJoinedUsers +:+ id) true)).
Proof.
  intros Hf Hu. unfold getUserDetails. rewrite run_bind, (GetState_ok _ _ Hf).
  unfold record_of in Hu. by rewrite Hu.
Qed.

Lemma with_balance_back (u : user) (b : Z) :
  with_balance (with_balance u b) (AssetBalance u) = u.
Proof. by destruct u. Qed.

(** A key of a participant record begins with an underscore. *)
Lemma Index_participant_key (id : string) : Index (varJoinedUsers +:+ id) "_" = 0.
Proof. reflexivity. Qed.

(** X28.  In every transfer that reaches its writes, when the write of
    the sender's record goes through and the write of the receiver's record
    fails, exactly one more write is attempted.  It carries the sender's
    record with the balance it had before the transfer, under the key
    [senderId]; the record under [varJoinedUsers + senderId] keeps the
    reduced balance.  When that write fails as well, the panic carries the
    balance the sender had before the transfer. *)
Lemma transfer_failed_receiver_write
    (stub : ChaincodeStub) (senderId receiverId quantity userRole : string)
    (q : Z) (idx : list string) (s r : user) (e : string) :
  Index senderId "_" ≠ 0 → Index receiverId "_" ≠ 0 →
  senderId ≠ receiverId →
  Atoi quantity = Some q →
  index_of (world stub) = Some idx → senderId ∈ idx → receiverId ∈ idx →
  record_of (world stub) senderId = Some s →
  record_of (world stub) receiverId = Some r →
  0 ≤ sub (AssetBalance s) q →
  fault_at 0 stub = None → fault_at 1 stub = None → fault_at 2 stub = None →
  fault_at 3 stub = None →
  fault_at 4 stub = Some e →
  let debited := Marshal_user (with_balance s (sub (AssetBalance s) q)) in
  let credited := Marshal_user (with_balance r (add (AssetBalance r) q)) in
  let '(o, stub') := transfer senderId userRole [senderId; receiverId; quantity] stub in
  writes (trace stub') =
    (writes (trace stub) ++
      [EvPutState (varJoinedUsers +:+ senderId) debited true;
       EvPutState (varJoinedUsers +:+ receiverId) credited false;
       EvPutState senderId (Marshal_user s) (bool_decide (fault_at 5 stub = None))])%list
  ∧ read (world stub') (varJoinedUsers +:+ senderId) = debited
  ∧ read (world stub') (varJoinedUsers +:+ receiverId) = read (world stub) (varJoinedUsers +:+ receiverId)
  ∧ ∃ msg : string,
      o = Panic (PString msg)
      ∧ (fault_at 5 stub ≠ None →
         mentions msg ("'. WORLD STATE IS INCONSISTENT - TRANSACTION MUST BE MANUALLY REVERSED BY AN ADMINISTRATOR! Correct value: "
                       +:+ Itoa (AssetBalance s))).
Proof.
  intros Hs_ Hr_ Hne Hq Hidx Hsin Hrin Hs Hr Hpos Hf0 Hf1 Hf2 Hf3 Hf4 debited credited.
  unfold transfer.
  assert ((Index senderId "_" =? 0) || (Index receiverId "_" =? 0) = false) as ->.
  { apply orb_false_intro; by apply Z.eqb_neq. }
  assert (String.eqb senderId receiverId = false) as -> by by apply String.eqb_neq.
  rewrite String.eqb_refl. cbn [negb]. rewrite Hq.
  run_access. unfold index_of in Hidx. rewrite Hidx.
  rewrite scan_members_elem, !bool_decide_eq_true_2 by done. cbn [negb].
  rewrite run_bind, (getUserDetails_ok senderId _ s) by (rewrite ?fault_at_advance; done).
  assert ((sub (AssetBalance s) q <? 0) = false) as -> by by apply Z.ltb_ge.
  rewrite run_bind, (getUserDetails_ok receiverId _ r) by (rewrite ?fault_at_advance; done).
  run_access. run_access. rewrite with_balance_back.
  assert (senderId ≠ varJoinedUsers +:+ senderId) as Hkey.
  { intros Heq. apply Hs_. rewrite Heq. apply Index_participant_key. }
  assert (senderId ≠ varJoinedUsers +:+ receiverId) as Hkey'.
  { intros Heq. apply Hs_. rewrite Heq. apply Index_participant_key. }
  assert (varJoinedUsers +:+ senderId ≠ varJoinedUsers +:+ receiverId) as Hkeys.
  { intros ?%participant_key_inj. congruence. }
  destruct (fault_at 5 stub) as [e'|] eqn:Hf5; run_access; unfold panic.
  - rewrite !trace_advance. unfold writes. rewrite !List.filter_app. cbn [List.filter is_write].
    rewrite !app_nil_r, <- !app_assoc. cbn [world advance]. unfold read.
    rewrite lookup_insert_eq, lookup_insert_ne by done.
    split_and!; try done. eexists; split; [reflexivity|]. intros _.
    do 5 apply mentions_skip. apply mentions_two.
  - rewrite !trace_advance. unfold writes. rewrite !List.filter_app. cbn [List.filter is_write].
    rewrite !app_nil_r, <- !app_assoc. cbn [world advance]. unfold read.
    rewrite lookup_insert_ne, lookup_insert_eq by done.
    rewrite !lookup_insert_ne by done.
    split_and!; try done. by eexists.
Qed.

End GatedCompensation.

(** ** The authorization gate of a transfer *)

Section GatedAuthorization.
Import Json Gated Scenario.

(** The accesses of the shim do not look at the certificate of the
    invoker. *)
Lemma GetState_as_invoker (cert : gmap string string) (key : string) (stub : ChaincodeStub) :
  GetState key (as_invoker cert stub) =
  (fst (GetState key stub), as_invoker cert (snd (GetState key stub))).
Proof. unfold GetState, next_fault. cbn [faults as_invoker]. by destruct (faults stub) as [|[e|] ?]. Qed.

Lemma PutState_as_invoker (cert : gmap string string) (key value : string)
    (stub : ChaincodeStub) :
  PutState key value (as_invoker cert stub) =
  (fst (PutState key value stub), as_invoker cert (snd (PutState key value stub))).
Proof. unfold PutState, next_fault. cbn [faults as_invoker]. by destruct (faults stub) as [|[e|] ?]. Qed.

(** Runs an access on a stub in the hands of another invoker. *)
Ltac step_as_invoker :=
  rewrite !run_bind;
  first [ rewrite GetState_as_invoker | rewrite PutState_as_invoker ];
  match goal with
  | |- context [GetState ?k ?s] => destruct (GetState k s) as [[[? [?|]]|?] ?]
  | |- context [PutState ?k ?v ?s] => destruct (PutState k v s) as [[[?|]|?] ?]
  end;
  cbn [fst snd]; try reflexivity.

(** C5 (as amended).  In the role-gated contract a transfer invoked by an
    identity other than the sender named in its first argument fails
    before any access to the world state: the stub is left as it was.  The
    failure is that of the first check that does not pass, in the order of
    the code: the number of arguments (a returned error), the first
    character of the two ids, a receiver other than the sender; when all of
    them pass it is the permission-denied panic.  The transfer of the
    role-less contract takes no identity: what it returns and the world
    state it leaves are the same whatever the certificate of the
    invoker. *)
Theorem transfer_by_other_identity_fails
    (stub : ChaincodeStub) (userId userRole senderId : string) (rest : list string) :
  userId ≠ senderId →
  transfer userId userRole (senderId :: rest) stub =
  (match rest with
   | [receiverId; quantity] =>
     Panic (PString (transfer_errorHeader +:+
       if bool_decide (Index senderId "_" = 0 ∨ Index receiverId "_" = 0) then
         "User IDs of Sender and Receiver must not begin with an underscore."
       else if bool_decide (senderId = receiverId) then
         "Sender and Receiver must not be the same User."
       else
         "Permission denied - the executing User must match the Sender ID for a successful transfer."))
   | _ =>
     Done (nilBytes,
           Some (transfer_errorHeader
                 +:+ "Incorrect number of arguments - expecting 3 (Sender ID, Receiver ID, Asset Quantity)."))
   end, stub)
  ∧ ∀ (args : list string) (cert : gmap string string),
      Simple.transfer args (as_invoker cert stub) =
      (fst (Simple.transfer args stub), as_invoker cert (snd (Simple.transfer args stub))).
Proof.
  intros Hne. split.
  - unfold transfer.
    assert (String.eqb userId senderId = false) as Hu by by apply String.eqb_neq.
    destruct rest as [|receiverId [|quantity [|extra rest]]]; try reflexivity.
    destruct (Z.eqb_spec (Index senderId "_") 0) as [Hs|Hs]; cbn [orb].
    { rewrite bool_decide_eq_true_2 by by left. reflexivity. }
    destruct (Z.eqb_spec (Index receiverId "_") 0) as [Hr|Hr].
    { rewrite bool_decide_eq_true_2 by by right. reflexivity. }
    rewrite bool_decide_eq_false_2 by (by intros [?|?]).
    destruct (String.eqb_spec senderId receiverId) as [Hsr|Hsr].
    { rewrite bool_decide_eq_true_2 by done. reflexivity. }
    rewrite bool_decide_eq_false_2 by done. rewrite Hu. reflexivity.
  - intros args cert. unfold Simple.transfer.
    destruct args as [|senderId' [|receiverId [|quantity [|extra args]]]]; try reflexivity.
    destruct (Atoi quantity) as [q|]; [|reflexivity].
    destruct ((Index senderId' "_" =? 1) || (Index receiverId "_" =? 1)); [reflexivity|].
    destruct (String.eqb senderId' receiverId); [reflexivity|].
    step_as_invoker.
    destruct (Simple.scan_members _ _ _) as [[] []]; cbn [negb]; try reflexivity.
    step_as_invoker. step_as_invoker.
    destruct (Atoi _) as [sb|]; [|reflexivity].
    destruct (sub sb q <? 0); [reflexivity|].
    destruct (Atoi _) as [rb|]; [|reflexivity].
    step_as_invoker. step_as_invoker.
Qed.

Lemma transfer_by_other_identity_fails_witness :
  transfer "mallory" "user" ["alice"; "bob"; "30"] (next_call [] two_joined) =
  (Panic (PString
     "ERROR: Source: transfer. Permission denied - the executing User must match the Sender ID for a successful transfer."),
   next_call [] two_joined).
Proof.
  destruct (transfer_by_other_identity_fails (next_call [] two_joined)
              "mallory" "user" "alice" ["bob"; "30"]) as [H _]; [discriminate|].
  rewrite H. reflexivity.
Defined.

(** C5 as stated fails, in two ways.  In the role-gated contract, invoked
    by alice with bob as both sender and receiver, the transfer fails on
    the check that comes first, and the panic is not the permission-denied
    one.  In the role-less contract, a transfer from alice to bob that
    mallory invokes goes through and moves the assets. *)
Lemma transfer_by_other_identity_reports_earlier_check :
  ("alice" ≠ "bob"
   ∧ fst (transfer "alice" "user" ["bob"; "bob"; "10"] (next_call [] two_joined)) =
     Panic (PString "ERROR: Source: transfer. Sender and Receiver must not be the same User.")
   ∧ fst (transfer "alice" "user" ["bob"; "bob"; "10"] (next_call [] two_joined)) ≠
     Panic (PString
       "ERROR: Source: transfer. Permission denied - the executing User must match the Sender ID for a successful transfer."))
  ∧ (certAttributes (stub_of (world simple_two_joined) "mallory") !! "username" = Some "mallory"
     ∧ fst (Simple.Invoke "transfer" ["alice"; "bob"; "30"]
              (stub_of (world simple_two_joined) "mallory")) = Done (nilBytes, None)
     ∧ Simple.balance_of (world simple_two_joined) "alice" = Some 100
     ∧ Simple.balance_of
         (world (snd (Simple.Invoke "transfer" ["alice"; "bob"; "30"]
                        (stub_of (world simple_two_joined) "mallory")))) "alice" = Some 70
     ∧ Simple.balance_of
         (world (snd (Simple.Invoke "transfer" ["alice"; "bob"; "30"]
                        (stub_of (world simple_two_joined) "mallory")))) "bob" = Some 130).
Proof. split_and!; try reflexivity; try discriminate; by vm_compute. Qed.

End GatedAuthorization.

(** ** Uniqueness of membership *)

Section GatedMembership.
Import Utf8 Json Gated Scenario.


Lemma index_of_delete_other (w : gmap string string) (key : string) :
  key ≠ varJoinedUsersIndex → index_of (delete key w) = index_of w.
Proof. intros H. unfold index_of, read. by rewrite lookup_delete_ne. Qed.

Lemma index_of_insert (w : gmap string string) (l : list string) :
  index_of (<[varJoinedUsersIndex := Marshal_strings l]> w) = Some (map coerce l).
Proof. unfold index_of, read. rewrite lookup_insert_eq. apply Unmarshal_Marshal_strings. Qed.





Lemma Init_index (stub stub' : ChaincodeStub) (function payload : string) (args : list string) :
  Init function args stub = (Done (payload, None), stub') →
  index_of (world stub') = Some [].
Proof.
  unfold Init. intros H. inv_exec H.
  match goal with E : PutState _ _ _ = _ |- _ => apply PutState_inv in E as (_ & ->) end.
  injection H as _ <-. apply (index_of_insert _ []).
Qed.

(** The same for the role-less contract, whose index decodes to the empty
    list when it cannot be decoded. *)
Lemma Simple_index_of_insert (w : gmap string string) (l : list string) :
  Simple.index_of (<[Simple.joinedUsersStr := Marshal_strings l]> w) = map coerce l.
Proof.
  unfold Simple.index_of, Simple.Unmarshal_strings_unchecked, read.
  rewrite lookup_insert_eq. cbn [default from_option id].
  by rewrite Unmarshal_Marshal_strings.
Qed.



Lemma Simple_index_of_insert_other (w : gmap string string) (key value : string) :
  Index key "_" ≠ 0 → Simple.index_of (<[key := value]> w) = Simple.index_of w.
Proof.
  intros H. unfold Simple.index_of, read. rewrite lookup_insert_ne; [done|].
  by intros ->.
Qed.

Lemma Simple_previously_joined_elem (id : string) (l : list string) :
  Simple.previously_joined id l = true ↔ id ∈ l.
Proof.
  induction l as [|x l IH]; simpl.
  - split; [discriminate | by intros ?%elem_of_nil].
  - destruct (String.eqb_spec x id) as [->|Hne].
    + split; [intros _; apply list_elem_of_here | done].
    + rewrite IH. split; [apply list_elem_of_further|].
      intros [?|?]%elem_of_cons; [congruence | done].
Qed.







End GatedMembership.

(** ** Queries *)

Section Queries.
Import Json Scenario.

(** Neither contract's [Query] writes: the world state is left as it was
    and no write is attempted, whatever is asked and whatever comes back. *)
Lemma Gated_Query_read_only (function : string) (args : list string) (stub : ChaincodeStub) :
  world (snd (Gated.Query function args stub)) = world stub
  ∧ writes (trace (snd (Gated.Query function args stub))) = writes (trace stub).
Proof.
  unfold Gated.Query, Gated.getUserDetails, bind, GetState, ret, panic.
  repeat case_match; simplify_eq; cbn [snd world trace advance];
    unfold writes; rewrite ?List.filter_app, ?app_nil_r; done.
Qed.

Lemma Simple_Query_read_only (function : string) (args : list string) (stub : ChaincodeStub) :
  world (snd (Simple.Query function args stub)) = world stub
  ∧ writes (trace (snd (Simple.Query function args stub))) = writes (trace stub).
Proof.
  unfold Simple.Query, bind, GetState, ret, panic.
  repeat case_match; simplify_eq; cbn [snd world trace advance];
    unfold writes; rewrite ?List.filter_app, ?app_nil_r; done.
Qed.

(** In the role-gated contract, asking for the balance of an id that has
    no record panics, when the read itself goes through. *)
Lemma Gated_getassetbalance_without_record (id : string) (stub : ChaincodeStub) :
  read (world stub) (Gated.varJoinedUsers +:+ id) = EmptyString →
  fault_at 0 stub = None →
  fst (Gated.Query "getassetbalance" [id] stub) =
  Panic (PString "ERROR: Failed to unmarshal User Information. Source: getUserDetails. Details: unexpected end of JSON input").
Proof.
  intros Hread Hf. unfold Gated.Query, Gated.getUserDetails.
  change (String.eqb "getassetbalance" "getassetbalance") with true. cbv iota.
  rewrite !run_bind, (GetState_ok _ _ Hf), Hread. reflexivity.
Qed.

(** In the role-less contract, it returns no bytes and no error. *)
Lemma Simple_getassetbalance_without_entry (id : string) (stub : ChaincodeStub) :
  read (world stub) id = EmptyString →
  fault_at 0 stub = None →
  fst (Simple.Query "getassetbalance" [id] stub) = Done (nilBytes, None).
Proof.
  intros Hread Hf. unfold Simple.Query.
  change (String.eqb "getassetbalance" "getassetbalance") with true. cbv iota.
  rewrite !run_bind, (GetState_ok _ _ Hf), Hread. reflexivity.
Qed.

(** C7, at a failing input.  bob never joined.  Asked for his balance, the
    role-gated contract reads the key of his record, finds no bytes and
    panics out of [Query], which has no deferred function to turn the
    panic into a returned error; the role-less contract returns nil bytes
    with a nil error.  Neither writes. *)
Theorem getassetbalance_of_unknown_id :
  (fst (Gated.Query "getassetbalance" ["bob"] (next_call [] alice_joined)) =
     Panic (PString "ERROR: Failed to unmarshal User Information. Source: getUserDetails. Details: unexpected end of JSON input")
   ∧ trace (snd (Gated.Query "getassetbalance" ["bob"] (next_call [] alice_joined))) =
     [EvGetState "_joinedUsers_bob" true]
   ∧ world (snd (Gated.Query "getassetbalance" ["bob"] (next_call [] alice_joined))) =
     world alice_joined)
  ∧ (fst (Simple.Query "getassetbalance" ["bob"] (next_call [] simple_alice_joined)) =
       Done (nilBytes, None)
     ∧ trace (snd (Simple.Query "getassetbalance" ["bob"] (next_call [] simple_alice_joined))) =
       [EvGetState "bob" true]
     ∧ world (snd (Simple.Query "getassetbalance" ["bob"] (next_call [] simple_alice_joined))) =
       world simple_alice_joined).
Proof.
  split_and!.
  - vm_compute. reflexivity.
  - vm_compute. reflexivity.
  - exact (proj1 (Gated_Query_read_only _ _ (next_call [] alice_joined))).
  - vm_compute. reflexivity.
  - vm_compute. reflexivity.
  - exact (proj1 (Simple_Query_read_only _ _ (next_call [] simple_alice_joined))).
Qed.

End Queries.

(** ** The initial allocation *)

Section InitialAllocation.
Import Json Scenario.

Lemma Gated_join_success_inv (stub stub' : ChaincodeStub) (userId userRole : string)
    (args : list string) (payload : string) :
  Gated.join userId userRole args stub = (Done (payload, None), stub') →
  ∃ (joineeId joineeRole : string) (idx : list string),
    args = [joineeId; joineeRole]
    ∧ Gated.index_of (world stub) = Some idx
    ∧ (joineeId ∉ idx)
    ∧ world stub' =
        <[Gated.varJoinedUsersIndex := Marshal_strings (idx ++ [joineeId])%list]>
          (<[Gated.varJoinedUsers +:+ joineeId :=
               Gated.Marshal_user (Gated.mkUser joineeId joineeRole 100)]> (world stub)).
Proof.
  intros H. unfold Gated.join in H. inv_exec H.
  repeat match goal with
  | E : GetState _ _ = _ |- _ => apply GetState_inv in E as (? & -> & ->)
  | E : PutState _ _ _ = _ |- _ => apply PutState_inv in E as (? & ->)
  end.
  injection H as _ <-. subst. cbn [world advance].
  eexists _, _, _. split_and!; [done | done | | done].
  rewrite <- previously_joined_elem. by intros ?%eq_true_false_abs.
Qed.

Lemma Simple_join_success_inv (stub stub' : ChaincodeStub) (args : list string)
    (payload : string) :
  Simple.join args stub = (Done (payload, None), stub') →
  ∃ joineeId : string,
    args = [joineeId]
    ∧ world stub' =
        <[joineeId := Simple.initialAssetBalance]>
          (<[Simple.joinedUsersStr :=
               Marshal_strings ((Simple.index_of (world stub)) ++ [joineeId])%list]> (world stub)).
Proof.
  intros H. unfold Simple.join in H. inv_exec H.
  repeat match goal with
  | E : GetState _ _ = _ |- _ => apply GetState_inv in E as (? & -> & ->)
  | E : PutState _ _ _ = _ |- _ => apply PutState_inv in E as (? & ->)
  end.
  injection H as _ <-. subst. cbn [world advance]. by eexists.
Qed.

(** C8.  In both contracts, a join that returns success has stored the
    balance 100 for the joinee, and a later query of the joinee's balance
    on that world state returns the text 100. *)
Theorem join_then_getassetbalance :
  (∀ (stub stub' later : ChaincodeStub) (userId userRole joineeId joineeRole payload : string),
     Gated.join userId userRole [joineeId; joineeRole] stub = (Done (payload, None), stub') →
     world later = world stub' →
     fault_at 0 later = None →
     Gated.balance_of (world stub') joineeId = Some 100
     ∧ fst (Gated.Query "getassetbalance" [joineeId] later) = Done ("100", None))
  ∧ (∀ (stub stub' later : ChaincodeStub) (joineeId payload : string),
       Simple.join [joineeId] stub = (Done (payload, None), stub') →
       world later = world stub' →
       fault_at 0 later = None →
       Simple.balance_of (world stub') joineeId = Some 100
       ∧ fst (Simple.Query "getassetbalance" [joineeId] later) = Done ("100", None)).
Proof.
  split.
  - intros stub stub' later userId userRole joineeId joineeRole payload
      (? & ? & idx & [= <- <-] & _ & _ & Hw)%Gated_join_success_inv Hlater Hf.
    assert (Gated.record_of (world stub') joineeId =
            Some (Gated.mkUser (Utf8.coerce joineeId) (Utf8.coerce joineeRole) 100)) as Hrec.
    { rewrite Hw. unfold Gated.record_of, read.
      rewrite lookup_insert_ne, lookup_insert_eq
        by (intros Heq; symmetry in Heq; by apply participant_key_not_index in Heq).
      cbn [default from_option id]. by apply Unmarshal_Marshal_user. }
    split; [unfold Gated.balance_of; by rewrite Hrec|]. unfold Gated.Query.
    change (String.eqb "getassetbalance" "getassetbalance") with true. cbv iota.
    rewrite run_bind, (getUserDetails_ok joineeId later _ Hf) by by rewrite Hlater.
    reflexivity.
  - intros stub stub' later joineeId payload (? & [= <-] & Hw)%Simple_join_success_inv Hlater Hf.
    assert (read (world stub') joineeId = "100") as Hread.
    { rewrite Hw. unfold read. by rewrite lookup_insert_eq. }
    split; [unfold Simple.balance_of; by rewrite Hread|].
    unfold Simple.Query.
    change (String.eqb "getassetbalance" "getassetbalance") with true. cbv iota.
    by rewrite run_bind, (GetState_ok _ _ Hf), Hlater, Hread.
Qed.

(** The scenario of the specification: Init, then join of alice as a
    standard user, then the query of her balance. *)
Lemma join_then_getassetbalance_witness :
  fst (Gated.Query "getassetbalance" ["alice"] (next_call [] alice_joined)) = Done ("100", None)
  ∧ fst (Simple.Query "getassetbalance" ["alice"] (next_call [] simple_alice_joined)) =
    Done ("100", None).
Proof.
  split.
  - apply (proj1 join_then_getassetbalance (next_call [] deployed) alice_joined
             (next_call [] alice_joined) "admin" EmptyString "alice" "user" nilBytes);
      [|reflexivity|reflexivity].
    rewrite (surjective_pairing (Gated.join _ _ _ _)). f_equal; vm_compute; reflexivity.
  - apply (proj2 join_then_getassetbalance (next_call [] simple_deployed) simple_alice_joined
             (next_call [] simple_alice_joined) "alice" nilBytes);
      [|reflexivity|reflexivity].
    rewrite (surjective_pairing (Simple.join _ _)). f_equal; vm_compute; reflexivity.
Defined.

End InitialAllocation.

(** ** The entry point of the role-gated contract *)

Section GatedInvoke.
Import Json Gated Scenario.

(** The deferred function fails its type assertion whenever the body of
    [Invoke] returned: [recover()] is nil then. *)
Lemma Invoke_deferred_after_return (r : reply) :
  Invoke_deferred (Done r) =
  Panic (PRuntimeError "interface conversion: interface is nil, not string").
Proof. reflexivity. Qed.

(** It turns a panic with a string into a returned error. *)
Lemma Invoke_deferred_after_panic (msg : string) :
  Invoke_deferred (Panic (PString msg)) =
  Done (nilBytes, Some (Invoke_errorHeader +:+ "Details: " +:+ msg)).
Proof. reflexivity. Qed.

(** So [Invoke] never returns a nil error. *)
Lemma Invoke_never_succeeds (function : string) (args : list string) (stub : ChaincodeStub) :
  succeeded (fst (Invoke function args stub)) = false.
Proof.
  unfold Invoke. destruct (Invoke_body function args stub) as [[r|[msg|msg]] stub']; reflexivity.
Qed.

(** X18.  An invoker without a participant record is stopped in [Invoke],
    before the function it asked for is looked at: the read of its record finds no
    bytes, [getUserDetails] panics, and the deferred function returns the
    panic as an error.  Nothing is written. *)
Lemma Invoke_without_record (function userId : string) (args : list string)
    (stub : ChaincodeStub) :
  certAttributes stub !! "username" = Some userId →
  read (world stub) (varJoinedUsers +:+ userId) = EmptyString →
  fault_at 0 stub = None →
  Invoke function args stub =
  (Done (nilBytes,
         Some "ERROR: Source: Invoke. Details: ERROR: Failed to unmarshal User Information. Source: getUserDetails. Details: unexpected end of JSON input"),
   advance stub (world stub) (EvGetState (varJoinedUsers +:+ userId) true)).
Proof.
  intros Hcert Hread Hf.
  unfold Invoke, Invoke_body, getUsernameFromEcert, ReadCertAttribute, getUserDetails.
  rewrite !run_bind, Hcert. cbv beta iota. unfold ret at 1.
  rewrite !run_bind, (GetState_ok _ _ Hf), Hread. reflexivity.
Qed.

(** C9, at a failing input.  The contract has been deployed and nobody has
    joined; the invoker's certificate names the bootstrap identity admin,
    which has no participant record.  Its invocation of join through
    [Invoke] returns the error of the failed look-up of its own record and
    writes nothing, although [join] itself, called for admin, goes
    through. *)
Theorem bootstrap_identity_stopped_by_Invoke :
  certAttributes (next_call [] deployed) !! "username" = Some "admin"
  ∧ record_of (world deployed) "admin" = None
  ∧ fst (Invoke "join" ["alice"; "user"] (next_call [] deployed)) =
    Done (nilBytes,
          Some "ERROR: Source: Invoke. Details: ERROR: Failed to unmarshal User Information. Source: getUserDetails. Details: unexpected end of JSON input")
  ∧ trace (snd (Invoke "join" ["alice"; "user"] (next_call [] deployed))) =
    [EvGetState "_joinedUsers_admin" true]
  ∧ fst (join "admin" EmptyString ["alice"; "user"] (next_call [] deployed)) =
    Done (nilBytes, None).
Proof. split_and!; vm_compute; reflexivity. Qed.

(** C10, at a failing input.  alice has joined and invokes init.  The body
    of [Invoke] returns nil bytes and a nil error; the deferred function
    then asserts that the nil value of [recover()] is a string, and
    [Invoke] panics instead of returning. *)
Theorem Invoke_panics_when_body_returns :
  fst (Invoke_body "init" [] (stub_of (world alice_joined) "alice")) = Done (nilBytes, None)
  ∧ fst (Invoke "init" [] (stub_of (world alice_joined) "alice")) =
    Panic (PRuntimeError "interface conversion: interface is nil, not string").
Proof. split; vm_compute; reflexivity. Qed.

End GatedInvoke.

(** ** The role-less contract *)

Section SimpleRuns.
Import Json Scenario.

(** C4 as stated fails in the role-less contract.  Its join writes the
    index first and the balance of the joinee second; when that second
    write fails it returns an error at once, with no further access: alice
    is left in the index without a balance. *)
Lemma Simple_join_writes_index_first :
  let '(o, stub') :=
    Simple.join ["alice"] (next_call [None; None; Some "store unavailable"] simple_deployed) in
  trace stub' =
    [EvGetState "_joinedUsers" true;
     EvPutState "_joinedUsers" (Marshal_strings ["alice"]) true;
     EvPutState "alice" "100" false]
  ∧ Simple.index_of (world stub') = ["alice"]
  ∧ read (world stub') "alice" = EmptyString
  ∧ o = Done (nilBytes,
              Some "Unable to initialize Asset Balance entry for the joinee User ID. Rolling back addition of User...").
Proof. vm_compute. by split_and!. Qed.

(** With no fault, the order of its writes is the same. *)
Lemma Simple_join_write_order :
  writes (trace (snd (Simple.join ["alice"] (next_call [] simple_deployed)))) =
  [EvPutState "_joinedUsers" (Marshal_strings ["alice"]) true;
   EvPutState "alice" "100" true].
Proof. vm_compute. reflexivity. Qed.

(** A negative quantity overdraws the receiver here as well. *)
Lemma Simple_transfer_negative_quantity :
  let '(o, stub') := Simple.transfer ["alice"; "bob"; "-200"] (next_call [] simple_two_joined) in
  o = Done (nilBytes, None)
  ∧ Simple.balance_of (world stub') "alice" = Some 300
  ∧ Simple.balance_of (world stub') "bob" = Some (-100).
Proof. vm_compute. by split_and!. Qed.

(** And a receiver far enough below zero wraps around to the top of
    [int]. *)
Lemma Simple_transfer_overflow :
  let '(o, stub') := Simple.transfer ["bob"; "carol"; "-202"] (next_call [] simple_carol_drained) in
  o = Done (nilBytes, None)
  ∧ Simple.balance_of (world simple_carol_drained) "bob" = Some 100
  ∧ Simple.balance_of (world simple_carol_drained) "carol" = Some (201 - 2 ^ 63)
  ∧ Simple.balance_of (world stub') "bob" = Some 302
  ∧ Simple.balance_of (world stub') "carol" = Some (2 ^ 63 - 1).
Proof. vm_compute. by split_and!. Qed.

(** When the write of the receiver's balance fails, the transfer returns
    an error at once: no compensating write is attempted and the sender
    stays debited. *)
Lemma Simple_transfer_failed_receiver_write :
  let '(o, stub') :=
    Simple.transfer ["alice"; "bob"; "30"]
      (next_call [None; None; None; None; Some "store unavailable"] simple_two_joined) in
  writes (trace stub') = [EvPutState "alice" "70" true; EvPutState "bob" "130" false]
  ∧ Simple.balance_of (world stub') "alice" = Some 70
  ∧ Simple.balance_of (world stub') "bob" = Some 100
  ∧ o = Done (nilBytes,
              Some "Transaction failed - unable to update Asset Balance for Receiver ID 'bob' . Error details: store unavailable").
Proof. vm_compute. by split_and!. Qed.

End SimpleRuns.

(** * Further properties of the two contracts *)

(** Splits on the fault scheduled for the access at the head of a
    computation. *)
Ltac split_access :=
  rewrite run_bind;
  first [ unfold GetState at 1 | unfold PutState at 1 | unfold DelState at 1 ];
  rewrite next_fault_at, ?fault_at_advance;
  match goal with
  | |- context [match fault_at ?n ?s with _ => _ end] => destruct (fault_at n s) eqn:?
  end;
  cbv beta iota.

(** ** What a transfer of the role-gated contract leaves alone *)

Section GatedTransferFrame.
Import Json Gated Scenario.

(** X1.  A transfer never changes the index of joined ids, whatever its
    caller, its arguments and the faults of the world state: the keys it
    writes are the two participant keys and, in its rollback, the id of
    the sender, which does not begin with an underscore. *)
Theorem transfer_keeps_index (stub : ChaincodeStub) (userId userRole : string)
    (args : list string) :
  read (world (snd (transfer userId userRole args stub))) varJoinedUsersIndex =
  read (world stub) varJoinedUsersIndex.
Proof.
  unfold transfer.
  destruct args as [|senderId [|receiverId [|quantity [|extra args]]]]; try done.
  destruct ((Index senderId "_" =? 0) || (Index receiverId "_" =? 0)) eqn:Hunder; [done|].
  apply orb_false_elim in Hunder as [Hs%Z.eqb_neq Hr%Z.eqb_neq].
  destruct (String.eqb senderId receiverId); [done|].
  destruct (negb (String.eqb userId senderId)); [done|].
  destruct (Atoi quantity) as [q|]; [|done].
  split_access; [done|].
  destruct (Unmarshal_strings _) as [idx|]; [|done].
  destruct (scan_members senderId receiverId idx) as [[] []]; try done.
  cbn [negb]. rewrite run_bind. unfold getUserDetails at 1. split_access; [done|].
  destruct (Unmarshal_user _) as [s|]; [|done]. unfold ret at 1. cbv beta iota.
  destruct (sub (AssetBalance s) q <? 0); [done|].
  rewrite run_bind. unfold getUserDetails at 1. split_access; [done|].
  destruct (Unmarshal_user _) as [r|]; [|done]. unfold ret at 1. cbv beta iota.
  assert (senderId ≠ varJoinedUsersIndex) as Hkey by (by intros ->).
  split_access; [done|].
  split_access; [|unfold ret; cbn [snd world advance]; unfold read;
    by rewrite !lookup_insert_ne by apply participant_key_not_index].
  split_access; unfold panic; cbn [snd world advance]; unfold read.
  - by rewrite !lookup_insert_ne by apply participant_key_not_index.
  - rewrite lookup_insert_ne by done.
    by rewrite !lookup_insert_ne by apply participant_key_not_index.
Qed.

End GatedTransferFrame.

(** ** What a transfer of the role-gated contract does *)

Section GatedTransferEffects.
Import Json Gated Scenario.

Lemma no_fault_scheduled (stub : ChaincodeStub) :
  faults stub = [] → ∀ n, fault_at n stub = None.
Proof. intros H n. unfold fault_at. by rewrite H, lookup_nil. Qed.

(** X2.  A transfer that returns success was called by its sender; it has
    replaced the balance in the sender's record by [sender - q] and in the
    receiver's record by [receiver + q], both as Go computes them, the new
    balance of the sender being at least 0; the id and the role in the two
    records are kept, and every other key of the world state holds what it
    held before. *)
Theorem transfer_success_effect (stub stub' : ChaincodeStub) (userId userRole : string)
    (args : list string) (payload : string) :
  transfer userId userRole args stub = (Done (payload, None), stub') →
  ∃ (receiverId quantity : string) (q : Z) (s r : user),
    args = [userId; receiverId; quantity]
    ∧ Atoi quantity = Some q
    ∧ record_of (world stub) userId = Some s
    ∧ record_of (world stub) receiverId = Some r
    ∧ record_of (world stub') userId = Some (with_balance s (sub (AssetBalance s) q))
    ∧ record_of (world stub') receiverId = Some (with_balance r (add (AssetBalance r) q))
    ∧ 0 ≤ sub (AssetBalance s) q
    ∧ ∀ key : string,
        key ≠ varJoinedUsers +:+ userId → key ≠ varJoinedUsers +:+ receiverId →
        read (world stub') key = read (world stub) key.
Proof.
  intros (receiverId & quantity & q & idx & s & r & -> & Hne & Hq & _ & _ & _ & Hs & Hr & Hpos & ->)
    %transfer_success_inv.
  exists receiverId, quantity, q, s, r.
  assert (varJoinedUsers +:+ receiverId ≠ varJoinedUsers +:+ userId) as Hk.
  { intros ?%participant_key_inj. congruence. }
  split_and!; try done.
  - unfold record_of, read. rewrite lookup_insert_ne, lookup_insert_eq by done.
    cbn [default from_option id]. eapply Unmarshal_Marshal_decoded; [eassumption | apply wrap_in_range].
  - unfold record_of, read. rewrite lookup_insert_eq.
    cbn [default from_option id]. eapply Unmarshal_Marshal_decoded; [eassumption | apply wrap_in_range].
  - intros key H1 H2. unfold read. by rewrite !lookup_insert_ne.
Qed.

Lemma transfer_success_effect_witness :
  record_of (world (snd (transfer "alice" "user" ["alice"; "bob"; "30"] (next_call [] two_joined))))
    "alice" = Some (mkUser "alice" "user" 70)
  ∧ record_of (world (snd (transfer "alice" "user" ["alice"; "bob"; "30"] (next_call [] two_joined))))
      "bob" = Some (mkUser "bob" "user" 130).
Proof.
  destruct (transfer_success_effect (next_call [] two_joined)
              (snd (transfer "alice" "user" ["alice"; "bob"; "30"] (next_call [] two_joined)))
              "alice" "user" ["alice"; "bob"; "30"] nilBytes)
    as (receiverId & quantity & q & s & r & Hargs & Hq & Hs & Hr & Hs' & Hr' & _).
  - rewrite (surjective_pairing (transfer _ _ _ _)). f_equal; vm_compute; reflexivity.
  - injection Hargs as <- <-.
    assert (q = 30) as -> by (vm_compute in Hq; congruence).
    assert (s = mkUser "alice" "user" 100) as -> by (vm_compute in Hs; congruence).
    assert (r = mkUser "bob" "user" 100) as -> by (vm_compute in Hr; congruence).
    split; [exact Hs' | exact Hr'].
Defined.

(** X3.  Across a transfer that returns success the sum of the two
    balances changes by a multiple of [2 ^ 64], and does not change at all
    when neither [sender - q] nor [receiver + q] leaves the range of
    [int]. *)
Theorem transfer_conserves_up_to_overflow (stub stub' : ChaincodeStub)
    (userId userRole receiverId quantity payload : string) :
  transfer userId userRole [userId; receiverId; quantity] stub = (Done (payload, None), stub') →
  ∃ q sb rb sb' rb' : Z,
    Atoi quantity = Some q
    ∧ balance_of (world stub) userId = Some sb
    ∧ balance_of (world stub) receiverId = Some rb
    ∧ balance_of (world stub') userId = Some sb'
    ∧ balance_of (world stub') receiverId = Some rb'
    ∧ (∃ k : Z, sb' + rb' = sb + rb + k * 2 ^ intSize)
    ∧ (in_range (sb - q) = true → in_range (rb + q) = true → sb' + rb' = sb + rb).
Proof.
  intros (? & ? & q & sb & rb & [= <- <-] & Hq & Hs & Hr & Hs' & Hr' & _)%transfer_success_balances.
  exists q, sb, rb, (sub sb q), (add rb q). split_and!; try done.
  - destruct (wrap_congruent (sb - q)) as [k1 H1], (wrap_congruent (rb + q)) as [k2 H2].
    exists (k1 + k2). unfold sub, add. lia.
  - intros H1 H2. unfold sub, add. rewrite !wrap_id by done. lia.
Qed.

Lemma transfer_conserves_up_to_overflow_witness :
  ∃ sb rb sb' rb' : Z,
    balance_of (world two_joined) "alice" = Some sb
    ∧ balance_of (world two_joined) "bob" = Some rb
    ∧ balance_of (world (snd (transfer "alice" "user" ["alice"; "bob"; "30"]
                                (next_call [] two_joined)))) "alice" = Some sb'
    ∧ balance_of (world (snd (transfer "alice" "user" ["alice"; "bob"; "30"]
                                (next_call [] two_joined)))) "bob" = Some rb'
    ∧ sb' + rb' = sb + rb.
Proof.
  destruct (transfer_conserves_up_to_overflow (next_call [] two_joined)
              (snd (transfer "alice" "user" ["alice"; "bob"; "30"] (next_call [] two_joined)))
              "alice" "user" "bob" "30" nilBytes)
    as (q & sb & rb & sb' & rb' & Hq & Hs & Hr & Hs' & Hr' & _ & Hexact).
  - rewrite (surjective_pairing (transfer _ _ _ _)). f_equal; vm_compute; reflexivity.
  - exists sb, rb, sb', rb'. split_and!; [exact Hs | exact Hr | exact Hs' | exact Hr' |].
    assert (q = 30) as -> by (vm_compute in Hq; congruence).
    assert (sb = 100) as -> by (vm_compute in Hs; congruence).
    assert (rb = 100) as -> by (vm_compute in Hr; congruence).
    apply Hexact; reflexivity.
Defined.

End GatedTransferEffects.

(** ** The refusals of a transfer of the role-gated contract *)

Section GatedTransferRefusals.
Import Json Gated Scenario.

(** X4.  A transfer whose quantity exceeds the balance of the sender
    panics after it has read the index and the sender's record: the
    receiver's record is not read and nothing is written.  The balance at
    the end of the message is the conversion [string(balance)], the
    character whose code point is the balance, not its decimal text. *)
Theorem transfer_insufficient_funds
    (stub : ChaincodeStub) (senderId receiverId quantity userRole : string)
    (q : Z) (idx : list string) (s : user) :
  Index senderId "_" ≠ 0 → Index receiverId "_" ≠ 0 →
  senderId ≠ receiverId →
  Atoi quantity = Some q →
  fault_at 0 stub = None → fault_at 1 stub = None →
  index_of (world stub) = Some idx → senderId ∈ idx → receiverId ∈ idx →
  record_of (world stub) senderId = Some s →
  sub (AssetBalance s) q < 0 →
  let '(o, stub') := transfer senderId userRole [senderId; receiverId; quantity] stub in
  o = Panic (PString
        (transfer_errorHeader
         +:+ "Sender does not possess sufficient assets to complete the transaction. senderAssetBalance: "
         +:+ string_of_rune (AssetBalance s)))
  ∧ world stub' = world stub
  ∧ trace stub' =
      (trace stub ++ [EvGetState varJoinedUsersIndex true;
                      EvGetState (varJoinedUsers +:+ senderId) true])%list.
Proof.
  intros Hs_ Hr_ Hne Hq Hf0 Hf1 Hidx Hsin Hrin Hs Hlow. unfold transfer.
  assert ((Index senderId "_" =? 0) || (Index receiverId "_" =? 0) = false) as ->.
  { apply orb_false_intro; by apply Z.eqb_neq. }
  assert (String.eqb senderId receiverId = false) as -> by by apply String.eqb_neq.
  rewrite String.eqb_refl. cbn [negb]. rewrite Hq.
  run_access. unfold index_of in Hidx. rewrite Hidx.
  rewrite scan_members_elem, !bool_decide_eq_true_2 by done. cbn [negb].
  rewrite run_bind, (getUserDetails_ok senderId _ s) by (rewrite ?fault_at_advance; done).
  assert ((sub (AssetBalance s) q <? 0) = true) as -> by by apply Z.ltb_lt.
  unfold panic. by rewrite !trace_advance, <- !app_assoc.
Qed.

Lemma transfer_insufficient_funds_witness :
  let '(o, stub') := transfer "alice" "user" ["alice"; "bob"; "160"] (next_call [] two_joined) in
  o = Panic (PString
        "ERROR: Source: transfer. Sender does not possess sufficient assets to complete the transaction. senderAssetBalance: d")
  ∧ writes (trace stub') = [].
Proof.
  pose proof (transfer_insufficient_funds (next_call [] two_joined) "alice" "bob" "160" "user"
                160 ["alice"; "bob"] (mkUser "alice" "user" 100)) as H.
  destruct (transfer "alice" "user" ["alice"; "bob"; "160"] (next_call [] two_joined))
    as [o stub'].
  destruct H as (Ho & _ & Htrace);
    [by vm_compute | by vm_compute | discriminate | reflexivity | reflexivity | reflexivity
    | by vm_compute | apply list_elem_of_here | apply list_elem_of_further, list_elem_of_here
    | by vm_compute | by vm_compute |].
  split; [exact Ho | by rewrite Htrace].
Defined.

(** X5.  A transfer whose sender or receiver is missing from the index
    panics after the one read of the index, with nothing written; the
    message names the sender when the sender is missing, also when the
    receiver is missing as well, and the receiver otherwise. *)
Theorem transfer_rejects_non_member
    (stub : ChaincodeStub) (senderId receiverId quantity userRole : string)
    (q : Z) (idx : list string) :
  Index senderId "_" ≠ 0 → Index receiverId "_" ≠ 0 →
  senderId ≠ receiverId →
  Atoi quantity = Some q →
  fault_at 0 stub = None →
  index_of (world stub) = Some idx →
  senderId ∉ idx ∨ receiverId ∉ idx →
  let '(o, stub') := transfer senderId userRole [senderId; receiverId; quantity] stub in
  o = Panic (PString
        (transfer_errorHeader
         +:+ (if bool_decide (senderId ∈ idx) then "Receiver" else "Sender")
         +:+ " is not a member and will have to join the network before attempting this Asset Transfer."))
  ∧ world stub' = world stub
  ∧ trace stub' = (trace stub ++ [EvGetState varJoinedUsersIndex true])%list.
Proof.
  intros Hs_ Hr_ Hne Hq Hf0 Hidx Hmissing. unfold transfer.
  assert ((Index senderId "_" =? 0) || (Index receiverId "_" =? 0) = false) as ->.
  { apply orb_false_intro; by apply Z.eqb_neq. }
  assert (String.eqb senderId receiverId = false) as -> by by apply String.eqb_neq.
  rewrite String.eqb_refl. cbn [negb]. rewrite Hq.
  run_access. unfold index_of in Hidx. rewrite Hidx.
  rewrite scan_members_elem.
  destruct (bool_decide (senderId ∈ idx)) eqn:Hsin; cbn [negb]; [|done].
  apply bool_decide_eq_true in Hsin. destruct Hmissing as [|Hrout]; [done|].
  by rewrite (bool_decide_eq_false_2 _ Hrout).
Qed.

Lemma transfer_rejects_non_member_witness :
  fst (transfer "alice" "user" ["alice"; "zoe"; "30"] (next_call [] two_joined)) =
    Panic (PString
      "ERROR: Source: transfer. Receiver is not a member and will have to join the network before attempting this Asset Transfer.")
  ∧ fst (transfer "yan" "user" ["yan"; "zoe"; "30"] (next_call [] two_joined)) =
    Panic (PString
      "ERROR: Source: transfer. Sender is not a member and will have to join the network before attempting this Asset Transfer.").
Proof.
  split.
  - pose proof (transfer_rejects_non_member (next_call [] two_joined) "alice" "zoe" "30" "user"
                  30 ["alice"; "bob"]) as H.
    destruct (transfer "alice" "user" ["alice"; "zoe"; "30"] (next_call [] two_joined))
      as [o stub'].
    destruct H as (Ho & _);
      [by vm_compute | by vm_compute | discriminate | reflexivity | reflexivity | by vm_compute
      | right; by intros [?|[?|?%elem_of_nil]%elem_of_cons]%elem_of_cons |].
    exact Ho.
  - pose proof (transfer_rejects_non_member (next_call [] two_joined) "yan" "zoe" "30" "user"
                  30 ["alice"; "bob"]) as H.
    destruct (transfer "yan" "user" ["yan"; "zoe"; "30"] (next_call [] two_joined))
      as [o stub'].
    destruct H as (Ho & _);
      [by vm_compute | by vm_compute | discriminate | reflexivity | reflexivity | by vm_compute
      | left; by intros [?|[?|?%elem_of_nil]%elem_of_cons]%elem_of_cons |].
    exact Ho.
Defined.

(** X6.  When the world state reports no fault, a transfer either returns
    success or leaves the world state as it was, without attempting a
    write. *)
Theorem transfer_without_fault_all_or_nothing
    (stub : ChaincodeStub) (userId userRole : string) (args : list string) :
  (∀ n, fault_at n stub = None) →
  let '(o, stub') := transfer userId userRole args stub in
  succeeded o = true
  ∨ (world stub' = world stub ∧ writes (trace stub') = writes (trace stub)).
Proof.
  intros Hnone. unfold transfer.
  assert (∀ t evs, writes (t ++ evs) = (writes t ++ writes evs)%list) as Hw
    by (intros; apply List.filter_app).
  destruct args as [|senderId [|receiverId [|quantity [|extra args]]]];
    try (right; by split).
  destruct ((Index senderId "_" =? 0) || (Index receiverId "_" =? 0)); [right; by split|].
  destruct (String.eqb senderId receiverId); [right; by split|].
  destruct (negb (String.eqb userId senderId)); [right; by split|].
  destruct (Atoi quantity) as [q|]; [|right; by split].
  rewrite run_bind, GetState_ok by done. cbv beta iota.
  destruct (Unmarshal_strings _) as [idx|];
    [|right; unfold panic; rewrite trace_advance, Hw, app_nil_r; by split].
  destruct (scan_members senderId receiverId idx) as [[] []]; cbn [negb];
    try (right; unfold panic; rewrite trace_advance, Hw, app_nil_r; by split).
  rewrite run_bind. unfold getUserDetails at 1.
  rewrite run_bind, GetState_ok by (by rewrite fault_at_advance). cbv beta iota.
  destruct (Unmarshal_user _) as [s|];
    [|right; unfold panic; rewrite !trace_advance, !Hw, !app_nil_r; by split].
  unfold ret at 1. cbv beta iota.
  destruct (sub (AssetBalance s) q <? 0);
    [right; unfold panic; rewrite !trace_advance, !Hw, !app_nil_r; by split|].
  rewrite run_bind. unfold getUserDetails at 1.
  rewrite run_bind, GetState_ok by (by rewrite !fault_at_advance). cbv beta iota.
  destruct (Unmarshal_user _) as [r|];
    [|right; unfold panic; rewrite !trace_advance, !Hw, !app_nil_r; by split].
  unfold ret at 1. cbv beta iota.
  rewrite run_bind, PutState_ok by (by rewrite !fault_at_advance). cbv beta iota.
  rewrite run_bind, PutState_ok by (by rewrite !fault_at_advance). cbv beta iota.
  by left.
Qed.

Lemma transfer_without_fault_all_or_nothing_witness :
  let '(o, stub') := transfer "alice" "user" ["alice"; "alice"; "10"] (next_call [] two_joined) in
  succeeded o = true
  ∨ (world stub' = world (next_call [] two_joined)
     ∧ writes (trace stub') = writes (trace (next_call [] two_joined))).
Proof.
  apply (transfer_without_fault_all_or_nothing (next_call [] two_joined) "alice" "user"
           ["alice"; "alice"; "10"]).
  apply no_fault_scheduled. reflexivity.
Defined.

(** The compensating write at work: alice sends 30 to bob, the write of
    bob's record fails and so does the write that follows it. *)
Lemma transfer_failed_receiver_write_witness :
  let '(o, stub') :=
    transfer "alice" "user" ["alice"; "bob"; "30"]
      (next_call [None; None; None; None; Some "store unavailable"; Some "store unavailable"]
         two_joined) in
  writes (trace stub') =
    [EvPutState "_joinedUsers_alice" (Marshal_user (mkUser "alice" "user" 70)) true;
     EvPutState "_joinedUsers_bob" (Marshal_user (mkUser "bob" "user" 130)) false;
     EvPutState "alice" (Marshal_user (mkUser "alice" "user" 100)) false]
  ∧ ∃ msg : string,
      o = Panic (PString msg)
      ∧ mentions msg
          ("'. WORLD STATE IS INCONSISTENT - TRANSACTION MUST BE MANUALLY REVERSED BY AN ADMINISTRATOR! Correct value: "
           +:+ "100").
Proof.
  pose proof (transfer_failed_receiver_write
                (next_call [None; None; None; None; Some "store unavailable"; Some "store unavailable"]
                   two_joined)
                "alice" "bob" "30" "user" 30 ["alice"; "bob"]
                (mkUser "alice" "user" 100) (mkUser "bob" "user" 100) "store unavailable") as H.
  destruct (transfer "alice" "user" ["alice"; "bob"; "30"]
              (next_call [None; None; None; None; Some "store unavailable"; Some "store unavailable"]
                 two_joined)) as [o stub'].
  destruct H as (Htrace & _ & _ & msg & Ho & Hmsg);
    [by vm_compute | by vm_compute | discriminate | reflexivity | by vm_compute
    | apply list_elem_of_here | apply list_elem_of_further, list_elem_of_here
    | by vm_compute | by vm_compute | by vm_compute
    | reflexivity | reflexivity | reflexivity | reflexivity | reflexivity |].
  split; [exact Htrace|]. exists msg. split; [exact Ho|]. by apply Hmsg.
Defined.

End GatedTransferRefusals.

(** ** Admission to the role-gated contract *)

Section GatedJoinMore.
Import Utf8 Json Gated Scenario.

(** X7.  A join by a caller who is neither the identity admin nor of the
    administrator role panics with the permission-denied message before
    any access to the world state, whatever the two arguments are. *)
Theorem join_unauthorised (stub : ChaincodeStub) (userId userRole joineeId joineeRole : string) :
  userId ≠ "admin" → userRole ≠ roleAdmin →
  join userId userRole [joineeId; joineeRole] stub =
  (Panic (PString
     (join_errorHeader
      +:+ "Permission denied - executing User must be 'admin' or assigned an Administrator User Role.")),
   stub).
Proof.
  intros Hu%String.eqb_neq Hr%String.eqb_neq. unfold join. by rewrite Hu, Hr.
Qed.

Lemma join_unauthorised_witness :
  join "alice" "user" ["mallory"; "admin"] (next_call [] alice_joined) =
  (Panic (PString
     "ERROR: Source: join. Permission denied - executing User must be 'admin' or assigned an Administrator User Role."),
   next_call [] alice_joined).
Proof.
  apply (join_unauthorised (next_call [] alice_joined) "alice" "user" "mallory" "admin");
    discriminate.
Defined.

(** X8.  A join by an authorised caller panics before any access to the
    world state when the id of the joinee begins with an underscore, and
    otherwise when the role of the joinee is neither admin nor user; the
    check of the id comes first.  An empty id passes the check of the
    id. *)
Theorem join_rejects_bad_arguments :
  (∀ (stub : ChaincodeStub) (userId userRole joineeId joineeRole : string),
     userId = "admin" ∨ userRole = roleAdmin →
     Index joineeId "_" = 0 →
     join userId userRole [joineeId; joineeRole] stub =
     (Panic (PString
        (join_errorHeader
         +:+ "Source: First input parameter. User ID of new joinee must not begin with an underscore.")),
      stub))
  ∧ (∀ (stub : ChaincodeStub) (userId userRole joineeId joineeRole : string),
       userId = "admin" ∨ userRole = roleAdmin →
       Index joineeId "_" ≠ 0 →
       joineeRole ≠ roleAdmin → joineeRole ≠ roleUser →
       join userId userRole [joineeId; joineeRole] stub =
       (Panic (PString
          (join_errorHeader +:+ "Source: Second input parameter. Invalid Role for new joinee.")),
        stub))
  ∧ Index EmptyString "_" ≠ 0.
Proof.
  split_and!.
  - intros stub userId userRole joineeId joineeRole Hauth Hid. unfold join.
    assert (negb (String.eqb userId "admin") && negb (String.eqb userRole roleAdmin) = false) as ->.
    { destruct Hauth as [-> | ->]; [done|]. by rewrite andb_comm. }
    by rewrite Hid.
  - intros stub userId userRole joineeId joineeRole Hauth Hid Hr1%String.eqb_neq Hr2%String.eqb_neq.
    unfold join.
    assert (negb (String.eqb userId "admin") && negb (String.eqb userRole roleAdmin) = false) as ->.
    { destruct Hauth as [-> | ->]; [done|]. by rewrite andb_comm. }
    apply Z.eqb_neq in Hid. by rewrite Hid, Hr1, Hr2.
  - by vm_compute.
Qed.

Lemma join_rejects_bad_arguments_witness :
  fst (join "admin" EmptyString ["_root"; "superuser"] (next_call [] deployed)) =
    Panic (PString
      "ERROR: Source: join. Source: First input parameter. User ID of new joinee must not begin with an underscore.")
  ∧ fst (join "admin" EmptyString ["root"; "superuser"] (next_call [] deployed)) =
    Panic (PString "ERROR: Source: join. Source: Second input parameter. Invalid Role for new joinee.").
Proof.
  destruct join_rejects_bad_arguments as (Hid & Hrole & _). split.
  - rewrite (Hid (next_call [] deployed) "admin" EmptyString "_root" "superuser");
      [reflexivity | by left | by vm_compute].
  - rewrite (Hrole (next_call [] deployed) "admin" EmptyString "root" "superuser");
      [reflexivity | by left | by vm_compute | discriminate | discriminate].
Defined.

(** X9.  A join that returns success was made by the identity admin or by
    a caller of the administrator role, for an id that does not begin with
    an underscore and was not in the index, with one of the two valid
    roles.  It has appended the id at the end of the index, stored the
    record of the joinee with the balance 100, and left every other key of
    the world state, so every other participant's record, as it was.  The
    id is read back from the index and from the record as the codec keeps
    it ([coerce]): as it is when it is valid UTF-8, and with U+FFFD for
    every byte that begins no valid encoding otherwise. *)
Theorem join_success_effect (stub stub' : ChaincodeStub) (userId userRole : string)
    (args : list string) (payload : string) :
  join userId userRole args stub = (Done (payload, None), stub') →
  ∃ (joineeId joineeRole : string) (idx : list string),
    args = [joineeId; joineeRole]
    ∧ (userId = "admin" ∨ userRole = roleAdmin)
    ∧ Index joineeId "_" ≠ 0
    ∧ (joineeRole = roleAdmin ∨ joineeRole = roleUser)
    ∧ index_of (world stub) = Some idx
    ∧ (joineeId ∉ idx)
    ∧ index_of (world stub') = Some (idx ++ [coerce joineeId])%list
    ∧ record_of (world stub') joineeId = Some (mkUser (coerce joineeId) joineeRole 100)
    ∧ (ValidString joineeId = true → coerce joineeId = joineeId)
    ∧ ∀ key : string,
        key ≠ varJoinedUsersIndex → key ≠ varJoinedUsers +:+ joineeId →
        read (world stub') key = read (world stub) key.
Proof.
  intros H. unfold join in H. inv_exec H.
  repeat match goal with
  | E : GetState _ _ = _ |- _ => apply GetState_inv in E as (? & -> & ->)
  | E : PutState _ _ _ = _ |- _ => apply PutState_inv in E as (? & ->)
  end.
  injection H as _ <-. subst. cbn [world advance].
  repeat match goal with
  | E : _ && _ = false |- _ => apply andb_false_iff in E
  | E : (_ =? _) = false |- _ => apply Z.eqb_neq in E
  end.
  eexists _, _, _. split_and!; try done.
  - match goal with E : negb (String.eqb userId "admin") = false ∨ _ |- _ =>
      destruct E as [E|E]; apply negb_false_iff, String.eqb_eq in E; [by left | by right]
    end.
  - match goal with E : negb (String.eqb _ roleAdmin) = false ∨ negb (String.eqb _ roleUser) = false |- _ =>
      destruct E as [E|E]; apply negb_false_iff, String.eqb_eq in E; [by left | by right]
    end.
  - rewrite <- previously_joined_elem. by intros ?%eq_true_false_abs.
  - rewrite index_of_insert, map_app, map_coerce_valid; [done|].
    by eapply Unmarshal_strings_valid.
  - unfold record_of, read.
    rewrite lookup_insert_ne, lookup_insert_eq
      by (intros Heq; symmetry in Heq; by apply participant_key_not_index in Heq).
    cbn [default from_option id]. rewrite Unmarshal_Marshal_user by done.
    cbn [Id Role AssetBalance].
    match goal with
    | E : negb (String.eqb _ roleAdmin) = false ∨ negb (String.eqb _ roleUser) = false |- _ =>
      destruct E as [E|E]; apply negb_false_iff, String.eqb_eq in E; by rewrite E
    end.
  - apply coerce_valid.
  - intros key Hk1 Hk2. unfold read. by rewrite !lookup_insert_ne.
Qed.

Lemma join_success_effect_witness :
  index_of (world two_joined) = Some ["alice"; "bob"]
  ∧ record_of (world two_joined) "bob" = Some (mkUser "bob" "user" 100)
  ∧ read (world two_joined) "_joinedUsers_alice" = read (world alice_joined) "_joinedUsers_alice".
Proof.
  destruct (join_success_effect (next_call [] alice_joined) two_joined "admin" EmptyString
              ["bob"; "user"] nilBytes)
    as (joineeId & joineeRole & idx & Hargs & _ & _ & _ & Hidx & _ & Hidx' & Hrec & _ & Hframe).
  - rewrite (surjective_pairing (join _ _ _ _)). f_equal; vm_compute; reflexivity.
  - injection Hargs as <- <-.
    assert (idx = ["alice"]) as -> by (vm_compute in Hidx; congruence).
    split_and!; [exact Hidx' | exact Hrec |].
    apply Hframe; discriminate.
Defined.

(** X10.  When the write of the index fails and the delete that follows it
    goes through, the world state ends without any entry under the key of
    the joinee: as it was before the join when the joinee had no record,
    and without the record a previous membership had left there
    otherwise.  The index is as it was and the panic reports the roll
    back. *)
Theorem join_rolled_back
    (stub : ChaincodeStub) (userId userRole joineeId joineeRole e : string)
    (idx : list string) :
  userId = "admin" ∨ userRole = roleAdmin →
  Index joineeId "_" ≠ 0 →
  joineeRole = roleAdmin ∨ joineeRole = roleUser →
  index_of (world stub) = Some idx →
  joineeId ∉ idx →
  fault_at 0 stub = None → fault_at 1 stub = None →
  fault_at 2 stub = Some e →
  fault_at 3 stub = None →
  let '(o, stub') := join userId userRole [joineeId; joineeRole] stub in
  world stub' = delete (varJoinedUsers +:+ joineeId) (world stub)
  ∧ index_of (world stub') = Some idx
  ∧ record_of (world stub') joineeId = None
  ∧ (world stub !! (varJoinedUsers +:+ joineeId) = None → world stub' = world stub)
  ∧ ∃ msg : string,
      o = Panic (PString msg)
      ∧ mentions msg ("rollback succeeded for new Joinee ID '" +:+ joineeId).
Proof.
  intros Hauth Hid Hrole Hidx Hfresh Hf0 Hf1 Hf2 Hf3. unfold join.
  assert (negb (String.eqb userId "admin") && negb (String.eqb userRole roleAdmin) = false) as ->.
  { destruct Hauth as [-> | ->]; [done|]. by rewrite andb_comm. }
  assert ((Index joineeId "_" =? 0) = false) as -> by by apply Z.eqb_neq.
  assert (negb (String.eqb joineeRole roleAdmin) && negb (String.eqb joineeRole roleUser) = false) as ->.
  { by destruct Hrole as [-> | ->]. }
  run_access. unfold index_of in Hidx. rewrite Hidx.
  assert (previously_joined joineeId idx = false) as ->.
  { apply not_true_is_false. by rewrite previously_joined_elem. }
  run_access. run_access. run_access. unfold panic. cbn [world advance].
  rewrite delete_insert_eq. split_and!.
  - done.
  - by rewrite index_of_delete_other by apply participant_key_not_index.
  - unfold record_of, read. by rewrite lookup_delete_eq.
  - intros Hnone. by apply delete_id.
  - eexists; split; [reflexivity|]. apply mentions_skip, mentions_two.
Qed.

Lemma join_rolled_back_witness :
  let '(o, stub') :=
    join "admin" EmptyString ["bob"; "user"]
      (next_call [None; None; Some "store unavailable"] alice_joined) in
  world stub' = world alice_joined
  ∧ index_of (world stub') = Some ["alice"]
  ∧ ∃ msg : string,
      o = Panic (PString msg) ∧ mentions msg "rollback succeeded for new Joinee ID 'bob".
Proof.
  pose proof (join_rolled_back (next_call [None; None; Some "store unavailable"] alice_joined)
                "admin" EmptyString "bob" "user" "store unavailable" ["alice"]) as H.
  destruct (join "admin" EmptyString ["bob"; "user"]
              (next_call [None; None; Some "store unavailable"] alice_joined)) as [o stub'].
  destruct H as (_ & Hidx & _ & Hsame & Hmsg);
    [by left | by vm_compute | by right | by vm_compute
    | by intros [?|?%elem_of_nil]%elem_of_cons
    | reflexivity | reflexivity | reflexivity | reflexivity |].
  split_and!; [apply Hsame; by vm_compute | exact Hidx | exact Hmsg].
Defined.

(** X11.  When the world state reports no fault, a join either returns
    success or leaves the world state as it was, without attempting a
    write. *)
Theorem join_without_fault_all_or_nothing
    (stub : ChaincodeStub) (userId userRole : string) (args : list string) :
  (∀ n, fault_at n stub = None) →
  let '(o, stub') := join userId userRole args stub in
  succeeded o = true
  ∨ (world stub' = world stub ∧ writes (trace stub') = writes (trace stub)).
Proof.
  intros Hnone. unfold join.
  assert (∀ t evs, writes (t ++ evs) = (writes t ++ writes evs)%list) as Hw
    by (intros; apply List.filter_app).
  destruct args as [|joineeId [|joineeRole [|extra args]]]; try (right; by split).
  repeat (match goal with
          | |- context [if ?c then _ else _] => destruct c eqn:?
          end; [right; by split|]).
  rewrite run_bind, GetState_ok by done. cbv beta iota.
  destruct (Unmarshal_strings _) as [idx|];
    [|right; unfold panic; rewrite trace_advance, Hw, app_nil_r; by split].
  destruct (previously_joined joineeId idx);
    [right; unfold panic; rewrite trace_advance, Hw, app_nil_r; by split|].
  rewrite run_bind, PutState_ok by (by rewrite !fault_at_advance). cbv beta iota.
  rewrite run_bind, PutState_ok by (by rewrite !fault_at_advance). cbv beta iota.
  by left.
Qed.

Lemma join_without_fault_all_or_nothing_witness :
  let '(o, stub') := join "admin" EmptyString ["alice"; "user"] (next_call [] alice_joined) in
  succeeded o = true
  ∨ (world stub' = world (next_call [] alice_joined)
     ∧ writes (trace stub') = writes (trace (next_call [] alice_joined))).
Proof.
  apply (join_without_fault_all_or_nothing (next_call [] alice_joined) "admin" EmptyString
           ["alice"; "user"]).
  apply no_fault_scheduled. reflexivity.
Defined.

End GatedJoinMore.

(** ** Reset, roster and queries *)

Section ResetAndQueries.
Import Json Scenario.


(** X13.  A reset of the role-gated contract keeps every participant's
    record but empties the index, so that a transfer between two former
    members is refused: the sender is not a member any more. *)
Theorem Init_orphans_members
    (stub stub1 later : ChaincodeStub) (payload senderId receiverId quantity userRole : string)
    (q : Z) :
  Gated.Init "init" [] stub = (Done (payload, None), stub1) →
  world later = world stub1 →
  fault_at 0 later = None →
  Index senderId "_" ≠ 0 → Index receiverId "_" ≠ 0 →
  senderId ≠ receiverId →
  Atoi quantity = Some q →
  (∀ id : string, Gated.record_of (world stub1) id = Gated.record_of (world stub) id)
  ∧ fst (Gated.transfer senderId userRole [senderId; receiverId; quantity] later) =
    Panic (PString
      (Gated.transfer_errorHeader
       +:+ "Sender is not a member and will have to join the network before attempting this Asset Transfer.")).
Proof.
  intros HInit Hlater Hf0 Hs_ Hr_ Hne Hq.
  pose proof (Init_index _ _ _ _ _ HInit) as Hidx.
  unfold Gated.Init in HInit. inv_exec HInit.
  match goal with E : PutState _ _ _ = _ |- _ => apply PutState_inv in E as (_ & ->) end.
  injection HInit as _ <-. cbn [world advance] in *. split.
  - intros id. unfold Gated.record_of, read.
    by rewrite lookup_insert_ne by (intros Heq; symmetry in Heq; by apply participant_key_not_index in Heq).
  - unfold Gated.transfer.
    assert ((Index senderId "_" =? 0) || (Index receiverId "_" =? 0) = false) as ->.
    { apply orb_false_intro; by apply Z.eqb_neq. }
    assert (String.eqb senderId receiverId = false) as -> by by apply String.eqb_neq.
    rewrite String.eqb_refl. cbn [negb]. rewrite Hq.
    run_access. unfold Gated.index_of in Hidx. by rewrite Hlater, Hidx.
Qed.

Lemma Init_orphans_members_witness :
  Gated.record_of (world (then_call two_joined (Gated.Init "init" []))) "alice" =
    Gated.record_of (world (next_call [] two_joined)) "alice"
  ∧ fst (Gated.transfer "alice" "user" ["alice"; "bob"; "30"]
           (next_call [] (then_call two_joined (Gated.Init "init" [])))) =
    Panic (PString
      "ERROR: Source: transfer. Sender is not a member and will have to join the network before attempting this Asset Transfer.").
Proof.
  destruct (Init_orphans_members (next_call [] two_joined)
              (then_call two_joined (Gated.Init "init" []))
              (next_call [] (then_call two_joined (Gated.Init "init" [])))
              nilBytes "alice" "bob" "30" "user" 30) as [Hrec Hrefused];
    [ rewrite (surjective_pairing (Gated.Init _ _ _)); f_equal; vm_compute; reflexivity
    | reflexivity | reflexivity | by vm_compute | by vm_compute | discriminate | reflexivity |].
  split; [apply Hrec | exact Hrefused].
Defined.

(** X14.  Neither contract's [Query] ever writes: for every function name,
    every list of arguments and every schedule of faults the world state
    is left as it was and the trace gains no write. *)
Theorem Query_never_writes :
  (∀ (function : string) (args : list string) (stub : ChaincodeStub),
     world (snd (Gated.Query function args stub)) = world stub
     ∧ writes (trace (snd (Gated.Query function args stub))) = writes (trace stub))
  ∧ (∀ (function : string) (args : list string) (stub : ChaincodeStub),
       world (snd (Simple.Query function args stub)) = world stub
       ∧ writes (trace (snd (Simple.Query function args stub))) = writes (trace stub)).
Proof. split; [exact Gated_Query_read_only | exact Simple_Query_read_only]. Qed.

(** X15.  After a transfer that returned success, the query of the
    balance of the sender returns the decimal text of [sender - q] and
    that of the receiver the decimal text of [receiver + q], as Go
    computes them. *)
Theorem getassetbalance_after_transfer
    (stub stub' later : ChaincodeStub) (userId userRole receiverId quantity payload : string) :
  Gated.transfer userId userRole [userId; receiverId; quantity] stub = (Done (payload, None), stub') →
  world later = world stub' →
  fault_at 0 later = None →
  ∃ q sb rb : Z,
    Atoi quantity = Some q
    ∧ Gated.balance_of (world stub) userId = Some sb
    ∧ Gated.balance_of (world stub) receiverId = Some rb
    ∧ fst (Gated.Query "getassetbalance" [userId] later) = Done (Itoa (sub sb q), None)
    ∧ fst (Gated.Query "getassetbalance" [receiverId] later) = Done (Itoa (add rb q), None).
Proof.
  intros (? & ? & q & idx & s & r & [= <- <-] & Hne & Hq & _ & _ & _ & Hs & Hr & _ & Hw)
    %transfer_success_inv Hlater Hf.
  exists q, (Gated.AssetBalance s), (Gated.AssetBalance r).
  unfold Gated.balance_of. rewrite Hs, Hr. split_and!; try done.
  - unfold Gated.Query.
    change (String.eqb "getassetbalance" "getassetbalance") with true. cbv iota.
    rewrite run_bind,
      (getUserDetails_ok userId later
         (Gated.with_balance s (sub (Gated.AssetBalance s) q)) Hf); [reflexivity|].
    rewrite Hlater, Hw. unfold Gated.record_of, read.
    rewrite lookup_insert_ne, lookup_insert_eq
      by (intros ?%participant_key_inj; congruence).
    cbn [default from_option id]. eapply Unmarshal_Marshal_decoded; [eassumption | apply wrap_in_range].
  - unfold Gated.Query.
    change (String.eqb "getassetbalance" "getassetbalance") with true. cbv iota.
    rewrite run_bind,
      (getUserDetails_ok receiverId later
         (Gated.with_balance r (add (Gated.AssetBalance r) q)) Hf); [reflexivity|].
    rewrite Hlater, Hw. unfold Gated.record_of, read. rewrite lookup_insert_eq.
    cbn [default from_option id]. eapply Unmarshal_Marshal_decoded; [eassumption | apply wrap_in_range].
Qed.

Lemma getassetbalance_after_transfer_witness :
  fst (Gated.Query "getassetbalance" ["alice"]
         (next_call [] (then_call two_joined (Gated.transfer "alice" "user" ["alice"; "bob"; "30"])))) =
    Done ("70", None)
  ∧ fst (Gated.Query "getassetbalance" ["bob"]
           (next_call [] (then_call two_joined (Gated.transfer "alice" "user" ["alice"; "bob"; "30"])))) =
    Done ("130", None).
Proof.
  destruct (getassetbalance_after_transfer (next_call [] two_joined)
              (then_call two_joined (Gated.transfer "alice" "user" ["alice"; "bob"; "30"]))
              (next_call [] (then_call two_joined (Gated.transfer "alice" "user" ["alice"; "bob"; "30"])))
              "alice" "user" "bob" "30" nilBytes)
    as (q & sb & rb & Hq & Hs & Hr & Hqs & Hqr);
    [ rewrite (surjective_pairing (Gated.transfer _ _ _ _)); f_equal; vm_compute; reflexivity
    | reflexivity | reflexivity |].
  assert (q = 30) as -> by (vm_compute in Hq; congruence).
  assert (sb = 100) as -> by (vm_compute in Hs; congruence).
  assert (rb = 100) as -> by (vm_compute in Hr; congruence).
  split; [exact Hqs | exact Hqr].
Defined.

End ResetAndQueries.

(** ** The roster *)

Section Roster.
Import Utf8 Json Gated Scenario.

Lemma join_by_admin_world (stub : ChaincodeStub) (id : string) (idx : list string) :
  index_of (world stub) = Some idx →
  id ∉ idx →
  Index id "_" ≠ 0 →
  world (snd (join "admin" EmptyString [id; roleUser] (next_call [] stub))) =
  <[varJoinedUsersIndex := Marshal_strings (idx ++ [id])%list]>
    (<[varJoinedUsers +:+ id := Marshal_user (mkUser id roleUser 100)]> (world stub)).
Proof.
  intros Hidx Hfresh Hid. unfold join.
  change (negb (String.eqb "admin" "admin") && negb (String.eqb EmptyString roleAdmin)) with false.
  assert ((Index id "_" =? 0) = false) as -> by by apply Z.eqb_neq.
  change (negb (String.eqb roleUser roleAdmin) && negb (String.eqb roleUser roleUser)) with false.
  cbv iota.
  assert (∀ n, fault_at n (next_call [] stub) = None) as Hnone by by apply no_fault_scheduled.
  rewrite run_bind, GetState_ok by done. cbv beta iota.
  unfold index_of in Hidx. cbn [world next_call]. rewrite Hidx.
  assert (previously_joined id idx = false) as ->.
  { apply not_true_is_false. by rewrite previously_joined_elem. }
  rewrite run_bind, PutState_ok by (by rewrite !fault_at_advance). cbv beta iota.
  rewrite run_bind, PutState_ok by (by rewrite !fault_at_advance). cbv beta iota.
  reflexivity.
Qed.

Lemma run_joins_by_admin (ids : list string) :
  ∀ (stub : ChaincodeStub) (pre : list string),
    read (world stub) varJoinedUsersIndex = Marshal_strings pre →
    NoDup (pre ++ ids) →
    valid_arguments (pre ++ ids) →
    (∀ id, id ∈ ids → Index id "_" ≠ 0) →
    (∀ id, id ∈ pre → balance_of (world stub) id = Some 100) →
    read (world (run_joins (joins_by_admin ids) stub)) varJoinedUsersIndex =
      Marshal_strings (pre ++ ids)
    ∧ ∀ id, id ∈ (pre ++ ids)%list →
        balance_of (world (run_joins (joins_by_admin ids) stub)) id = Some 100.
Proof.
  induction ids as [|jid ids IH]; intros stub pre Hread Hnd Hvalid Hids Hbal.
  - rewrite app_nil_r. by split.
  - cbn [joins_by_admin map run_joins fold_left].
    change (fold_left _ (map _ ids) ?s) with (run_joins (joins_by_admin ids) s).
    cbn [caller callerRole arguments schedule].
    assert (index_of (world stub) = Some pre) as Hidx.
    { unfold index_of. rewrite Hread, Unmarshal_Marshal_strings, map_coerce_valid; [done|].
      by apply Forall_app in Hvalid as [? _]. }
    apply NoDup_app in Hnd as (Hpre & Hdisj & [Hnotin Hrest]%NoDup_cons).
    assert (jid ∉ pre) as Hfresh.
    { intros Hin. apply (Hdisj jid Hin), list_elem_of_here. }
    pose proof (join_by_admin_world stub jid pre Hidx Hfresh
                  (Hids jid (list_elem_of_here _ _))) as Hw.
    replace (pre ++ jid :: ids)%list with ((pre ++ [jid]) ++ ids)%list
      by (by rewrite <- app_assoc).
    apply IH.
    + rewrite Hw. unfold read. by rewrite lookup_insert_eq.
    + rewrite <- app_assoc. apply NoDup_app. split_and!; [done | | by apply NoDup_cons].
      intros x Hx. by apply Hdisj.
    + by rewrite <- app_assoc.
    + intros x Hx. by apply Hids, list_elem_of_further.
    + intros x Hx. rewrite Hw. unfold balance_of, record_of, read.
      rewrite lookup_insert_ne
        by (intros Heq; symmetry in Heq; by apply participant_key_not_index in Heq).
      apply elem_of_app in Hx as [Hx | ->%list_elem_of_singleton].
      * rewrite lookup_insert_ne by (intros ->%participant_key_inj; done).
        by apply Hbal.
      * rewrite lookup_insert_eq. cbn [default from_option id].
        by rewrite Unmarshal_Marshal_user.
Qed.

(** X16.  After [Init], let the identity admin join a list of distinct
    ids, each valid UTF-8 and none beginning with an underscore, as
    standard users.  The index
    then holds exactly these ids in the order they joined, the query of
    all joined users returns the JSON text of that list whatever its
    arguments, and the query of the balance of each of them returns
    100. *)
Theorem roster_lists_members_in_join_order
    (stub0 stub1 later : ChaincodeStub) (payload : string) (ids args : list string) :
  Init "init" [] stub0 = (Done (payload, None), stub1) →
  NoDup ids →
  valid_arguments ids →
  (∀ id, id ∈ ids → Index id "_" ≠ 0) →
  world later = world (run_joins (joins_by_admin ids) stub1) →
  fault_at 0 later = None →
  index_of (world later) = Some ids
  ∧ fst (Query "getalljoinedusers" args later) = Done (Marshal_strings ids, None)
  ∧ ∀ id, id ∈ ids → fst (Query "getassetbalance" [id] later) = Done ("100", None).
Proof.
  intros HInit Hnd Hvalid Hids Hlater Hf.
  assert (read (world stub1) varJoinedUsersIndex = Marshal_strings []) as Hread.
  { unfold Init in HInit. inv_exec HInit.
    match goal with E : PutState _ _ _ = _ |- _ => apply PutState_inv in E as (_ & ->) end.
    injection HInit as _ <-. cbn [world advance]. unfold read. by rewrite lookup_insert_eq. }
  destruct (run_joins_by_admin ids stub1 [] Hread) as [Hroster Hbal];
    [done | done | done | by intros ? ?%elem_of_nil |].
  cbn [app] in Hroster, Hbal. rewrite <- Hlater in Hroster, Hbal.
  assert (index_of (world later) = Some ids) as Hidx.
  { unfold index_of. by rewrite Hroster, Unmarshal_Marshal_strings, map_coerce_valid. }
  split_and!; [done | |].
  - unfold Query.
    change (String.eqb "getalljoinedusers" "getassetbalance") with false.
    change (String.eqb "getalljoinedusers" "getalljoinedusers") with true. cbv iota.
    rewrite run_bind, (GetState_ok _ _ Hf). cbv beta iota.
    unfold index_of in Hidx. by rewrite Hidx, Hroster.
  - intros id Hin. specialize (Hbal id Hin).
    unfold balance_of in Hbal. destruct (record_of (world later) id) as [u|] eqn:Hu; [|done].
    injection Hbal as Hbal. unfold Query.
    change (String.eqb "getassetbalance" "getassetbalance") with true. cbv iota.
    rewrite run_bind, (getUserDetails_ok id later u Hf Hu). cbv beta iota.
    unfold ret. by rewrite Hbal.
Qed.

Lemma roster_lists_members_in_join_order_witness :
  fst (Query "getalljoinedusers" []
         (run_joins (joins_by_admin ["alice"; "bob"; "carol"]) deployed)) =
    Done (Marshal_strings ["alice"; "bob"; "carol"], None)
  ∧ fst (Query "getassetbalance" ["carol"]
           (run_joins (joins_by_admin ["alice"; "bob"; "carol"]) deployed)) =
    Done ("100", None).
Proof.
  destruct (roster_lists_members_in_join_order (stub_of ∅ "admin") deployed
              (run_joins (joins_by_admin ["alice"; "bob"; "carol"]) deployed)
              nilBytes ["alice"; "bob"; "carol"] []) as (_ & Hroster & Hbal).
  - reflexivity.
  - apply (bool_decide_unpack _). by vm_compute.
  - repeat constructor.
  - intros who Hin. apply list_elem_of_In in Hin. simpl in Hin.
    destruct Hin as [<-|[<-|[<-|[]]]]; by vm_compute.
  - reflexivity.
  - by vm_compute.
  - split; [exact Hroster|]. apply Hbal. do 2 apply list_elem_of_further. apply list_elem_of_here.
Defined.

End Roster.

(** ** More on the entry points *)

Section PanicsCarryStrings.

Lemma ps_ret {A} (a : A) : panics_with_string (ret a).
Proof. intros stub stub' p. unfold ret. discriminate. Qed.

Lemma ps_panic {A} (msg : string) : panics_with_string (@panic A msg).
Proof. intros stub stub' p [= <- _]. by exists msg. Qed.

Lemma ps_bind {A B} (m : Exec A) (k : A → Exec B) :
  panics_with_string m → (∀ a, panics_with_string (k a)) → panics_with_string (bind m k).
Proof.
  intros Hm Hk stub stub' p. unfold bind.
  destruct (m stub) as [[a|p0] stub0] eqn:E.
  - apply Hk.
  - intros [= <- <-]. by eapply Hm.
Qed.

Lemma ps_GetState (key : string) : panics_with_string (GetState key).
Proof. intros stub stub' p. unfold GetState. destruct (next_fault stub); discriminate. Qed.

Lemma ps_PutState (key value : string) : panics_with_string (PutState key value).
Proof. intros stub stub' p. unfold PutState. destruct (next_fault stub); discriminate. Qed.

Lemma ps_DelState (key : string) : panics_with_string (DelState key).
Proof. intros stub stub' p. unfold DelState. destruct (next_fault stub); discriminate. Qed.

Lemma ps_ReadCertAttribute (name : string) : panics_with_string (ReadCertAttribute name).
Proof.
  intros stub stub' p. unfold ReadCertAttribute.
  destruct (certAttributes stub !! name); discriminate.
Qed.

End PanicsCarryStrings.

(** Proves [panics_with_string] of a computation by going through it. *)
Ltac solve_panics_with_string :=
  repeat first
    [ apply ps_ret | apply ps_panic
    | apply ps_GetState | apply ps_PutState | apply ps_DelState | apply ps_ReadCertAttribute
    | apply ps_bind; [|intros ?]
    | match goal with
      | |- panics_with_string (match ?x with _ => _ end) => destruct x
      end ].

Section GatedInvokeMore.
Import Json Gated Scenario.

Lemma Invoke_body_panics_with_string (function : string) (args : list string) :
  panics_with_string (Invoke_body function args).
Proof.
  unfold Invoke_body, getUsernameFromEcert, getUserDetails, Init, join, transfer.
  solve_panics_with_string.
Qed.

(** X17.  Whatever it is asked, [Invoke] never returns a nil error.  When
    the function it runs panics, it returns the message of the panic
    behind its own header as an error; when that function returns, with or
    without an error, and also when the name of the function is unknown,
    [Invoke] panics with the failed type assertion of its deferred
    function. *)
Theorem Invoke_returns_an_error_or_panics
    (function : string) (args : list string) (stub : ChaincodeStub) :
  (∃ msg : string,
     fst (Invoke_body function args stub) = Panic (PString msg)
     ∧ fst (Invoke function args stub) =
       Done (nilBytes, Some (Invoke_errorHeader +:+ "Details: " +:+ msg)))
  ∨ (∃ r : reply,
       fst (Invoke_body function args stub) = Done r
       ∧ fst (Invoke function args stub) =
         Panic (PRuntimeError "interface conversion: interface is nil, not string")).
Proof.
  unfold Invoke.
  destruct (Invoke_body function args stub) as [[r|p] stub'] eqn:E.
  - right. by exists r.
  - left. destruct (Invoke_body_panics_with_string function args stub stub' p E) as [msg ->].
    by exists msg.
Qed.

Lemma Invoke_without_record_witness :
  Invoke "join" ["alice"; "user"] (next_call [] deployed) =
  (Done (nilBytes,
         Some "ERROR: Source: Invoke. Details: ERROR: Failed to unmarshal User Information. Source: getUserDetails. Details: unexpected end of JSON input"),
   advance (next_call [] deployed) (world (next_call [] deployed))
     (EvGetState "_joinedUsers_admin" true)).
Proof.
  apply (Invoke_without_record "join" "admin" ["alice"; "user"] (next_call [] deployed));
    by vm_compute.
Defined.

(** X19.  An invocation whose certificate carries no username attribute is
    answered with an error that says so, before any access to the world
    state. *)
Theorem Invoke_without_username (function : string) (args : list string) (stub : ChaincodeStub) :
  certAttributes stub !! "username" = None →
  ∃ msg : string,
    Invoke function args stub = (Done (nilBytes, Some msg), stub)
    ∧ mentions msg "ERROR: Failed to get attribute 'username' from eCert of chaincode invoker.".
Proof.
  intros Hcert. unfold Invoke, Invoke_body, getUsernameFromEcert, ReadCertAttribute.
  rewrite !run_bind, Hcert. cbv beta iota. unfold panic.
  eexists; split; [reflexivity|]. unfold Invoke_errorHeader.
  do 2 apply mentions_skip.
  exists EmptyString,
    (" Source: getUsernameFromEcert. Details: " +:+ "attribute not found").
  reflexivity.
Qed.

Lemma Invoke_without_username_witness :
  ∃ msg : string,
    Invoke "transfer" ["alice"; "bob"; "30"]
      (mkStub (world two_joined) ∅ [] []) =
    (Done (nilBytes, Some msg), mkStub (world two_joined) ∅ [] [])
    ∧ mentions msg "ERROR: Failed to get attribute 'username' from eCert of chaincode invoker.".
Proof.
  apply (Invoke_without_username "transfer" ["alice"; "bob"; "30"]
           (mkStub (world two_joined) ∅ [] [])).
  reflexivity.
Defined.

(** X20.  A member whose stored role is not admin, and who is not the
    identity admin, invokes join: [Invoke] reads the member's record and
    returns the permission-denied failure of [join] as an error behind its
    own header; nothing is written. *)
Theorem Invoke_join_denied_without_admin_role
    (stub : ChaincodeStub) (userId joineeId joineeRole : string) (u : user) :
  certAttributes stub !! "username" = Some userId →
  record_of (world stub) userId = Some u →
  fault_at 0 stub = None →
  userId ≠ "admin" → Role u ≠ roleAdmin →
  Invoke "join" [joineeId; joineeRole] stub =
  (Done (nilBytes,
         Some (Invoke_errorHeader +:+ "Details: " +:+ join_errorHeader
               +:+ "Permission denied - executing User must be 'admin' or assigned an Administrator User Role.")),
   advance stub (world stub) (EvGetState (varJoinedUsers +:+ userId) true)).
Proof.
  intros Hcert Hrec Hf Hu%String.eqb_neq Hr%String.eqb_neq.
  unfold Invoke, Invoke_body, getUsernameFromEcert, ReadCertAttribute.
  rewrite !run_bind, Hcert. cbv beta iota. unfold ret at 1.
  rewrite run_bind, (getUserDetails_ok userId stub u Hf Hrec). cbv beta iota.
  change (String.eqb "join" "init") with false.
  change (String.eqb "join" "join") with true. cbv iota.
  unfold join. by rewrite Hu, Hr.
Qed.

Lemma Invoke_join_denied_without_admin_role_witness :
  fst (Invoke "join" ["mallory"; "admin"] (stub_of (world alice_joined) "alice")) =
  Done (nilBytes,
        Some "ERROR: Source: Invoke. Details: ERROR: Source: join. Permission denied - executing User must be 'admin' or assigned an Administrator User Role.").
Proof.
  rewrite (Invoke_join_denied_without_admin_role (stub_of (world alice_joined) "alice")
             "alice" "mallory" "admin" (mkUser "alice" "user" 100));
    [reflexivity | reflexivity | by vm_compute | reflexivity | discriminate | discriminate].
Defined.

(** X21.  For an invoker that has a record, [Invoke] reads that record and
    then runs the function asked for with the id from the certificate and
    the role from the record; what that function wrote stays written when
    [Invoke] then returns the error or panics. *)
Theorem Invoke_runs_the_function_as_the_invoker
    (stub : ChaincodeStub) (userId : string) (u : user) (args : list string) :
  certAttributes stub !! "username" = Some userId →
  record_of (world stub) userId = Some u →
  fault_at 0 stub = None →
  let after_read := advance stub (world stub) (EvGetState (varJoinedUsers +:+ userId) true) in
  Invoke "init" args stub =
    (Invoke_deferred (fst (Init "init" args after_read)), snd (Init "init" args after_read))
  ∧ Invoke "join" args stub =
    (Invoke_deferred (fst (join userId (Role u) args after_read)),
     snd (join userId (Role u) args after_read))
  ∧ Invoke "transfer" args stub =
    (Invoke_deferred (fst (transfer userId (Role u) args after_read)),
     snd (transfer userId (Role u) args after_read)).
Proof.
  intros Hcert Hrec Hf after_read.
  split_and!;
    unfold Invoke, Invoke_body, getUsernameFromEcert, ReadCertAttribute;
    rewrite !run_bind, Hcert; cbv beta iota; unfold ret at 1;
    rewrite !run_bind, (getUserDetails_ok userId stub u Hf Hrec); cbv beta iota;
    fold after_read.
  - change (String.eqb "init" "init") with true. cbv iota.
    by destruct (Init "init" args after_read).
  - change (String.eqb "join" "init") with false.
    change (String.eqb "join" "join") with true. cbv iota.
    by destruct (join userId (Role u) args after_read).
  - change (String.eqb "transfer" "init") with false.
    change (String.eqb "transfer" "join") with false.
    change (String.eqb "transfer" "transfer") with true. cbv iota.
    by destruct (transfer userId (Role u) args after_read).
Qed.

Lemma Invoke_runs_the_function_as_the_invoker_witness :
  balance_of (world (snd (Invoke "transfer" ["alice"; "bob"; "30"]
                            (stub_of (world two_joined) "alice")))) "bob" = Some 130
  ∧ fst (Invoke "transfer" ["alice"; "bob"; "30"] (stub_of (world two_joined) "alice")) =
    Panic (PRuntimeError "interface conversion: interface is nil, not string").
Proof.
  destruct (Invoke_runs_the_function_as_the_invoker (stub_of (world two_joined) "alice")
              "alice" (mkUser "alice" "user" 100) ["alice"; "bob"; "30"])
    as (_ & _ & ->); [reflexivity | by vm_compute | reflexivity |].
  split; vm_compute; reflexivity.
Defined.

End GatedInvokeMore.

(** ** More on the role-less contract *)

Section SimpleTransferMore.
Import Json Scenario.

Lemma Unmarshal_strings_array (s x : string) (l : list string) :
  Unmarshal_strings s = Some (x :: l) → ∃ r, s = String "[" r.
Proof.
  unfold Unmarshal_strings. destruct (String.eqb s "null"); [discriminate|].
  destruct s as [|c r]; [discriminate|].
  destruct c as [[] [] [] [] [] [] [] []]; try discriminate.
  intros _. by eexists.
Qed.

Lemma Atoi_of_bracket (r : string) : Atoi (String "[" r) = None.
Proof.
  unfold Atoi, NilZero.int_of_string, NilZero.uint_of_string. simpl.
  by destruct (NilEmpty.uint_of_string r).
Qed.

(** Bytes that [Atoi] reads as an integer are not an array of strings:
    decoded as the index they give no id. *)
Lemma Atoi_not_an_index (s : string) (z : Z) :
  Atoi s = Some z → Simple.Unmarshal_strings_unchecked s = [].
Proof.
  intros H. unfold Simple.Unmarshal_strings_unchecked.
  destruct (Unmarshal_strings s) as [[|x l]|] eqn:E; try done.
  apply Unmarshal_strings_array in E as [r ->]. by rewrite Atoi_of_bracket in H.
Qed.

Lemma Simple_scan_members_elem (senderId receiverId : string) (l : list string) :
  Simple.scan_members senderId receiverId l =
  (bool_decide (senderId ∈ l), bool_decide (receiverId ∈ l)).
Proof. exact (scan_members_elem senderId receiverId l). Qed.

(** X22.  A transfer of the role-less contract never changes the index of
    joined ids, whatever its arguments and the faults of the world state.
    Its check of the ids lets the key of the index through, but the two
    keys it writes are ids the index lists, with bytes stored under them
    that read as an integer, and the bytes of an index that lists an id
    do not. *)
Theorem Simple_transfer_keeps_index (stub : ChaincodeStub) (args : list string) :
  read (world (snd (Simple.transfer args stub))) Simple.joinedUsersStr =
  read (world stub) Simple.joinedUsersStr.
Proof.
  unfold Simple.transfer.
  destruct args as [|senderId [|receiverId [|quantity [|extra args]]]]; try done.
  destruct (Atoi quantity) as [q|]; [|done].
  destruct ((Index senderId "_" =? 1) || (Index receiverId "_" =? 1)); [done|].
  destruct (String.eqb senderId receiverId); [done|].
  split_access; [done|].
  rewrite Simple_scan_members_elem.
  destruct (bool_decide (senderId ∈ _)) eqn:Hs; [|done].
  destruct (bool_decide (receiverId ∈ _)) eqn:Hr; [|done]. cbn [negb].
  apply bool_decide_eq_true_1 in Hs, Hr.
  split_access; [done|]. split_access; [done|].
  rewrite ?world_advance in *.
  destruct (Atoi (read (world stub) senderId)) as [sb|] eqn:Hsb; [|done].
  destruct (sub sb q <? 0); [done|].
  destruct (Atoi (read (world stub) receiverId)) as [rb|] eqn:Hrb; [|done].
  assert (senderId ≠ Simple.joinedUsersStr) as Hks.
  { intros ->. rewrite (Atoi_not_an_index _ _ Hsb) in Hs. by apply elem_of_nil in Hs. }
  assert (receiverId ≠ Simple.joinedUsersStr) as Hkr.
  { intros ->. rewrite (Atoi_not_an_index _ _ Hrb) in Hr. by apply elem_of_nil in Hr. }
  split_access; [done|].
  split_access; unfold ret; cbn [snd world advance]; unfold read;
    by rewrite ?lookup_insert_ne.
Qed.

(** X23.  A transfer of the role-less contract that returns success has
    replaced the balance stored under the id of the sender by
    [sender - q] and the one under the id of the receiver by
    [receiver + q], both as Go computes them, the new balance of the
    sender being at least 0, and has written nothing else.  Both ids are
    listed in the index; who made the call plays no part. *)
Theorem Simple_transfer_success_effect (stub stub' : ChaincodeStub) (args : list string)
    (payload : string) :
  Simple.transfer args stub = (Done (payload, None), stub') →
  ∃ (senderId receiverId quantity : string) (q sb rb : Z),
    args = [senderId; receiverId; quantity]
    ∧ senderId ≠ receiverId
    ∧ Atoi quantity = Some q
    ∧ senderId ∈ Simple.index_of (world stub)
    ∧ receiverId ∈ Simple.index_of (world stub)
    ∧ Simple.balance_of (world stub) senderId = Some sb
    ∧ Simple.balance_of (world stub) receiverId = Some rb
    ∧ 0 ≤ sub sb q
    ∧ world stub' =
        <[receiverId := Itoa (add rb q)]> (<[senderId := Itoa (sub sb q)]> (world stub))
    ∧ Simple.balance_of (world stub') senderId = Some (sub sb q)
    ∧ Simple.balance_of (world stub') receiverId = Some (add rb q).
Proof.
  intros H. unfold Simple.transfer in H.
  destruct args as [|senderId [|receiverId [|quantity [|extra args]]]]; try discriminate H.
  destruct (Atoi quantity) as [q|] eqn:Hq; [|discriminate H].
  destruct ((Index senderId "_" =? 1) || (Index receiverId "_" =? 1)); [discriminate H|].
  destruct (String.eqb_spec senderId receiverId) as [|Hne]; [discriminate H|].
  apply bind_inv in H as ([bytes err] & stub1 & Hget & H).
  destruct err; [discriminate H|]. apply GetState_inv in Hget as (_ & -> & ->).
  rewrite Simple_scan_members_elem in H.
  destruct (bool_decide (senderId ∈ _)) eqn:Hs; [|discriminate H].
  destruct (bool_decide (receiverId ∈ _)) eqn:Hr; [|discriminate H]. cbn [negb] in H.
  apply bool_decide_eq_true_1 in Hs, Hr.
  apply bind_inv in H as ([sbytes err] & stub2 & Hget & H).
  destruct err; [discriminate H|]. apply GetState_inv in Hget as (_ & -> & ->).
  apply bind_inv in H as ([rbytes err] & stub3 & Hget & H).
  destruct err; [discriminate H|]. apply GetState_inv in Hget as (_ & -> & ->).
  rewrite ?world_advance in *.
  destruct (Atoi (read (world stub) senderId)) as [sb|] eqn:Hsb; [|discriminate H].
  destruct (sub sb q <? 0) eqn:Hpos; [discriminate H|]. apply Z.ltb_ge in Hpos.
  destruct (Atoi (read (world stub) receiverId)) as [rb|] eqn:Hrb; [|discriminate H].
  apply bind_inv in H as ([e1|] & stub4 & Hput1 & H); [discriminate H|].
  apply PutState_inv in Hput1 as (_ & ->).
  apply bind_inv in H as ([e2|] & stub5 & Hput2 & H); [discriminate H|].
  apply PutState_inv in Hput2 as (_ & ->).
  injection H as _ <-. rewrite ?world_advance.
  exists senderId, receiverId, quantity, q, sb, rb. split_and!; try done.
  - unfold Simple.balance_of, read. rewrite lookup_insert_ne, lookup_insert_eq by done.
    cbn [default from_option id]. apply Atoi_Itoa, wrap_in_range.
  - unfold Simple.balance_of, read. rewrite lookup_insert_eq.
    cbn [default from_option id]. apply Atoi_Itoa, wrap_in_range.
Qed.

Lemma Simple_transfer_success_effect_witness :
  Simple.balance_of
    (world (snd (Simple.transfer ["alice"; "bob"; "30"] (next_call [] simple_two_joined))))
    "alice" = Some 70
  ∧ Simple.balance_of
      (world (snd (Simple.transfer ["alice"; "bob"; "30"] (next_call [] simple_two_joined))))
      "bob" = Some 130.
Proof.
  destruct (Simple_transfer_success_effect (next_call [] simple_two_joined)
              (snd (Simple.transfer ["alice"; "bob"; "30"] (next_call [] simple_two_joined)))
              ["alice"; "bob"; "30"] nilBytes)
    as (senderId & receiverId & quantity & q & sb & rb & Hargs & _ & Hq & _ & _ & Hsb & Hrb
        & _ & _ & Hs' & Hr').
  - rewrite (surjective_pairing (Simple.transfer _ _)). f_equal; vm_compute; reflexivity.
  - injection Hargs as <- <- <-.
    assert (q = 30) as -> by (vm_compute in Hq; congruence).
    assert (sb = 100) as -> by (vm_compute in Hsb; congruence).
    assert (rb = 100) as -> by (vm_compute in Hrb; congruence).
    split; [exact Hs' | exact Hr'].
Defined.

End SimpleTransferMore.

Section SimpleIdsAndStart.
Import Json Scenario.

(** X24.  The two checks of an id in the role-less contract differ: [join]
    refuses an id whose first underscore is its first character,
    [transfer] one whose first underscore is its second character.  So an
    id of the second kind that is not yet listed joins, with no fault, and
    then no transfer from it or to it ever succeeds: each is refused
    before the world state is accessed. *)
Theorem Simple_id_with_underscore_second
    (stub : ChaincodeStub) (id : string) :
  Index id "_" = 1 →
  id ∉ Simple.index_of (world stub) →
  faults stub = [] →
  fst (Simple.join [id] stub) = Done (nilBytes, None)
  ∧ ∀ (later : ChaincodeStub) (other quantity : string),
      (succeeded (fst (Simple.transfer [id; other; quantity] later)) = false
       ∧ snd (Simple.transfer [id; other; quantity] later) = later)
      ∧ (succeeded (fst (Simple.transfer [other; id; quantity] later)) = false
         ∧ snd (Simple.transfer [other; id; quantity] later) = later).
Proof.
  intros Hid Hnew Hf. pose proof (no_fault_scheduled stub Hf) as Hnone. split.
  - unfold Simple.join. rewrite Hid. change (1 =? 0) with false. cbv iota.
    pose proof (Hnone 0%nat) as Hf0. pose proof (Hnone 1%nat) as Hf1.
    pose proof (Hnone 2%nat) as Hf2.
    run_access.
    destruct (Simple.previously_joined id _) eqn:Hp.
    { apply Simple_previously_joined_elem in Hp. by destruct Hnew. }
    run_access. run_access. reflexivity.
  - intros later other quantity. unfold Simple.transfer.
    destruct (Atoi quantity); [|done].
    rewrite Hid. change (1 =? 1) with true. rewrite orb_true_r. done.
Qed.

Lemma Simple_id_with_underscore_second_witness :
  fst (Simple.join ["a_b"] (next_call [] simple_alice_joined)) = Done (nilBytes, None)
  ∧ succeeded (fst (Simple.transfer ["a_b"; "alice"; "10"]
                      (next_call [] (then_call simple_alice_joined (Simple.join ["a_b"]))))) = false
  ∧ succeeded (fst (Simple.transfer ["alice"; "a_b"; "10"]
                      (next_call [] (then_call simple_alice_joined (Simple.join ["a_b"]))))) = false.
Proof.
  destruct (Simple_id_with_underscore_second (next_call [] simple_alice_joined) "a_b")
    as [Hjoin Hlater].
  - reflexivity.
  - apply (bool_decide_unpack _). by vm_compute.
  - reflexivity.
  - split; [exact Hjoin|].
    destruct (Hlater (next_call [] (then_call simple_alice_joined (Simple.join ["a_b"])))
                "alice" "10") as [[H1 _] [H2 _]].
    split; [exact H1 | exact H2].
Defined.

(** X25.  On a world state that holds no index, which is what a contract
    that was never initialised has, the two contracts part.  The
    role-less [join] drops the error of the decoder, takes the index to
    be empty and lets the id join: afterwards the index lists that id
    alone, as the codec keeps it ([coerce]: the id itself when it is valid
    UTF-8), and its balance is 100.  The role-gated [join] panics on the
    error of the decoder and writes nothing. *)
Theorem join_without_index
    (stub : ChaincodeStub) (joineeId : string) :
  Index joineeId "_" ≠ 0 →
  read (world stub) Simple.joinedUsersStr = EmptyString →
  read (world stub) Gated.varJoinedUsersIndex = EmptyString →
  faults stub = [] →
  (fst (Simple.join [joineeId] stub) = Done (nilBytes, None)
   ∧ Simple.index_of (world (snd (Simple.join [joineeId] stub))) = [Utf8.coerce joineeId]
   ∧ (Utf8.ValidString joineeId = true → Utf8.coerce joineeId = joineeId)
   ∧ Simple.balance_of (world (snd (Simple.join [joineeId] stub))) joineeId = Some 100)
  ∧ (fst (Gated.join "admin" EmptyString [joineeId; Gated.roleUser] stub) =
       Panic (PString (Gated.join_errorHeader +:+ "Failed to unmarshal Index of Joined Users."))
     ∧ world (snd (Gated.join "admin" EmptyString [joineeId; Gated.roleUser] stub)) = world stub).
Proof.
  intros Hid Hs Hg Hf. pose proof (no_fault_scheduled stub Hf) as Hnone.
  pose proof (Hnone 0%nat) as Hf0. pose proof (Hnone 1%nat) as Hf1.
  pose proof (Hnone 2%nat) as Hf2.
  assert ((Index joineeId "_" =? 0) = false) as Hid' by by apply Z.eqb_neq.
  split.
  - assert (Simple.join [joineeId] stub =
            (Done (nilBytes, None),
             advance
               (advance
                  (advance stub (world stub) (EvGetState Simple.joinedUsersStr true))
                  (<[Simple.joinedUsersStr := Marshal_strings [joineeId]]> (world stub))
                  (EvPutState Simple.joinedUsersStr (Marshal_strings [joineeId]) true))
               (<[joineeId := Simple.initialAssetBalance]>
                  (<[Simple.joinedUsersStr := Marshal_strings [joineeId]]> (world stub)))
               (EvPutState joineeId Simple.initialAssetBalance true))) as ->.
    { unfold Simple.join. rewrite Hid'. run_access. rewrite Hs.
      change (Simple.Unmarshal_strings_unchecked EmptyString) with (@nil string).
      cbn [Simple.previously_joined app]. run_access. run_access. reflexivity. }
    cbn [fst snd]. rewrite world_advance. split_and!; [done| | |].
    + rewrite Simple_index_of_insert_other by done.
      apply (Simple_index_of_insert _ [joineeId]).
    + apply coerce_valid.
    + unfold Simple.balance_of, read. by rewrite lookup_insert_eq.
  - unfold Gated.join.
    change (String.eqb "admin" "admin") with true.
    cbn [negb andb]. rewrite Hid'.
    change (negb (String.eqb Gated.roleUser Gated.roleAdmin)
            && negb (String.eqb Gated.roleUser Gated.roleUser)) with false. cbv iota.
    run_access. rewrite Hg.
    change (Unmarshal_strings EmptyString) with (@None (list string)). cbv iota.
    done.
Qed.

Lemma join_without_index_witness :
  Simple.index_of (world (snd (Simple.join ["alice"] (stub_of ∅ "admin")))) = ["alice"]
  ∧ succeeded (fst (Gated.join "admin" EmptyString ["alice"; "user"] (stub_of ∅ "admin"))) = false.
Proof.
  destruct (join_without_index (stub_of ∅ "admin") "alice")
    as [(_ & Hidx & _ & _) (Hpanic & _)];
    [by vm_compute | reflexivity | reflexivity | reflexivity |].
  split; [exact Hidx|]. change Gated.roleUser with "user" in Hpanic. by rewrite Hpanic.
Defined.

(** X26.  In the role-less contract, when the write of the receiver's
    balance fails after the write of the sender's went through, the
    transfer returns an error and attempts no further write: the sender
    stays debited, the receiver is not credited. *)
Theorem Simple_transfer_stays_debited
    (stub : ChaincodeStub) (senderId receiverId quantity : string) (q sb rb : Z) (e : string) :
  Index senderId "_" ≠ 1 → Index receiverId "_" ≠ 1 →
  senderId ≠ receiverId →
  Atoi quantity = Some q →
  senderId ∈ Simple.index_of (world stub) → receiverId ∈ Simple.index_of (world stub) →
  Simple.balance_of (world stub) senderId = Some sb →
  Simple.balance_of (world stub) receiverId = Some rb →
  0 ≤ sub sb q →
  fault_at 0 stub = None → fault_at 1 stub = None → fault_at 2 stub = None →
  fault_at 3 stub = None → fault_at 4 stub = Some e →
  let '(o, stub') := Simple.transfer [senderId; receiverId; quantity] stub in
  o = Done (nilBytes,
            Some ("Transaction failed - unable to update Asset Balance for Receiver ID '"
                  +:+ receiverId +:+ "' . Error details: " +:+ e))
  ∧ writes (trace stub') =
      (writes (trace stub) ++
         [EvPutState senderId (Itoa (sub sb q)) true;
          EvPutState receiverId (Itoa (add rb q)) false])%list
  ∧ world stub' = <[senderId := Itoa (sub sb q)]> (world stub)
  ∧ Simple.balance_of (world stub') senderId = Some (sub sb q)
  ∧ Simple.balance_of (world stub') receiverId = Some rb.
Proof.
  intros Hs_ Hr_ Hne Hq Hsin Hrin Hsb Hrb Hpos Hf0 Hf1 Hf2 Hf3 Hf4.
  unfold Simple.transfer. rewrite Hq.
  assert ((Index senderId "_" =? 1) || (Index receiverId "_" =? 1) = false) as ->.
  { apply orb_false_intro; by apply Z.eqb_neq. }
  assert (String.eqb senderId receiverId = false) as -> by by apply String.eqb_neq.
  run_access. unfold Simple.index_of in Hsin, Hrin.
  rewrite Simple_scan_members_elem, !bool_decide_eq_true_2 by done. cbn [negb].
  run_access. run_access. rewrite ?world_advance.
  unfold Simple.balance_of in Hsb, Hrb. rewrite Hsb, Hrb.
  assert ((sub sb q <? 0) = false) as -> by by apply Z.ltb_ge.
  run_access. run_access. unfold ret.
  rewrite ?world_advance, !trace_advance. split_and!.
  - reflexivity.
  - unfold writes. rewrite !List.filter_app. cbn [List.filter is_write app].
    by rewrite !app_nil_r, <- !app_assoc.
  - reflexivity.
  - unfold Simple.balance_of, read. rewrite lookup_insert_eq.
    cbn [default from_option id]. apply Atoi_Itoa, wrap_in_range.
  - unfold Simple.balance_of, read. rewrite lookup_insert_ne by done. exact Hrb.
Qed.

Lemma Simple_transfer_stays_debited_witness :
  let '(o, stub') :=
    Simple.transfer ["alice"; "bob"; "30"]
      (next_call [None; None; None; None; Some "store unavailable"] simple_two_joined) in
  Simple.balance_of (world stub') "alice" = Some 70
  ∧ Simple.balance_of (world stub') "bob" = Some 100.
Proof.
  pose proof (Simple_transfer_stays_debited
                (next_call [None; None; None; None; Some "store unavailable"] simple_two_joined)
                "alice" "bob" "30" 30 100 100 "store unavailable") as H.
  destruct (Simple.transfer ["alice"; "bob"; "30"] _) as [o stub'].
  destruct H as (_ & _ & _ & Ha & Hb);
    [by vm_compute | by vm_compute | discriminate | reflexivity
    | apply (bool_decide_unpack _); by vm_compute
    | apply (bool_decide_unpack _); by vm_compute
    | by vm_compute | by vm_compute | by vm_compute
    | reflexivity | reflexivity | reflexivity | reflexivity | reflexivity |].
  split; [exact Ha | exact Hb].
Defined.

End SimpleIdsAndStart.

(** ** What the queries refuse *)

Section QueryRefusals.
Import Json Scenario.

(** X27.  A query for a function the contract does not know is answered
    with an error before the world state is accessed, whatever its
    arguments; so is a query for a balance with another number of
    arguments than one.  The role-less contract knows one function only:
    asked for the list of members, or for the summary its source names,
    it answers that the function is unknown. *)
Theorem Query_refusals (function : string) (args : list string) (stub : ChaincodeStub) :
  function ≠ "getassetbalance" →
  Simple.Query function args stub =
    (Done (nilBytes, Some ("Query() received unknown function: " +:+ function)), stub)
  ∧ Simple.Query "summary" args stub =
    (Done (nilBytes, Some "Query() received unknown function: summary"), stub)
  ∧ (function ≠ "getalljoinedusers" →
     Gated.Query function args stub =
       (Done (nilBytes, Some ("Query() received unknown function: " +:+ function)), stub))
  ∧ (List.length args ≠ 1%nat →
     Simple.Query "getassetbalance" args stub =
       (Done (nilBytes, Some "Incorrect number of arguments to Query() - expecting 1."), stub)
     ∧ Gated.Query "getassetbalance" args stub =
       (Done (nilBytes, Some "Incorrect number of arguments - expecting 1 (User ID)."), stub)).
Proof.
  intros Hf%String.eqb_neq. unfold Simple.Query, Gated.Query. rewrite Hf.
  change (String.eqb "summary" "getassetbalance") with false.
  change (String.eqb "getassetbalance" "getassetbalance") with true. cbv iota.
  split_and!; try done.
  - intros Hg%String.eqb_neq. by rewrite Hg.
  - intros Hargs. by destruct args as [|? [|? ?]].
Qed.

Lemma Query_refusals_witness :
  fst (Simple.Query "getalljoinedusers" ["alice"] simple_two_joined) =
    Done (nilBytes, Some "Query() received unknown function: getalljoinedusers")
  ∧ fst (Gated.Query "getbalance" ["alice"] two_joined) =
    Done (nilBytes, Some "Query() received unknown function: getbalance")
  ∧ fst (Gated.Query "getassetbalance" [] two_joined) =
    Done (nilBytes, Some "Incorrect number of arguments - expecting 1 (User ID).").
Proof.
  destruct (Query_refusals "getalljoinedusers" ["alice"] simple_two_joined) as (H1 & _);
    [discriminate|].
  destruct (Query_refusals "getbalance" ["alice"] two_joined) as (_ & _ & H2 & _);
    [discriminate|].
  destruct (Query_refusals "getbalance" [] two_joined) as (_ & _ & _ & H3);
    [discriminate|].
  destruct H3 as [_ H3]; [discriminate|].
  split_and!; [by rewrite H1 | by rewrite H2 by discriminate | by rewrite H3].
Defined.

End QueryRefusals.
